(** * SHA disbursement dashboard: the data-cleaning core of [functions.py]

    A shallow embedding of the loading, cleaning, entity-resolution,
    filtering and aggregation functions of [src/functions.py] and of the
    file-name reader of [src/parse_pdf.py], followed by the properties the
    specification states about them and by further properties of the code.

    Conventions of the embedding.
    - A Python [str] is a Rocq [string]; a character is a code point below
      256 (the Latin-1 range), on which the character classes of [re] and
      [str] are written out.  Functions that scan a string work on its list
      of characters.
    - What the libraries compute from tables of their own is a parameter
      of the section that uses it: the NFKD-then-ASCII folding of
      [unicodedata], the printing of a number by [str], the reading of a
      text by [pd.to_numeric], by [float] and by [int], [str.title],
      [str.upper], the scorer of [rapidfuzz], the order [sort_values]
      gives to rows of equal amount, and the additions of [Series.sum] and
      of [groupby(...).sum()].  A property that needs to know something
      about one of them says so in a hypothesis.
    - A pandas cell is [NA], a text or a number.  A number is a rational:
      the value the cell holds.  The dtype of a column is not modelled, so
      what a sum of a column makes of its numbers (additions that round on
      [float64] and wrap around on [int64]) is a parameter, not the sum
      of the rationals.
    - The behaviour of pandas is that of pandas 2: [astype(str)] turns a
      missing value into the text ["nan"], and assigning a series of
      dictionaries to several columns of selected rows writes, for each
      row, its dictionary into every one of these columns.
    - A [DataFrame] is its list of column labels and its list of rows.
      [read_csv] gives distinct labels; where a function meets a repeated
      label the embedding raises as pandas does for [df[name].str] and
      [pd.to_numeric(df[name])], and the properties of the filters and
      aggregates are stated for distinct labels.
    - A raised Python exception is the [Raise] result. *)

From Stdlib Require Import List String Ascii Bool Arith NArith ZArith QArith Lia.
From Stdlib Require Import Sorted Permutation.
Import ListNotations.

Close Scope Q_scope.
Open Scope string_scope.
Open Scope list_scope.

(* ===================================================================== *)
(** * Text *)
(* ===================================================================== *)

Module Text.

Definition chars := list ascii.

Definition chars_of (s : string) : chars := list_ascii_of_string s.
Definition str_of (l : chars) : string := string_of_list_ascii l.

Definition code (c : ascii) : N := N_of_ascii c.

Definition between (lo hi : N) (c : ascii) : bool :=
  ((lo <=? code c) && (code c <=? hi))%N.

(** [\d] on Latin-1: the ten ASCII digits. *)
Definition is_digit (c : ascii) : bool := between 48 57 c.

(** [[a-z0-9]]. *)
Definition is_az09 (c : ascii) : bool := between 97 122 c || is_digit c.

(** [\s] and [str.isspace]: TAB..CR, FS..US, space, NEL and NBSP. *)
Definition is_space (c : ascii) : bool :=
  between 9 13 c || between 28 32 c || (code c =? 133)%N || (code c =? 160)%N.

(** [\w]: [str.isalnum] or the underscore. *)
Definition is_word (c : ascii) : bool :=
  between 48 57 c || between 65 90 c || between 97 122 c || (code c =? 95)%N
  || (code c =? 170)%N || (code c =? 178)%N || (code c =? 179)%N
  || (code c =? 181)%N || (code c =? 185)%N || (code c =? 186)%N
  || between 188 190 c || between 192 214 c || between 216 246 c
  || between 248 255 c.

(** [str.lower] on one character: A-Z and the upper-case Latin-1 letters. *)
Definition lower_char (c : ascii) : ascii :=
  if between 65 90 c || between 192 214 c || between 216 222 c
  then ascii_of_N (code c + 32) else c.

Definition lower (s : chars) : chars := map lower_char s.

Definition space : ascii := " "%char.

(** [re.sub(p+, " ", s)] for a character class [p]: every maximal run of
    characters of the class becomes one space.  [in_run] tells that the
    previous character belonged to a run already replaced. *)
Fixpoint sub_runs (p : ascii -> bool) (in_run : bool) (s : chars) : chars :=
  match s with
  | [] => []
  | c :: r =>
      if p c
      then if in_run then sub_runs p true r else space :: sub_runs p true r
      else c :: sub_runs p false r
  end.

(** [str.lstrip] and [str.strip]. *)
Fixpoint lstrip (s : chars) : chars :=
  match s with
  | [] => []
  | c :: r => if is_space c then lstrip r else s
  end.

Definition strip (s : chars) : chars := rev (lstrip (rev (lstrip s))).

(** [w] is a prefix of [s]; the rest of [s] is returned. *)
Fixpoint strip_prefix (w s : chars) : option chars :=
  match w, s with
  | [], _ => Some s
  | _ :: _, [] => None
  | a :: w', b :: s' => if Ascii.eqb a b then strip_prefix w' s' else None
  end.

(** [\b] after a word character: end of string or a non-word character. *)
Definition boundary_after (rest : chars) : bool :=
  match rest with
  | [] => true
  | c :: _ => negb (is_word c)
  end.

(** The alternation [(w1|w2|...)\b] tried at the head of [s]: the first
    alternative that matches, in the order they are written. *)
Fixpoint first_alt (ws : list chars) (s : chars) : option chars :=
  match ws with
  | [] => None
  | w :: ws' =>
      match strip_prefix w s with
      | Some rest => if boundary_after rest then Some w else first_alt ws' s
      | None => first_alt ws' s
      end
  end.

(** [re.sub(r"\b(w1|w2|...)\b", " ", s)] for alternatives that start with a
    word character.  The scan goes left to right; [prev_word] tells whether
    the previous character is a word character, [skip] counts the
    characters of the current match still to be consumed. *)
Fixpoint sub_words (ws : list chars) (prev_word : bool) (skip : nat)
    (s : chars) : chars :=
  match s with
  | [] => []
  | c :: r =>
      match skip with
      | S k => sub_words ws (is_word c) k r
      | O =>
          if prev_word then c :: sub_words ws (is_word c) 0 r
          else match first_alt ws s with
               | Some w => space :: sub_words ws (is_word c) (List.length w - 1) r
               | None => c :: sub_words ws (is_word c) 0 r
               end
      end
  end.

End Text.

Import Text.

(* ===================================================================== *)
(** * Name cleaning *)
(* ===================================================================== *)

(** The words of the second [re.sub] of [_clean_name]. *)
Definition STOPWORDS : list chars :=
  map chars_of
    ["hospital"; "dispensary"; "clinic"; "medical"; "centre"; "center";
     "health"; "facility"].

Section CleanName.

(** [unicodedata.normalize("NFKD", s).encode("ascii", "ignore")
    .decode("ascii")]: the ASCII part of the compatibility decomposition. *)
Variable nfkd_ascii : string -> string.

(** The four rewriting steps of [_clean_name] after the folding. *)
Definition clean_chars (s : chars) : chars :=
  let s := lower s in
  let s := sub_runs (fun c => negb (is_az09 c)) false s in
  let s := sub_words STOPWORDS false 0 s in
  strip (sub_runs is_space false s).

(** [_clean_name]; [None] is Python's [None]. *)
Definition _clean_name (s : option string) : string :=
  match s with
  | None => ""
  | Some s => str_of (clean_chars (chars_of (nfkd_ascii s)))
  end.

End CleanName.

(** Dropping every non-ASCII character: the folding restricted to texts
    whose non-ASCII characters have no ASCII decomposition. *)
Definition ascii_only (s : string) : string :=
  str_of (filter (fun c => (code c <? 128)%N) (chars_of s)).


(* ===================================================================== *)
(** * Tables *)
(* ===================================================================== *)

(** A cell of a pandas column: missing ([NaN], [None], [pd.NA]), a text or
    a number. *)
Inductive cell : Type :=
| NA
| Str (s : string)
| Num (q : Q).

Inductive exn : Type := AttributeError | KeyError | TypeError | ValueError.

Inductive result (A : Type) : Type :=
| Ok (a : A)
| Raise (e : exn).

Arguments Ok {A} a.
Arguments Raise {A} e.

Definition bind {A B} (r : result A) (k : A -> result B) : result B :=
  match r with
  | Ok a => k a
  | Raise e => Raise e
  end.

Notation "x <- r ;; k" := (bind r (fun x => k))
  (at level 61, r at next level, right associativity).

Definition is_ok {A} (r : result A) : bool :=
  match r with Ok _ => true | Raise _ => false end.

(** A [DataFrame]: the column labels and the rows, each row holding one
    cell per label.  The index is not modelled: [reset_index(drop=True)]
    leaves the rows as they are. *)
Record DataFrame : Type := { columns : list string; rows : list (list cell) }.

Module Frame.

Definition mem_str (x : string) (l : list string) : bool :=
  existsb (String.eqb x) l.

(** [df.empty]: no column or no row. *)
Definition empty (df : DataFrame) : bool :=
  match columns df, rows df with
  | [], _ => true
  | _, [] => true
  | _ :: _, _ :: _ => false
  end.

(** [name in df.columns]. *)
Definition has_col (name : string) (df : DataFrame) : bool :=
  mem_str name (columns df).

(** The label occurs more than once: [df[name]] is then a [DataFrame], not
    a [Series]. *)
Definition repeated (name : string) (df : DataFrame) : bool :=
  Nat.ltb 1 (count_occ string_dec (columns df) name).

(** The cell of a row under a label (the first column of that name), when
    the row has one. *)
Fixpoint lookup (cols : list string) (name : string) (row : list cell)
    : option cell :=
  match cols, row with
  | c :: cols', v :: row' =>
      if String.eqb c name then Some v else lookup cols' name row'
  | _, _ => None
  end.

Definition get (cols : list string) (name : string) (row : list cell) : cell :=
  match lookup cols name row with
  | Some v => v
  | None => NA
  end.

(** [df[name]] as the list of its cells. *)
Definition column (name : string) (df : DataFrame) : list cell :=
  map (get (columns df) name) (rows df).

(** A row with the cells under [name] rewritten by [f]. *)
Fixpoint map_at (cols : list string) (name : string) (f : cell -> cell)
    (row : list cell) : list cell :=
  match cols, row with
  | c :: cols', v :: row' =>
      (if String.eqb c name then f v else v) :: map_at cols' name f row'
  | _, _ => row
  end.

(** [df[name] = df[name].map(f)], cell by cell. *)
Definition map_col (name : string) (f : cell -> cell) (df : DataFrame) : DataFrame :=
  {| columns := columns df;
     rows := map (map_at (columns df) name f) (rows df) |}.

(** [df[mask]] for a mask computed row by row. *)
Definition filter_rows (keep : list cell -> bool) (df : DataFrame) : DataFrame :=
  {| columns := columns df; rows := filter keep (rows df) |}.

Definition notna (c : cell) : bool :=
  match c with NA => false | _ => true end.

End Frame.

Import Frame.

(** [str.lower], [str.strip] and [re.sub(r"\s+", " ", s)] on texts. *)
Definition py_lower (s : string) : string := str_of (lower (chars_of s)).
Definition py_strip (s : string) : string := str_of (strip (chars_of s)).
Definition collapse_spaces (s : string) : string :=
  str_of (sub_runs is_space false (chars_of s)).

(* ===================================================================== *)
(** * Constants of [functions.py] *)
(* ===================================================================== *)

Definition MONTH_ORDER : list string :=
  ["January"; "February"; "March"; "April"; "May"; "June"; "July"; "August";
   "September"; "October"; "November"; "December"].

(** [PAGE_ROW_RE = re.compile(r"^\s*page\s*\d+", re.I)], matched at the
    start of the text as [re.match] does.  No character of a greedy
    [\s*] can start what follows it, so the scan never backtracks. *)
Fixpoint ci_prefix (w s : chars) : option chars :=
  match w, s with
  | [], _ => Some s
  | _ :: _, [] => None
  | a :: w', b :: s' =>
      if Ascii.eqb (lower_char a) (lower_char b) then ci_prefix w' s' else None
  end.

Definition PAGE_ROW_RE (s : string) : bool :=
  match ci_prefix (chars_of "page") (lstrip (chars_of s)) with
  | Some rest =>
      match lstrip rest with
      | d :: _ => is_digit d
      | [] => false
      end
  | None => false
  end.

(* ===================================================================== *)
(** * Standardisation *)
(* ===================================================================== *)

(** The decimal reading of a text made of digits, dots and minus signs: an
    optional leading minus, digits with at most one dot among them, and at
    least one digit.  This is what [pd.to_numeric] makes of such a text;
    [read_digits] returns the number read so far, how many digits it took
    and the rest of the text. *)
Definition digit_val (c : ascii) : Z := Z.of_N (code c) - 48.

Fixpoint read_digits (s : chars) (acc : Z) (n : nat) : Z * nat * chars :=
  match s with
  | c :: r => if is_digit c then read_digits r (10 * acc + digit_val c)%Z (S n)
              else (acc, n, s)
  | [] => (acc, n, s)
  end.

Definition read_unsigned (s : chars) : option Q :=
  let '(ip, n1, r1) := read_digits s 0%Z 0 in
  match r1 with
  | [] => if Nat.ltb 0 n1 then Some (inject_Z ip) else None
  | c :: r2 =>
      if Ascii.eqb c "."%char then
        let '(m, n, r3) := read_digits r2 ip 0 in
        match r3 with
        | [] => if Nat.ltb 0 (n1 + n)
                then Some (Qred (Qmake m (Z.to_pos (10 ^ Z.of_nat n))))
                else None
        | _ :: _ => None
        end
      else None
  end.

Definition read_decimal (s : string) : option Q :=
  match chars_of s with
  | c :: r => if Ascii.eqb c "-"%char
              then option_map (fun q => Qred (Qopp q)) (read_unsigned r)
              else read_unsigned (c :: r)
  | [] => None
  end.

Section Standardize.

(** [str(x)] of a number, as [astype(str)] prints it. *)
Variable float_repr : Q -> string.

(** The reading of one text by [pd.to_numeric]; [None] when the text is
    not a number. *)
Variable to_numeric_text : string -> option Q.

(** [str.title]. *)
Variable py_title : string -> string.

(** [.astype(str)] on one cell: a missing value prints as ["nan"]. *)
Definition astype_str (c : cell) : string :=
  match c with
  | NA => "nan"
  | Str s => s
  | Num q => float_repr q
  end.

(** [pd.to_numeric(..., errors="coerce")] on one cell. *)
Definition to_numeric (c : cell) : cell :=
  match c with
  | NA => NA
  | Num q => Num q
  | Str s => match to_numeric_text s with Some q => Num q | None => NA end
  end.

(** The schema field a lower-cased, trimmed label stands for: the
    [if]/[elif] chain that fills [mapping]. *)
Definition schema_field (lc : string) : option string :=
  if mem_str lc ["vendor"; "facility"; "provider"; "vendor_name"] then Some "vendor_name"
  else if mem_str lc ["claim"; "claims"] then Some "claims"
  else if mem_str lc ["amount"; "kes"; "ksh"] then Some "amount"
  else if mem_str lc ["report_month"; "month"] then Some "report_month"
  else if mem_str lc ["report_year"; "year"] then Some "report_year"
  else if mem_str lc ["schedule"; "batch"] then Some "schedule"
  else if mem_str lc ["county"] then Some "county"
  else if mem_str lc ["sub_county"; "subcounty"; "sub-county"] then Some "sub_county"
  else if mem_str lc ["latitude"; "lat"] then Some "latitude"
  else if mem_str lc ["longitude"; "lon"; "lng"] then Some "longitude"
  else None.

(** [df.rename(columns=mapping)] on one label: a label without an entry in
    [mapping] is left as it is. *)
Definition rename_label (c : string) : string :=
  match schema_field (py_strip (py_lower c)) with
  | Some field => field
  | None => c
  end.

Definition rename (df : DataFrame) : DataFrame :=
  {| columns := map rename_label (columns df); rows := rows df |}.

(** [.astype(str).str.replace(r"\s+", " ", regex=True).str.strip()]. *)
Definition vendor_cell (c : cell) : cell :=
  Str (py_strip (collapse_spaces (astype_str c))).

(** [[^\d.,-]]: the characters the amount keeps. *)
Definition amount_char (c : ascii) : bool :=
  is_digit c || Ascii.eqb c "."%char || Ascii.eqb c ","%char || Ascii.eqb c "-"%char.

Definition clean_amount (s : string) : string :=
  str_of (filter (fun c => negb (Ascii.eqb c ","%char))
            (filter amount_char (chars_of s))).

Definition amount_cell (c : cell) : cell :=
  to_numeric (Str (clean_amount (astype_str c))).

Definition month_cell (c : cell) : cell :=
  let t := py_title (astype_str c) in
  if mem_str t MONTH_ORDER then Str t else NA.

Definition county_cell (c : cell) : cell :=
  let t := py_strip (astype_str c) in
  if mem_str t [""; "nan"; "None"] then NA else Str t.

(** [.astype("Int64")] accepts the whole numbers and the missing values. *)
Definition integral (c : cell) : bool :=
  match c with
  | Num q => Pos.eqb (Qden (Qred q)) 1
  | _ => true
  end.

(** One column rewritten cell by cell, when it is there; [e] is what
    [out[name]] raises when the label is repeated. *)
Definition rewrite_col (e : exn) (name : string) (f : cell -> cell)
    (out : DataFrame) : result DataFrame :=
  if has_col name out then
    if repeated name out then Raise e else Ok (map_col name f out)
  else Ok out.

(** [pd.to_numeric(out[name], errors="coerce").astype("Int64")]. *)
Definition int64_col (name : string) (out : DataFrame) : result DataFrame :=
  if has_col name out then
    if repeated name out then Raise TypeError
    else if forallb (fun c => integral (to_numeric c)) (column name out)
         then Ok (map_col name to_numeric out)
         else Raise TypeError
  else Ok out.

(** [len(s) > 0] on a cell that is not missing. *)
Definition nonblank (c : cell) : bool :=
  match c with
  | Str s => negb (String.eqb s "")
  | _ => false
  end.

Definition drop_blank_vendors (out : DataFrame) : DataFrame :=
  if has_col "vendor_name" out
  then filter_rows (fun r => notna (get (columns out) "vendor_name" r)
                             && nonblank (get (columns out) "vendor_name" r)) out
  else out.

Definition standardize (df : DataFrame) : result DataFrame :=
  if empty df then Ok df
  else
    out <- rewrite_col AttributeError "vendor_name" vendor_cell (rename df) ;;
    out <- rewrite_col AttributeError "amount" amount_cell out ;;
    out <- int64_col "report_year" out ;;
    out <- rewrite_col AttributeError "report_month" month_cell out ;;
    out <- int64_col "schedule" out ;;
    out <- rewrite_col AttributeError "county" county_cell out ;;
    out <- rewrite_col AttributeError "sub_county" county_cell out ;;
    out <- rewrite_col TypeError "latitude" to_numeric out ;;
    out <- rewrite_col TypeError "longitude" to_numeric out ;;
    Ok (drop_blank_vendors out).

(** [remove_page_rows]. *)
Definition remove_page_rows (df : DataFrame) : result DataFrame :=
  if negb (has_col "vendor_name" df) || empty df then Ok df
  else if repeated "vendor_name" df then Raise AttributeError
  else Ok (filter_rows
             (fun r => negb (PAGE_ROW_RE
                               (astype_str (get (columns df) "vendor_name" r))))
             df).

End Standardize.

(* ===================================================================== *)
(** * Registry and enrichment *)
(* ===================================================================== *)

(** The attributes a registry entity brings ([key_cols]). *)
Record Attrs : Type := {
  facility_id : cell;
  official_name : cell;
  name : cell;
  county : cell;
  sub_county : cell;
  facility_type : cell;
  keph_level : cell
}.

(** A row of the registry: its canonical key and its attributes.  The key
    is a text, as [load_registry] computes it with [_clean_name]. *)
Record Entity : Type := { facility_name_clean : string; attrs : Attrs }.

Definition null_attrs : Attrs :=
  {| facility_id := NA; official_name := NA; name := NA; county := NA;
     sub_county := NA; facility_type := NA; keph_level := NA |}.

(** What the seven [key_cols] of a row of the enriched table hold: the
    attributes the merge has put there, one per column, or, in every one
    of the seven columns, the dictionary of the attributes of an entity.
    The latter is what [exact.loc[mask, key_cols] = ...] writes when it is
    given a series of dictionaries (pandas 2). *)
Inductive KeyCells : Type :=
| Merged (a : Attrs)
| Dicts (a : Attrs).

Coercion Merged : Attrs >-> KeyCells.

(** A row of the enriched table: the cells of the disbursement row it comes
    from, what its [key_cols] hold and its [match_score].  The labels the
    merge gives to the added columns are not modelled. *)
Record EnrichedRow : Type := {
  source : list cell;
  registry : KeyCells;
  match_score : cell
}.

Inductive Enrichment : Type :=
| Unchanged (df : DataFrame)
| Enriched (cols : list string) (out : list EnrichedRow).

(** [score_cutoff: int = 92]: the cutoff of a call is the argument when
    one is given, and 92 otherwise. *)
Definition DEFAULT_SCORE_CUTOFF : Z := 92.

Definition cutoff_of (score_cutoff : option Z) : Z :=
  match score_cutoff with
  | Some c => c
  | None => DEFAULT_SCORE_CUTOFF
  end.

Section Enrich.

Variable nfkd_ascii : string -> string.
Variable float_repr : Q -> string.

(** [rapidfuzz.fuzz.token_sort_ratio]. *)
Variable token_sort_ratio : string -> string -> Q.

(** Whether [rapidfuzz] could be imported. *)
Variable HAVE_RAPIDFUZZ : bool.

(** [work["vendor_clean"]]: [_clean_name] of the cell, which [str()] prints
    first. *)
Definition vendor_clean (cols : list string) (row : list cell) : string :=
  _clean_name nfkd_ascii (Some (astype_str float_repr (get cols "vendor_name" row))).

Definition key_is (q : string) (e : Entity) : bool :=
  String.eqb q (facility_name_clean e).

(** The left merge on [vendor_clean == facility_name_clean], for one row:
    one output row per registry row of that key, in registry order, and one
    row of missing attributes when there is none. *)
Definition exact_rows (reg : list Entity) (cols : list string)
    (row : list cell) : list EnrichedRow :=
  match filter (key_is (vendor_clean cols row)) reg with
  | [] => [ {| source := row; registry := null_attrs; match_score := NA |} ]
  | e :: es =>
      map (fun e => {| source := row; registry := attrs e; match_score := NA |})
        (e :: es)
  end.

Definition exact_join (reg : list Entity) (df : DataFrame) : list EnrichedRow :=
  flat_map (exact_rows reg (columns df)) (rows df).

Definition Qlt_bool (a b : Q) : bool := negb (Qle_bool b a).

(** [process.extractOne(q, choices, scorer=..., score_cutoff=...)]: the
    choice of highest score among those that reach the cutoff, the first
    one when several tie; [best] is the result so far. *)
Fixpoint extractOne (q : string) (choices : list string) (score_cutoff : Z)
    (best : option (string * Q)) : option (string * Q) :=
  match choices with
  | [] => best
  | c :: cs =>
      let s := token_sort_ratio q c in
      let better := match best with
                    | None => true
                    | Some (_, b) => Qlt_bool b s
                    end in
      extractOne q cs score_cutoff
        (if Qle_bool (inject_Z score_cutoff) s && better then Some (c, s) else best)
  end.

Definition best_match (choices : list string) (score_cutoff : Z) (q : string)
    : option string * Q :=
  if String.eqb q "" then (None, 0%Q)
  else match extractOne q choices score_cutoff None with
       | None => (None, 0%Q)
       | Some (k, s) => (Some k, s)
       end.

(** [reg.set_index("facility_name_clean")[key_cols].to_dict("index")],
    read at one key. *)
Definition reg_take (reg : list Entity) (k : string) : option Attrs :=
  option_map attrs (find (key_is k) reg).

(** [exact["facility_id"].isna()] on one row; a dictionary is not a
    missing value. *)
Definition unresolved (r : EnrichedRow) : bool :=
  match registry r with
  | Merged a => negb (notna (facility_id a))
  | Dicts _ => false
  end.

(** The fuzzy pass on one row of the merge: an unresolved row gets its
    [match_score]; when it has a [match_key], the value of
    [matches.map(reg_take)] for the row, the dictionary [reg_take] holds
    under that key, is written into each of its [key_cols] (a key that
    [reg_take] does not have gives a missing value). *)
Definition fuzzy_row (reg : list Entity) (cols : list string) (score_cutoff : Z)
    (r : EnrichedRow) : EnrichedRow :=
  if unresolved r then
    match best_match (map facility_name_clean reg) score_cutoff
            (vendor_clean cols (source r)) with
    | (Some k, s) =>
        {| source := source r;
           registry := match reg_take reg k with
                       | Some a => Dicts a
                       | None => Merged null_attrs
                       end;
           match_score := Num s |}
    | (None, s) =>
        {| source := source r; registry := registry r; match_score := Num s |}
    end
  else r.

Fixpoint unique (l : list string) : bool :=
  match l with
  | [] => true
  | x :: r => negb (mem_str x r) && unique r
  end.

Definition is_nil {A} (l : list A) : bool :=
  match l with [] => true | _ :: _ => false end.

(** [enrich_with_registry].  [to_dict("index")] raises [ValueError] when
    two registry rows have the same key; assigning the cleaned names of a
    repeated [vendor_name] label raises as well. *)
Definition enrich_with_registry (df : DataFrame) (reg : list Entity)
    (fuzzy : bool) (score_cutoff : Z) : result Enrichment :=
  if empty df || is_nil reg || negb (has_col "vendor_name" df)
  then Ok (Unchanged df)
  else if repeated "vendor_name" df then Raise ValueError
  else
    let exact := exact_join reg df in
    if negb fuzzy || negb HAVE_RAPIDFUZZ then Ok (Enriched (columns df) exact)
    else if existsb unresolved exact then
      if unique (map facility_name_clean reg)
      then Ok (Enriched (columns df)
                 (map (fuzzy_row reg (columns df) score_cutoff) exact))
      else Raise ValueError
    else Ok (Enriched (columns df) exact).

End Enrich.

(* ===================================================================== *)
(** * Filters and aggregates *)
(* ===================================================================== *)

Record Totals : Type := {
  total_amount : Q;
  total_facilities : nat;
  total_claims : nat;
  total_rows : nat
}.

Definition is_str (c : cell) : bool :=
  match c with Str _ => true | _ => false end.

Definition cell_eqb (a b : cell) : bool :=
  match a, b with
  | NA, NA => true
  | Str s, Str t => String.eqb s t
  | Num p, Num q => Qeq_bool p q
  | _, _ => false
  end.

(** The distinct values of a column, in order of first appearance. *)
Fixpoint distinct (l : list cell) : list cell :=
  match l with
  | [] => []
  | c :: r => c :: filter (fun d => negb (cell_eqb c d)) (distinct r)
  end.

(** [Series.nunique()]: the distinct values that are not missing. *)
Definition nunique (col : list cell) : nat :=
  List.length (distinct (filter notna col)).

(** The amount of a cell, a missing one counting for zero: the sum of a
    column fills its missing values with 0. *)
Definition amount_or_zero (c : cell) : Q :=
  match c with Num q => q | _ => 0%Q end.

Section FiltersAggregates.

Variable py_title : string -> string.

(** [float(text)]. *)
Variable py_float : string -> option Q.

(** [float(col.sum(skipna=True))] for a column of numbers and missing
    values, from its values with the missing ones filled with 0.  The
    additions are those of the dtype of the column, which is not
    modelled: on [float64] they round, on [int64] they wrap around. *)
Variable np_sum : list Q -> Q.

(** An optional list argument is used when it is neither [None] nor
    empty. *)
Definition truthy {A} (o : option (list A)) : bool :=
  match o with Some (_ :: _) => true | _ => false end.

Definition items {A} (o : option (list A)) : list A :=
  match o with Some l => l | None => [] end.

(** The [.str] accessor is refused on a column that holds no text (a
    numeric column), unless it is empty. *)
Definition str_accessor_ok (col : list cell) : bool :=
  is_nil col || existsb is_str col.

Definition vendor_keep (vset : list string) (c : cell) : bool :=
  match c with
  | Str s => mem_str (py_lower s) vset
  | _ => false
  end.

Definition month_keep (mset : list string) (c : cell) : bool :=
  match c with
  | Str m => mem_str m mset
  | _ => false
  end.

Definition year_keep (years : list Z) (c : cell) : bool :=
  match c with
  | Num q => existsb (fun y => Qeq_bool q (inject_Z y)) years
  | _ => false
  end.

(** [filter_data].  The column labels are taken to be distinct, as
    [read_csv] makes them; only [out["vendor_name"].str] is modelled on a
    repeated label, where it raises. *)
Definition filter_data (df : DataFrame) (vendors months : option (list string))
    (years : option (list Z)) : result DataFrame :=
  out <- (if truthy vendors && has_col "vendor_name" df then
            if repeated "vendor_name" df then Raise AttributeError
            else if str_accessor_ok (column "vendor_name" df) then
              let vset := map (fun v => py_strip (py_lower v)) (items vendors) in
              Ok (filter_rows
                    (fun r => vendor_keep vset (get (columns df) "vendor_name" r)) df)
            else Raise AttributeError
          else Ok df) ;;
  let out :=
    if truthy months && has_col "report_month" out then
      let mset := map py_title (items months) in
      filter_rows (fun r => month_keep mset (get (columns out) "report_month" r)) out
    else out in
  let out :=
    if truthy years && has_col "report_year" out then
      filter_rows
        (fun r => year_keep (items years) (get (columns out) "report_year" r)) out
    else out in
  Ok out.

Definition text_of (c : cell) : string :=
  match c with Str s => s | _ => "" end.

(** [float(col.sum(skipna=True))]: numbers are added by [np_sum], the
    missing values counting for 0; a column of texts only is concatenated
    and the result read by [float]; texts mixed with anything else cannot
    be added. *)
Definition sum_skipna (col : list cell) : result Q :=
  if existsb is_str col then
    if forallb is_str col then
      match py_float (String.concat "" (map text_of col)) with
      | Some q => Ok q
      | None => Raise ValueError
      end
    else Raise TypeError
  else Ok (np_sum (map amount_or_zero col)).

(** [totals]. *)
Definition totals (df : DataFrame) : result Totals :=
  amount <- (if has_col "amount" df then
               if repeated "amount" df then Raise TypeError
               else sum_skipna (column "amount" df)
             else Ok 0%Q) ;;
  facilities <- (if has_col "vendor_name" df then
                   if repeated "vendor_name" df then Raise TypeError
                   else Ok (nunique (column "vendor_name" df))
                 else Ok 0) ;;
  Ok {| total_amount := amount;
        total_facilities := facilities;
        total_claims := 0;
        total_rows := List.length (rows df) |}.

End FiltersAggregates.

(* ===================================================================== *)
(** * Loading *)
(* ===================================================================== *)

(** A row without the cells under the labels [names]. *)
Fixpoint drop_at (cols names : list string) (row : list cell) : list cell :=
  match cols, row with
  | c :: cols', v :: row' =>
      if mem_str c names then drop_at cols' names row'
      else v :: drop_at cols' names row'
  | _, _ => row
  end.

(** [df.drop(columns=names)]. *)
Definition drop_columns (names : list string) (df : DataFrame) : DataFrame :=
  {| columns := filter (fun c => negb (mem_str c names)) (columns df);
     rows := map (drop_at (columns df) names) (rows df) |}.

(** [drop_redundant_columns]. *)
Definition drop_redundant_columns (df : DataFrame) : DataFrame :=
  let drop_cols := filter (fun c => has_col c df) ["claims"; "claims_numeric"] in
  if is_nil drop_cols then df else drop_columns drop_cols df.

Section Load.

Variable float_repr : Q -> string.
Variable to_numeric_text : string -> option Q.
Variable py_title : string -> string.

(** [load_data], from the table [pd.read_csv] has read (a missing file
    raises before anything is read). *)
Definition load_data (df : DataFrame) : result DataFrame :=
  df <- standardize float_repr to_numeric_text py_title df ;;
  df <- remove_page_rows float_repr df ;;
  Ok (drop_redundant_columns df).

End Load.

(* ===================================================================== *)
(** * The filter options *)
(* ===================================================================== *)

(** [sorted]: the stable sort of a list by the order of its elements. *)
Section Sorted.

Context {A : Type} (leb : A -> A -> bool).

Fixpoint insort (x : A) (l : list A) : list A :=
  match l with
  | [] => [x]
  | y :: r => if leb x y then x :: l else y :: insort x r
  end.

Definition sorted (l : list A) : list A := fold_right insort [] l.

End Sorted.

(** The elements of a list of texts, and of a list of numbers. *)
Fixpoint texts (l : list cell) : option (list string) :=
  match l with
  | [] => Some []
  | Str s :: r => option_map (cons s) (texts r)
  | _ :: _ => None
  end.

Fixpoint numbers (l : list cell) : option (list Q) :=
  match l with
  | [] => Some []
  | Num q :: r => option_map (cons q) (numbers r)
  | _ :: _ => None
  end.

(** [sorted] on values of a column without missing values: texts are
    compared by code points, numbers by value, and a text cannot be
    compared with a number. *)
Definition sorted_cells (l : list cell) : result (list cell) :=
  match texts l with
  | Some ts => Ok (map Str (sorted String.leb ts))
  | None =>
      match numbers l with
      | Some qs => Ok (map Num (sorted Qle_bool qs))
      | None => Raise TypeError
      end
  end.

Fixpoint map_result {A B} (f : A -> result B) (l : list A) : result (list B) :=
  match l with
  | [] => Ok []
  | x :: r => y <- f x ;; ys <- map_result f r ;; Ok (y :: ys)
  end.

(** The result of [available_filters]. *)
Record Filters : Type := {
  vendors : list cell;
  months : list string;
  years : list Z
}.

Section AvailableFilters.

(** [int(text)]. *)
Variable py_int : string -> option Z.

(** [.astype(int)] on one value: a number is truncated toward zero. *)
Definition astype_int (c : cell) : result Z :=
  match c with
  | Num q => Ok (Z.quot (Qnum q) (Zpos (Qden q)))
  | Str s => match py_int s with Some z => Ok z | None => Raise ValueError end
  | NA => Raise ValueError
  end.

(** [col.dropna().unique().tolist()]. *)
Definition dropna_unique (col : list cell) : list cell :=
  distinct (filter notna col).

(** [available_filters].  On a repeated label [df[name]] is a table,
    which has no [unique] and whose comparison with a month has no truth
    value. *)
Definition available_filters (df : DataFrame) : result Filters :=
  vs <- (if has_col "vendor_name" df then
           if repeated "vendor_name" df then Raise AttributeError
           else sorted_cells (dropna_unique (column "vendor_name" df))
         else Ok []) ;;
  ms <- (if has_col "report_month" df then
           if repeated "report_month" df then Raise ValueError
           else Ok (filter (fun m => existsb (cell_eqb (Str m))
                                       (column "report_month" df))
                      MONTH_ORDER)
         else Ok []) ;;
  ys <- (if has_col "report_year" df then
           if repeated "report_year" df then Raise AttributeError
           else ys <- map_result astype_int
                        (dropna_unique (column "report_year" df)) ;;
                Ok (sorted Z.leb ys)
         else Ok []) ;;
  Ok {| vendors := vs; months := ms; years := ys |}.

End AvailableFilters.

(* ===================================================================== *)
(** * Loading the registry *)
(* ===================================================================== *)

(** The columns of the registry [load_registry] returns when there is no
    file. *)
Definition REGISTRY_COLUMNS : list string :=
  ["facility_id"; "official_name"; "name"; "county"; "sub_county";
   "facility_type"; "keph_level"; "facility_name_clean"].

(** [a.fillna(b)] on one cell. *)
Definition fillna (a b : cell) : cell :=
  match a with NA => b | _ => a end.

(** [df[name] = ...] for a label the table does not have: a new last
    column, computed row by row. *)
Definition add_column (name : string) (f : list cell -> cell) (df : DataFrame)
    : DataFrame :=
  {| columns := columns df ++ [name];
     rows := map (fun r => r ++ [f r]) (rows df) |}.

Section Registry.

Variable nfkd_ascii : string -> string.
Variable float_repr : Q -> string.

(** [reg["official_name"].fillna(reg["name"]).map(_clean_name)] on one
    row; a value [read_csv] has left missing is [NaN], which [str] prints
    as ["nan"]. *)
Definition registry_key (cols : list string) (r : list cell) : cell :=
  Str (_clean_name nfkd_ascii
         (Some (astype_str float_repr
                  (fillna (get cols "official_name" r) (get cols "name" r))))).

(** [load_registry], from the table [pd.read_csv] reads when the file is
    there ([None] when it is not).  [read_csv] gives distinct labels. *)
Definition load_registry (file : option DataFrame) : result DataFrame :=
  match file with
  | None => Ok {| columns := REGISTRY_COLUMNS; rows := [] |}
  | Some reg =>
      if has_col "facility_name_clean" reg then Ok reg
      else if has_col "official_name" reg && has_col "name" reg
           then Ok (add_column "facility_name_clean"
                      (registry_key (columns reg)) reg)
           else Raise KeyError
  end.

End Registry.

(** A row of [reg[["facility_name_clean"] + key_cols]], for a registry
    whose keys are texts, as [load_registry] computes them. *)
Definition entity (cols : list string) (r : list cell) : Entity :=
  {| facility_name_clean := text_of (get cols "facility_name_clean" r);
     attrs := {| facility_id := get cols "facility_id" r;
                 official_name := get cols "official_name" r;
                 name := get cols "name" r;
                 county := get cols "county" r;
                 sub_county := get cols "sub_county" r;
                 facility_type := get cols "facility_type" r;
                 keph_level := get cols "keph_level" r |} |}.

Definition entities (reg : DataFrame) : list Entity :=
  map (entity (columns reg)) (rows reg).

(* ===================================================================== *)
(** * The top vendors *)
(* ===================================================================== *)

Definition texts_in (l : list cell) : list string :=
  flat_map (fun c => match c with Str s => [s] | _ => [] end) l.

Definition numbers_in (l : list cell) : list Q :=
  flat_map (fun c => match c with Num q => [q] | _ => [] end) l.

(** The keys of [groupby("vendor_name", dropna=False)], in the order of
    the groups: the distinct values sorted, numbers before texts, the
    missing value last. *)
Definition group_keys (col : list cell) : list cell :=
  let u := distinct col in
  map Num (sorted Qle_bool (numbers_in u))
  ++ map Str (sorted String.leb (texts_in u))
  ++ filter (fun c => negb (notna c)) u.

(** The amount cells of the rows of one vendor. *)
Definition group_amounts (df : DataFrame) (key : cell) : list cell :=
  map (get (columns df) "amount")
    (filter (fun r => cell_eqb key (get (columns df) "vendor_name" r)) (rows df)).

Section GroupSum.

(** The sum [groupby(...).sum()] computes of the numbers of a group, in
    their order (0 for none).  The additions are those of the dtype of the
    column, which is not modelled: on [float64] they round, on [int64]
    they wrap around. *)
Variable groupby_sum : list Q -> Q.

(** The sum of a group: missing values are skipped; numbers are added by
    [groupby_sum]; texts are concatenated; a text and a number cannot be
    added. *)
Definition group_sum (vals : list cell) : result cell :=
  if existsb is_str vals then
    if forallb (fun c => is_str c || negb (notna c)) vals
    then Ok (Str (String.concat "" (texts_in vals)))
    else Raise TypeError
  else Ok (Num (groupby_sum (numbers_in vals))).

End GroupSum.

(** [.head(k)]: the first [k] rows, all but the last [-k] when [k] is
    negative. *)
Definition head {A} (k : Z) (l : list A) : list A :=
  if (0 <=? k)%Z then firstn (Z.to_nat k) l
  else firstn (List.length l - Z.to_nat (- k)) l.

Section TopVendors.

(** [grp.sort_values("amount", ascending=False)] on the pairs of a vendor
    and its sum, when the sums can be compared.  The order it gives to
    rows of equal amount is that of numpy's sort. *)
Variable sort_values_desc : list (cell * cell) -> list (cell * cell).

(** The additions of [groupby(...).sum()]. *)
Variable groupby_sum : list Q -> Q.

(** [top_vendors].  The column labels are taken to be distinct, as
    [read_csv] makes them; of a repeated label only the refusal of
    [groupby] to group by it is modelled. *)
Definition top_vendors (df : DataFrame) (k : Z) : result DataFrame :=
  if empty df || negb (has_col "vendor_name" df) || negb (has_col "amount" df)
  then Ok {| columns := ["vendor_name"; "amount"]; rows := [] |}
  else if repeated "vendor_name" df then Raise ValueError
  else
    grp <- map_result
             (fun key => s <- group_sum groupby_sum (group_amounts df key) ;;
                         Ok (key, s))
             (group_keys (column "vendor_name" df)) ;;
    if existsb is_str (map snd grp) && negb (forallb is_str (map snd grp))
    then Raise TypeError
    else Ok {| columns := ["vendor_name"; "amount"];
               rows := map (fun p => [fst p; snd p])
                         (head k (sort_values_desc grp)) |}.

End TopVendors.

(* ===================================================================== *)
(** * File names of the reports ([parse_pdf.py]) *)
(* ===================================================================== *)

(** The alternation of the month pattern, in the order it is written. *)
Definition MONTH_WORDS : list chars :=
  map chars_of
    ["JANUARY"; "FEBRUARY"; "MARCH"; "APRIL"; "MAY"; "JUNE"; "JULY"; "AUGUST";
     "SEPTEMBER"; "OCTOBER"; "NOVEMBER"; "DECEMBER"].

(** The first alternative that matches at the head of [s]. *)
Fixpoint alt_at (ws : list chars) (s : chars) : option chars :=
  match ws with
  | [] => None
  | w :: ws' =>
      match strip_prefix w s with
      | Some _ => Some w
      | None => alt_at ws' s
      end
  end.

(** [re.search(r"(w1|w2|...)", s)]: the leftmost match. *)
Fixpoint search_alt (ws : list chars) (s : chars) : option chars :=
  match alt_at ws s with
  | Some w => Some w
  | None =>
      match s with
      | [] => None
      | _ :: r => search_alt ws r
      end
  end.

(** [str.title] on a word of ASCII capitals: the first one stays. *)
Definition title_word (w : chars) : chars :=
  match w with
  | [] => []
  | c :: r => c :: lower r
  end.

(** [n] digits at the head of [s]. *)
Fixpoint take_digits (n : nat) (s : chars) : option chars :=
  match n with
  | O => Some []
  | S n' =>
      match s with
      | c :: r => if is_digit c then option_map (cons c) (take_digits n' r) else None
      | [] => None
      end
  end.

(** [re.search(r"(\d{4})", s)]: the leftmost four digits in a row. *)
Fixpoint search_year (s : chars) : option chars :=
  match take_digits 4 s with
  | Some d => Some d
  | None =>
      match s with
      | [] => None
      | _ :: r => search_year r
      end
  end.

(** [int] of a text of digits. *)
Definition int_of_digits (d : chars) : Z :=
  fold_left (fun acc c => (10 * acc + digit_val c)%Z) d 0%Z.

(** The maximal runs of digits of [s], in order; [run] holds the digits of
    the current run, last first. *)
Fixpoint digit_runs (run : chars) (s : chars) : list chars :=
  match s with
  | [] => match run with [] => [] | _ :: _ => [rev run] end
  | c :: r =>
      if is_digit c then digit_runs (c :: run) r
      else match run with
           | [] => digit_runs [] r
           | _ :: _ => rev run :: digit_runs [] r
           end
  end.

(** [re.findall(r"(?<!\d)(\d{1,2})(?!\d)", s)] as numbers: a match can
    neither start nor stop inside a run of digits, so the matches are the
    maximal runs of one or two digits. *)
Definition small_numbers (s : chars) : list Z :=
  map int_of_digits
    (filter (fun d => Nat.leb (List.length d) 2) (digit_runs [] s)).

(** [l[-1]], when [l] is not empty. *)
Fixpoint last_item (l : list Z) : option Z :=
  match l with
  | [] => None
  | [x] => Some x
  | _ :: r => last_item r
  end.

(** The outcome of [parse_filename_meta]: the tuple it returns, or the
    [IndexError] of [nums[-1]]. *)
Inductive FilenameMeta : Type :=
| Meta (month_name : option string) (year : option Z) (schedule : Z)
| IndexError.

Section FilenameMeta.

(** [str.upper]. *)
Variable py_upper : string -> string.

Definition kept_numbers (year : option Z) (nums : list Z) : list Z :=
  match year with
  | Some y =>
      if Z.eqb y 0 then nums
      else filter (fun n => negb (Z.eqb n y) && negb (Z.eqb n (y mod 100))) nums
  | None => nums
  end.

(** [parse_filename_meta], from the stem of the path. *)
Definition parse_filename_meta (stem : string) : FilenameMeta :=
  let s := chars_of (py_upper stem) in
  let month_name :=
    option_map (fun w => str_of (title_word w)) (search_alt MONTH_WORDS s) in
  let year := option_map int_of_digits (search_year s) in
  match small_numbers s with
  | [] => Meta month_name year 1
  | n :: ns =>
      let nums := kept_numbers year (n :: ns) in
      let small := filter (fun n => (1 <=? n)%Z && (n <=? 24)%Z) nums in
      match last_item small with
      | Some x => Meta month_name year x
      | None =>
          match last_item nums with
          | Some x => Meta month_name year x
          | None => IndexError
          end
      end
  end.

End FilenameMeta.

(* ===================================================================== *)
(** * Properties *)
(* ===================================================================== *)

(** ** Scanning lemmas *)

Lemma sub_runs_skip p g r :
  Forall (fun c => p c = true) g ->
  sub_runs p true (g ++ r) = sub_runs p true r.
Proof.
  induction 1 as [|c g Hc _ IH]; simpl; [reflexivity|].
  now rewrite Hc.
Qed.

Lemma sub_runs_gap p g r :
  Forall (fun c => p c = true) g -> g <> [] ->
  sub_runs p false (g ++ r) = space :: sub_runs p true r.
Proof.
  intros Hg Hne. destruct g as [|c g]; [congruence|].
  inversion Hg as [|? ? Hc Hg']; subst. simpl. rewrite Hc.
  now rewrite sub_runs_skip.
Qed.

Lemma sub_runs_keep p b t r :
  Forall (fun c => p c = false) t -> t <> [] ->
  sub_runs p b (t ++ r) = t ++ sub_runs p false r.
Proof.
  intros Ht. revert b. induction Ht as [|c t Hc Ht IH]; intros b Hne; [congruence|].
  simpl. rewrite Hc. f_equal.
  destruct t as [|d t]; [reflexivity|].
  apply IH. discriminate.
Qed.

Lemma lstrip_spaces g r :
  Forall (fun c => is_space c = true) g -> lstrip (g ++ r) = lstrip r.
Proof.
  induction 1 as [|c g Hc _ IH]; simpl; [reflexivity|]. now rewrite Hc.
Qed.

Lemma lstrip_nonspace c r : is_space c = false -> lstrip (c :: r) = c :: r.
Proof. intros H. simpl. now rewrite H. Qed.

(** ** Tokens and layouts *)

Definition tokP (t : chars) : Prop :=
  t <> [] /\ Forall (fun c => is_az09 c = true) t.

(** A text laid out as tokens, each followed by its gap. *)
Fixpoint body (l : list (chars * chars)) : chars :=
  match l with
  | [] => []
  | (t, g) :: l' => t ++ g ++ body l'
  end.

Fixpoint valid (P : ascii -> Prop) (l : list (chars * chars)) : Prop :=
  match l with
  | [] => True
  | (t, g) :: l' => tokP t /\ Forall P g /\ (g = [] -> l' = []) /\ valid P l'
  end.

Definition sepc (c : ascii) : bool := negb (is_az09 c).

Lemma layout_exists (s : chars) :
  exists g0 l, s = g0 ++ body l
               /\ Forall (fun c => sepc c = true) g0
               /\ valid (fun c => sepc c = true) l.
Proof.
  induction s as [|c r (g0 & l & -> & Hg0 & Hl)].
  - exists [], []. simpl. auto.
  - destruct (is_az09 c) eqn:Hc.
    + destruct g0 as [|d g0].
      * destruct l as [|[t g] l].
        -- exists [], [([c], [])]. simpl. repeat split; auto. discriminate.
        -- exists [], ((c :: t, g) :: l). simpl in *.
           destruct Hl as ((Hne & Ht) & Hg & Hlast & Hl).
           repeat split; auto. discriminate.
      * exists [], (([c], d :: g0) :: l). simpl.
        repeat split; auto; discriminate.
    + exists (c :: g0), l. simpl. repeat split; auto.
      constructor; auto. unfold sepc. now rewrite Hc.
Qed.

(** ** First step: runs of other characters become one space *)

Definition squeeze (g : chars) : chars :=
  match g with [] => [] | _ :: _ => [space] end.

Definition squeeze_gap (tg : chars * chars) : chars * chars :=
  (fst tg, squeeze (snd tg)).

Lemma az09_not_sepc t :
  Forall (fun c => is_az09 c = true) t -> Forall (fun c => sepc c = false) t.
Proof.
  intros H. eapply Forall_impl; [|exact H].
  intros c Hc. unfold sepc. now rewrite Hc.
Qed.

Lemma sub_runs_body l b :
  valid (fun c => sepc c = true) l ->
  sub_runs sepc b (body l) = body (map squeeze_gap l).
Proof.
  revert b. induction l as [|[t g] l IH]; intros b Hl; [reflexivity|].
  destruct Hl as ((Hne & Ht) & Hg & Hlast & Hl). simpl.
  rewrite sub_runs_keep by (auto using az09_not_sepc). f_equal.
  destruct g as [|d g].
  - rewrite (Hlast eq_refl). reflexivity.
  - rewrite sub_runs_gap by (auto; discriminate). simpl. f_equal. now apply IH.
Qed.

Lemma sub_runs_layout g0 l :
  Forall (fun c => sepc c = true) g0 ->
  valid (fun c => sepc c = true) l ->
  sub_runs sepc false (g0 ++ body l) = squeeze g0 ++ body (map squeeze_gap l).
Proof.
  intros Hg0 Hl. destruct g0 as [|d g0].
  - simpl. now apply sub_runs_body.
  - rewrite sub_runs_gap by (auto; discriminate). simpl. f_equal.
    now apply sub_runs_body.
Qed.

Lemma squeeze_spaces g : Forall (eq space) (squeeze g).
Proof. destruct g; simpl; auto. Qed.

Lemma valid_squeeze l :
  valid (fun c => sepc c = true) l -> valid (eq space) (map squeeze_gap l).
Proof.
  induction l as [|[t g] l IH]; simpl; [auto|].
  intros (Ht & Hg & Hlast & Hl). repeat split; auto using squeeze_spaces.
  - apply Ht.
  - apply Ht.
  - intros Hs. destruct g; [|discriminate]. now rewrite (Hlast eq_refl).
Qed.

Lemma map_fst_squeeze l : map fst (map squeeze_gap l) = map fst l.
Proof. rewrite map_map. apply map_ext. now intros [t g]. Qed.

(** ** Second step: whole stop words become one space *)

Definition chars_dec : forall a b : chars, {a = b} + {a <> b} :=
  list_eq_dec ascii_dec.

Definition in_words (ws : list chars) (t : chars) : bool :=
  if in_dec chars_dec t ws then true else false.

Definition replace_word (ws : list chars) (tg : chars * chars) : chars * chars :=
  (if in_words ws (fst tg) then [space] else fst tg, snd tg).

Lemma az09_word c : is_az09 c = true -> is_word c = true.
Proof.
  destruct c as [[] [] [] [] [] [] [] []]; vm_compute; intros H;
    solve [reflexivity | discriminate H].
Qed.

Lemma az09_not_space c : is_az09 c = true -> is_space c = false.
Proof.
  destruct c as [[] [] [] [] [] [] [] []]; vm_compute; intros H;
    solve [reflexivity | discriminate H].
Qed.

Lemma az09_all_word t :
  Forall (fun c => is_az09 c = true) t -> Forall (fun c => is_word c = true) t.
Proof. intros H. eapply Forall_impl; [|exact H]. apply az09_word. Qed.

Lemma strip_prefix_self t r : strip_prefix t (t ++ r) = Some r.
Proof.
  induction t as [|c t IH]; simpl; [reflexivity|].
  now rewrite Ascii.eqb_refl.
Qed.

Lemma strip_prefix_token w : forall t rest r',
  Forall (fun c => is_word c = true) w ->
  Forall (fun c => is_word c = true) t ->
  boundary_after rest = true ->
  strip_prefix w (t ++ rest) = Some r' ->
  boundary_after r' = true ->
  w = t.
Proof.
  induction w as [|a w IH]; intros t rest r' Hw Ht Hrest Hs Hr'.
  - simpl in Hs. injection Hs as <-.
    destruct t as [|b t]; [reflexivity|].
    inversion Ht as [|? ? Hb _]; subst. simpl in Hr'. now rewrite Hb in Hr'.
  - inversion Hw as [|? ? Ha Hw']; subst.
    destruct t as [|b t]; simpl in Hs.
    + destruct rest as [|b rest]; [discriminate|].
      destruct (Ascii.eqb a b) eqn:E; [|discriminate].
      apply Ascii.eqb_eq in E. subst b. simpl in Hrest. now rewrite Ha in Hrest.
    + destruct (Ascii.eqb a b) eqn:E; [|discriminate].
      apply Ascii.eqb_eq in E. subst b.
      inversion Ht as [|? ? Hb Ht']; subst. f_equal.
      apply (IH t rest r'); assumption.
Qed.

Lemma first_alt_token ws t rest :
  Forall (Forall (fun c => is_word c = true)) ws ->
  Forall (fun c => is_word c = true) t ->
  boundary_after rest = true ->
  first_alt ws (t ++ rest) = if in_words ws t then Some t else None.
Proof.
  unfold in_words.
  intros Hws Ht Hrest. induction Hws as [|w ws Hw Hws IH]; [reflexivity|].
  cbn [first_alt].
  destruct (chars_dec w t) as [->|Hne].
  - rewrite strip_prefix_self, Hrest.
    destruct (in_dec chars_dec t (t :: ws)) as [_|n]; [reflexivity|].
    exfalso. apply n. now left.
  - assert (Hskip : first_alt (w :: ws) (t ++ rest) = first_alt ws (t ++ rest)).
    { cbn [first_alt].
      destruct (strip_prefix w (t ++ rest)) as [r'|] eqn:Hs; [|reflexivity].
      destruct (boundary_after r') eqn:Hb; [|reflexivity].
      exfalso. apply Hne.
      apply (strip_prefix_token w t rest r'); assumption. }
    cbn [first_alt] in Hskip. rewrite Hskip, IH.
    destruct (in_dec chars_dec t ws) as [i|n];
      destruct (in_dec chars_dec t (w :: ws)) as [i'|n']; try reflexivity.
    + exfalso. apply n'. now right.
    + exfalso. destruct i' as [E|i']; [now apply Hne|now apply n].
Qed.

Section SubWords.

Variable ws : list chars.
Hypothesis ws_word : Forall (Forall (fun c => is_word c = true)) ws.
Hypothesis ws_space : forall r, first_alt ws (space :: r) = None.

Lemma sub_words_skip u : forall pw r,
  Forall (fun c => is_word c = true) u ->
  (u = [] -> pw = true) ->
  sub_words ws pw (List.length u) (u ++ r) = sub_words ws true 0 r.
Proof.
  induction u as [|c u IH]; intros pw r Hu Hpw.
  - simpl. now rewrite (Hpw eq_refl).
  - inversion Hu as [|? ? Hc Hu']; subst. simpl.
    apply IH; auto.
Qed.

Lemma sub_words_in_word u r :
  Forall (fun c => is_word c = true) u ->
  sub_words ws true 0 (u ++ r) = u ++ sub_words ws true 0 r.
Proof.
  induction 1 as [|c u Hc _ IH]; simpl; [reflexivity|].
  now rewrite Hc, IH.
Qed.

Lemma sub_words_spaces g : forall pw r,
  Forall (eq space) g ->
  sub_words ws pw 0 (g ++ r)
  = g ++ sub_words ws (match g with [] => pw | _ => false end) 0 r.
Proof.
  induction g as [|c g IH]; intros pw r Hg; [reflexivity|].
  inversion Hg as [|? ? Hc Hg']; subst c.
  change ((space :: g) ++ r) with (space :: (g ++ r)).
  assert (E : sub_words ws pw 0 (space :: g ++ r)
              = space :: sub_words ws false 0 (g ++ r)).
  { cbn [sub_words]. rewrite ws_space. now destruct pw. }
  rewrite E, IH by assumption. simpl. f_equal. f_equal. now destruct g.
Qed.

Lemma sub_words_token t rest :
  tokP t -> boundary_after rest = true ->
  sub_words ws false 0 (t ++ rest)
  = (if in_words ws t then [space] else t) ++ sub_words ws true 0 rest.
Proof.
  intros (Hne & Ht) Hrest.
  pose proof (az09_all_word _ Ht) as Hw.
  pose proof (first_alt_token ws t rest ws_word Hw Hrest) as Hfa.
  destruct t as [|c t]; [congruence|].
  inversion Hw as [|? ? Hc Hw']; subst.
  change ((c :: t) ++ rest) with (c :: (t ++ rest)) in *.
  cbn [sub_words]. rewrite Hfa.
  destruct (in_words ws (c :: t)).
  - replace (List.length (c :: t) - 1) with (List.length t)
      by (cbn [List.length]; lia).
    rewrite Hc. cbn [app]. f_equal.
    apply sub_words_skip; auto.
  - rewrite Hc. cbn [app]. f_equal. now apply sub_words_in_word.
Qed.

Lemma sub_words_body l :
  valid (eq space) l ->
  sub_words ws false 0 (body l) = body (map (replace_word ws) l).
Proof.
  induction l as [|[t g] l IH]; [reflexivity|].
  intros (Ht & Hg & Hlast & Hl). cbn [body map replace_word fst snd].
  rewrite sub_words_token; auto.
  - f_equal. destruct g as [|d g].
    + rewrite (Hlast eq_refl). reflexivity.
    + rewrite sub_words_spaces by assumption. now rewrite IH.
  - destruct g as [|d g].
    + rewrite (Hlast eq_refl). reflexivity.
    + inversion Hg; subst. reflexivity.
Qed.

Lemma sub_words_layout g0 l :
  Forall (eq space) g0 -> valid (eq space) l ->
  sub_words ws false 0 (g0 ++ body l) = g0 ++ body (map (replace_word ws) l).
Proof.
  intros Hg0 Hl. rewrite sub_words_spaces by assumption.
  f_equal. destruct g0; now apply sub_words_body.
Qed.

End SubWords.

Lemma stopwords_word : Forall (Forall (fun c => is_word c = true)) STOPWORDS.
Proof. repeat constructor. Qed.

Lemma stopwords_space r : first_alt STOPWORDS (space :: r) = None.
Proof. reflexivity. Qed.

(** ** Third step: white space collapsed and trimmed *)

Fixpoint join (ts : list chars) : chars :=
  match ts with
  | [] => []
  | t :: ts' => match ts' with [] => t | _ :: _ => t ++ space :: join ts' end
  end.

Definition kept (ws : list chars) (l : list (chars * chars)) : list chars :=
  filter (fun t => negb (in_words ws t)) (map fst l).

Lemma spaces_is_space g :
  Forall (eq space) g -> Forall (fun c => is_space c = true) g.
Proof. intros H. eapply Forall_impl; [|exact H]. now intros c <-. Qed.

Lemma az09_all_not_space t :
  Forall (fun c => is_az09 c = true) t -> Forall (fun c => is_space c = false) t.
Proof. intros H. eapply Forall_impl; [|exact H]. apply az09_not_space. Qed.

Lemma collapse_body ws l :
  valid (eq space) l ->
  exists post, Forall (eq space) post /\
    sub_runs is_space true (body (map (replace_word ws) l))
    = join (kept ws l) ++ post.
Proof.
  induction l as [|[t g] l IH]; intros Hl.
  - exists []. split; [constructor | reflexivity].
  - destruct Hl as ((Hne & Ht) & Hg & Hlast & Hl).
    destruct (IH Hl) as (post & Hpost & E).
    unfold kept in *. cbn [body map replace_word fst snd filter].
    destruct (in_words ws t); cbn [negb].
    + exists post. split; [assumption|].
      rewrite (sub_runs_skip is_space [space]) by (repeat constructor).
      rewrite sub_runs_skip by (now apply spaces_is_space). exact E.
    + rewrite sub_runs_keep by (auto using az09_all_not_space).
      destruct g as [|d g].
      * rewrite (Hlast eq_refl). exists []. split; [constructor|]. reflexivity.
      * rewrite sub_runs_gap by (auto using spaces_is_space; discriminate).
        rewrite E. cbn [join].
        destruct (filter _ (map fst l)) as [|t' K'] eqn:EK.
        -- exists (space :: post). split; [now constructor | reflexivity].
        -- exists post. split; [assumption|].
           now rewrite <- app_assoc.
Qed.

Lemma sub_runs_state p s :
  sub_runs p false s = sub_runs p true s
  \/ sub_runs p false s = space :: sub_runs p true s.
Proof. destruct s as [|c r]; simpl; [now left|]. destruct (p c); auto. Qed.

Definition starts_ns (s : chars) : Prop :=
  match s with [] => False | c :: _ => is_space c = false end.

Lemma lstrip_starts_ns pre s :
  Forall (eq space) pre -> starts_ns s -> lstrip (pre ++ s) = s.
Proof.
  intros Hpre Hs. rewrite lstrip_spaces by (now apply spaces_is_space).
  destruct s as [|c r]; [contradiction|]. now apply lstrip_nonspace.
Qed.

Lemma starts_ns_app s r : starts_ns s -> starts_ns (s ++ r).
Proof. destruct s; simpl; intros H; [destruct H | exact H]. Qed.

Lemma tok_starts_ns t : tokP t -> starts_ns t.
Proof.
  intros (Hne & Ht). destruct t as [|c t]; [congruence|].
  inversion Ht; subst. now apply az09_not_space.
Qed.

Lemma tok_rev t : tokP t -> tokP (rev t).
Proof.
  intros (Hne & Ht). split.
  - intros E. apply Hne. now rewrite <- (rev_involutive t), E.
  - now apply Forall_rev.
Qed.

Lemma join_starts_ns K :
  K <> [] -> Forall tokP K -> starts_ns (join K).
Proof.
  intros Hne HK. destruct K as [|t K]; [congruence|].
  inversion HK; subst. cbn [join].
  destruct K; [|apply starts_ns_app]; now apply tok_starts_ns.
Qed.

Lemma rev_join_starts_ns K :
  K <> [] -> Forall tokP K -> starts_ns (rev (join K)).
Proof.
  induction K as [|t K IH]; intros Hne HK; [congruence|].
  inversion HK as [|? ? Ht HK']; subst. cbn [join].
  destruct K as [|t' K].
  - apply tok_starts_ns. now apply tok_rev.
  - rewrite rev_app_distr. cbn [rev]. rewrite <- app_assoc.
    apply starts_ns_app. apply IH; [discriminate | assumption].
Qed.

Lemma strip_join pre K post :
  Forall (eq space) pre -> Forall (eq space) post -> Forall tokP K ->
  strip (pre ++ join K ++ post) = join K.
Proof.
  intros Hpre Hpost HK. unfold strip.
  destruct K as [|t K].
  - cbn [join app].
    rewrite <- (app_nil_r (pre ++ post)).
    rewrite lstrip_spaces; [reflexivity|].
    apply spaces_is_space. apply Forall_app. now split.
  - rewrite lstrip_starts_ns;
      [| assumption | apply starts_ns_app, join_starts_ns; [discriminate|assumption]].
    rewrite rev_app_distr.
    rewrite <- (app_nil_r (rev post ++ rev (join (t :: K)))), <- app_assoc.
    rewrite lstrip_starts_ns.
    + rewrite app_nil_r. apply rev_involutive.
    + now apply Forall_rev.
    + apply starts_ns_app, rev_join_starts_ns; [discriminate|assumption].
Qed.

Lemma valid_tokens P l : valid P l -> Forall tokP (map fst l).
Proof.
  induction l as [|[t g] l IH]; simpl; [constructor|].
  intros (Ht & _ & _ & Hl). constructor; auto.
Qed.

Lemma collapse_layout ws g0 l :
  Forall (eq space) g0 -> valid (eq space) l ->
  strip (sub_runs is_space false (g0 ++ body (map (replace_word ws) l)))
  = join (kept ws l).
Proof.
  intros Hg0 Hl.
  destruct (collapse_body ws l Hl) as (post & Hpost & E).
  assert (HK : Forall tokP (kept ws l)).
  { unfold kept. apply Forall_forall. intros t Hin.
    apply filter_In in Hin as [Hin _].
    pose proof (valid_tokens _ _ Hl) as Hall.
    now apply (proj1 (Forall_forall _ _) Hall). }
  set (s := g0 ++ body (map (replace_word ws) l)).
  assert (Et : sub_runs is_space true s = join (kept ws l) ++ post).
  { unfold s. rewrite sub_runs_skip by (now apply spaces_is_space). exact E. }
  destruct (sub_runs_state is_space s) as [-> | ->]; rewrite Et.
  - now apply (strip_join [] (kept ws l) post).
  - apply (strip_join [space] (kept ws l) post); auto.
Qed.

(** ** The three steps together *)

Definition rewrite_steps (s : chars) : chars :=
  strip (sub_runs is_space false
           (sub_words STOPWORDS false 0 (sub_runs sepc false s))).

Lemma rewrite_steps_layout g0 l :
  Forall (fun c => sepc c = true) g0 ->
  valid (fun c => sepc c = true) l ->
  rewrite_steps (g0 ++ body l) = join (kept STOPWORDS l).
Proof.
  intros Hg0 Hl. unfold rewrite_steps.
  rewrite sub_runs_layout by assumption.
  rewrite (sub_words_layout STOPWORDS stopwords_word stopwords_space)
    by (auto using squeeze_spaces, valid_squeeze).
  rewrite collapse_layout by (auto using squeeze_spaces, valid_squeeze).
  unfold kept. now rewrite map_fst_squeeze.
Qed.

(** The canonical keys: tokens of [[a-z0-9]], none a stop word, joined by
    single spaces. *)
Definition canonical (s : chars) : Prop :=
  exists K, Forall tokP K
            /\ Forall (fun t => in_words STOPWORDS t = false) K
            /\ s = join K.

Lemma rewrite_steps_canonical s : canonical (rewrite_steps s).
Proof.
  destruct (layout_exists s) as (g0 & l & -> & Hg0 & Hl).
  exists (kept STOPWORDS l). repeat split.
  - unfold kept. apply Forall_forall. intros t Hin.
    apply filter_In in Hin as [Hin _].
    now apply (proj1 (Forall_forall _ _) (valid_tokens _ _ Hl)).
  - unfold kept. apply Forall_forall. intros t Hin.
    apply filter_In in Hin as [_ Hn]. now apply negb_true_iff.
  - now apply rewrite_steps_layout.
Qed.

Fixpoint spaced (ts : list chars) : list (chars * chars) :=
  match ts with
  | [] => []
  | t :: ts' => (t, match ts' with [] => [] | _ :: _ => [space] end) :: spaced ts'
  end.

Lemma body_spaced K : body (spaced K) = join K.
Proof.
  induction K as [|t K IH]; [reflexivity|].
  cbn [spaced body join]. rewrite IH.
  destruct K; [now rewrite app_nil_r | reflexivity].
Qed.

Lemma valid_spaced K :
  Forall tokP K -> valid (fun c => sepc c = true) (spaced K).
Proof.
  induction 1 as [|t K Ht HK IH]; [exact I|].
  cbn [spaced valid]. repeat split; try apply Ht; auto.
  - destruct K; repeat constructor.
  - destruct K; [reflexivity | discriminate].
Qed.

Lemma map_fst_spaced K : map fst (spaced K) = K.
Proof. induction K as [|t K IH]; [reflexivity|]. cbn [spaced map fst]. now rewrite IH. Qed.

Lemma filter_all_true {A} (f : A -> bool) l :
  Forall (fun x => f x = true) l -> filter f l = l.
Proof.
  induction 1 as [|x l Hx _ IH]; [reflexivity|]. simpl. now rewrite Hx, IH.
Qed.

Lemma rewrite_steps_fixed s : canonical s -> rewrite_steps s = s.
Proof.
  intros (K & HK & Hns & ->).
  pose proof (rewrite_steps_layout [] (spaced K) (Forall_nil _)
                (valid_spaced K HK)) as E.
  cbn [app] in E. rewrite body_spaced in E. rewrite E.
  unfold kept. rewrite map_fst_spaced. rewrite filter_all_true; [reflexivity|].
  eapply Forall_impl; [|exact Hns]. intros t Ht. now rewrite Ht.
Qed.

Lemma join_chars K :
  Forall tokP K -> Forall (fun c => is_az09 c = true \/ c = space) (join K).
Proof.
  induction 1 as [|t K (_ & Ht) HK IH]; [constructor|].
  cbn [join].
  assert (Ht' : Forall (fun c => is_az09 c = true \/ c = space) t).
  { eapply Forall_impl; [|exact Ht]. intros; now left. }
  destruct K; [assumption|].
  apply Forall_app. split; [assumption|]. constructor; [now right | assumption].
Qed.

Lemma lower_char_az09 c : is_az09 c = true \/ c = space -> lower_char c = c.
Proof.
  intros [H | ->]; [|reflexivity]. revert H.
  destruct c as [[] [] [] [] [] [] [] []]; vm_compute; intros H;
    solve [reflexivity | discriminate H].
Qed.

Lemma az09_ascii c : is_az09 c = true \/ c = space -> (code c <? 128)%N = true.
Proof.
  intros [H | ->]; [|reflexivity]. revert H.
  destruct c as [[] [] [] [] [] [] [] []]; vm_compute; intros H;
    solve [reflexivity | discriminate H].
Qed.

Lemma canonical_lower s : canonical s -> lower s = s.
Proof.
  intros (K & HK & _ & ->). unfold lower.
  rewrite <- (map_id (join K)) at 2. apply map_ext_in.
  intros c Hc. apply lower_char_az09.
  now apply (proj1 (Forall_forall _ _) (join_chars K HK)).
Qed.

Lemma canonical_ascii s :
  canonical s -> Forall (fun c => (code c <? 128)%N = true) s.
Proof.
  intros (K & HK & _ & ->).
  eapply Forall_impl; [|exact (join_chars K HK)]. apply az09_ascii.
Qed.

Lemma clean_chars_canonical s : canonical (clean_chars s).
Proof. apply (rewrite_steps_canonical (lower s)). Qed.

Lemma clean_chars_fixed s : canonical s -> clean_chars s = s.
Proof.
  intros Hs. change (clean_chars s) with (rewrite_steps (lower s)).
  rewrite canonical_lower by assumption. now apply rewrite_steps_fixed.
Qed.

(** ** Idempotence of the canonical key *)

Lemma ascii_only_id (s : string) :
  Forall (fun c => (code c <? 128)%N = true) (chars_of s) -> ascii_only s = s.
Proof.
  intros H. unfold ascii_only. rewrite filter_all_true by assumption.
  apply string_of_list_ascii_of_string.
Qed.

Section CleanNameProperties.

Variable nfkd_ascii : string -> string.

(** A text that is already ASCII has no decomposition: the folding leaves
    it as it is. *)
Hypothesis nfkd_ascii_id :
  forall s, Forall (fun c => (code c <? 128)%N = true) (chars_of s) ->
            nfkd_ascii s = s.

Lemma clean_name_canonical (s : option string) :
  canonical (chars_of (_clean_name nfkd_ascii s)).
Proof.
  destruct s as [s|]; cbn [_clean_name].
  - unfold str_of, chars_of. rewrite list_ascii_of_string_of_list_ascii.
    apply clean_chars_canonical.
  - exists []. repeat split; constructor.
Qed.

Lemma clean_name_fixed (s : string) :
  canonical (chars_of s) -> _clean_name nfkd_ascii (Some s) = s.
Proof.
  intros Hs. cbn [_clean_name].
  rewrite nfkd_ascii_id by (now apply canonical_ascii).
  rewrite clean_chars_fixed by assumption.
  apply string_of_list_ascii_of_string.
Qed.

(** C2. The name canonicalizer is idempotent: cleaning the result of
    [_clean_name] again returns it unchanged, for every text and for the
    absent value [None]. *)
Theorem clean_name_idempotent (s : option string) :
  _clean_name nfkd_ascii (Some (_clean_name nfkd_ascii s))
  = _clean_name nfkd_ascii s.
Proof. apply clean_name_fixed, clean_name_canonical. Qed.

End CleanNameProperties.

Example clean_name_st_marys :
  _clean_name ascii_only (Some "St. Mary's Hospital, Nairobi") = "st mary s nairobi".
Proof. reflexivity. Qed.

Example clean_name_acme :
  _clean_name ascii_only (Some "ACME  Clinic!!") = "acme".
Proof. reflexivity. Qed.

Example clean_name_wording :
  _clean_name ascii_only (Some "Hospitality Health-Centre 24hrs") = "hospitality 24hrs".
Proof. reflexivity. Qed.

Lemma clean_name_idempotent_witness :
  _clean_name ascii_only
    (Some (_clean_name ascii_only (Some "Health  Centre: St. Mary's HOSPITAL (Level-4)")))
  = _clean_name ascii_only (Some "Health  Centre: St. Mary's HOSPITAL (Level-4)").
Proof. apply (clean_name_idempotent ascii_only ascii_only_id). Defined.

Lemma chars_of_str_of l : chars_of (str_of l) = l.
Proof. apply list_ascii_of_string_of_list_ascii. Qed.

(** ** Trimming twice *)

Lemma lstrip_idempotent s : lstrip (lstrip s) = lstrip s.
Proof.
  induction s as [|c s IH]; [reflexivity|]. simpl.
  destruct (is_space c) eqn:Hc; [exact IH|]. simpl. now rewrite Hc.
Qed.

Lemma lstrip_keeps_last l c :
  is_space c = false -> exists w, lstrip (l ++ [c]) = w ++ [c].
Proof.
  intros Hc. induction l as [|d l (w & IH)]; simpl.
  - rewrite Hc. now exists [].
  - destruct (is_space d); [now exists w|]. now exists (d :: l).
Qed.

Lemma strip_idempotent s : strip (strip s) = strip s.
Proof.
  unfold strip.
  assert (Hl : lstrip (rev (lstrip (rev (lstrip s)))) = rev (lstrip (rev (lstrip s)))).
  { destruct (lstrip s) as [|c u] eqn:Eu; [reflexivity|].
    assert (Hc : is_space c = false).
    { destruct (is_space c) eqn:E; [|reflexivity].
      pose proof (lstrip_idempotent s) as Hi. rewrite Eu in Hi.
      simpl in Hi. rewrite E in Hi.
      assert (Hlen : List.length (lstrip u) <= List.length u).
      { clear. induction u as [|d u IH]; simpl; [lia|].
        destruct (is_space d); simpl; lia. }
      rewrite Hi in Hlen. simpl in Hlen. lia. }
    cbn [rev]. destruct (lstrip_keeps_last (rev u) c Hc) as (w & ->).
    rewrite rev_app_distr. cbn [rev app]. now apply lstrip_nonspace. }
  rewrite Hl, rev_involutive, lstrip_idempotent. reflexivity.
Qed.

Lemma py_strip_idempotent s : py_strip (py_strip s) = py_strip s.
Proof. unfold py_strip. rewrite chars_of_str_of. f_equal. apply strip_idempotent. Qed.

(** ** Cells of a rewritten column *)

Lemma lookup_map_at cols n m f : forall row,
  lookup cols m (map_at cols n f row)
  = if String.eqb n m then option_map f (lookup cols m row)
    else lookup cols m row.
Proof.
  induction cols as [|c cols IH]; intros [|v row]; simpl;
    try (destruct (String.eqb n m); reflexivity).
  destruct (String.eqb_spec c m) as [->|Hcm].
  - rewrite (String.eqb_sym m n). now destruct (String.eqb n m).
  - apply IH.
Qed.

Lemma map_at_absent cols n f : forall row,
  mem_str n cols = false -> map_at cols n f row = row.
Proof.
  induction cols as [|c cols IH]; intros [|v row] H; simpl in *; try reflexivity.
  apply orb_false_iff in H as [Hc H].
  rewrite String.eqb_sym, Hc. f_equal. now apply IH.
Qed.

Lemma map_col_absent n f df : has_col n df = false -> map_col n f df = df.
Proof.
  intros H. destruct df as [cols rs]. unfold map_col, has_col in *. simpl in *.
  f_equal. rewrite <- (map_id rs) at 2. apply map_ext.
  intros row. now apply map_at_absent.
Qed.

Lemma NoDup_not_repeated n df : NoDup (columns df) -> repeated n df = false.
Proof.
  intros H. unfold repeated. apply Nat.ltb_ge.
  now apply (proj1 (NoDup_count_occ string_dec (columns df))).
Qed.

Lemma bind_ok {A B} (r : result A) (k : A -> result B) b :
  bind r k = Ok b -> exists a, r = Ok a /\ k a = Ok b.
Proof. destruct r as [a|e]; simpl; [eauto | discriminate]. Qed.

Section StandardizeProperties.

Variable float_repr : Q -> string.
Variable to_numeric_text : string -> option Q.
Variable py_title : string -> string.

Local Abbreviation astype_str := (astype_str float_repr).
Local Abbreviation to_numeric := (to_numeric to_numeric_text).
Local Abbreviation vendor_cell := (vendor_cell float_repr).
Local Abbreviation amount_cell := (amount_cell float_repr to_numeric_text).
Local Abbreviation month_cell := (month_cell float_repr py_title).
Local Abbreviation county_cell := (county_cell float_repr).
Local Abbreviation stdz := (standardize float_repr to_numeric_text py_title).

Lemma rewrite_col_ok e n f out out' :
  rewrite_col e n f out = Ok out' -> out' = map_col n f out.
Proof.
  unfold rewrite_col. destruct (has_col n out) eqn:Hh.
  - destruct (repeated n out); [discriminate|]. now intros [= <-].
  - intros [= <-]. symmetry. now apply map_col_absent.
Qed.

Lemma int64_col_ok n out out' :
  int64_col to_numeric_text n out = Ok out' -> out' = map_col n to_numeric out.
Proof.
  unfold int64_col. destruct (has_col n out) eqn:Hh.
  - destruct (repeated n out); [discriminate|].
    destruct (forallb _ _); [|discriminate]. now intros [= <-].
  - intros [= <-]. symmetry. now apply map_col_absent.
Qed.

(** The cells of one row after the column steps of [standardize]. *)
Definition std_row (cols : list string) (row : list cell) : list cell :=
  map_at cols "longitude" to_numeric
    (map_at cols "latitude" to_numeric
       (map_at cols "sub_county" county_cell
          (map_at cols "county" county_cell
             (map_at cols "schedule" to_numeric
                (map_at cols "report_month" month_cell
                   (map_at cols "report_year" to_numeric
                      (map_at cols "amount" amount_cell
                         (map_at cols "vendor_name" vendor_cell row)))))))).

(** Whether a standardized row passes [drop blank vendors]. *)
Definition vendor_kept (cols : list string) (row : list cell) : bool :=
  notna (get cols "vendor_name" row) && nonblank (get cols "vendor_name" row).

Lemma standardize_ok df out :
  stdz df = Ok out -> empty df = false ->
  let cols := map rename_label (columns df) in
  columns out = cols
  /\ rows out = (if mem_str "vendor_name" cols
                 then filter (vendor_kept cols) (map (std_row cols) (rows df))
                 else map (std_row cols) (rows df)).
Proof.
  unfold standardize. intros H He. rewrite He in H.
  repeat (apply bind_ok in H as (? & ?%rewrite_col_ok & H)
          || apply bind_ok in H as (? & ?%int64_col_ok & H)).
  subst. injection H as <-.
  unfold drop_blank_vendors, has_col. cbn [columns map_col rename].
  destruct (mem_str "vendor_name" (map rename_label (columns df)));
    cbn [columns rows filter_rows map_col rename];
    (split; [reflexivity|]); rewrite !map_map; reflexivity.
Qed.

Lemma lookup_std_row_amount cols row :
  lookup cols "amount" (std_row cols row)
  = option_map amount_cell (lookup cols "amount" row).
Proof. unfold std_row. rewrite !lookup_map_at. cbn. now destruct (lookup _ _ _). Qed.

Lemma lookup_std_row_vendor cols row :
  lookup cols "vendor_name" (std_row cols row)
  = option_map vendor_cell (lookup cols "vendor_name" row).
Proof. unfold std_row. rewrite !lookup_map_at. cbn. now destruct (lookup _ _ _). Qed.

Lemma lookup_std_row_other cols n row :
  schema_field n = None ->
  lookup cols n (std_row cols row) = lookup cols n row.
Proof.
  intros Hn. unfold std_row. rewrite !lookup_map_at.
  assert (E : forall m, schema_field m = Some m -> String.eqb m n = false).
  { intros m Hm. destruct (String.eqb_spec m n) as [->|]; [congruence|reflexivity]. }
  rewrite !E by reflexivity. reflexivity.
Qed.

(** ** The soft rename *)

(** The synonym sets of the rename, as a table. *)
Definition SYNONYMS : list (string * list string) :=
  [("vendor_name", ["vendor"; "facility"; "provider"; "vendor_name"]);
   ("claims", ["claim"; "claims"]);
   ("amount", ["amount"; "kes"; "ksh"]);
   ("report_month", ["report_month"; "month"]);
   ("report_year", ["report_year"; "year"]);
   ("schedule", ["schedule"; "batch"]);
   ("county", ["county"]);
   ("sub_county", ["sub_county"; "subcounty"; "sub-county"]);
   ("latitude", ["latitude"; "lat"]);
   ("longitude", ["longitude"; "lon"; "lng"])].

(** The fields of the fixed schema. *)
Definition SCHEMA : list string := map fst SYNONYMS.

(** A label matches a field when its lower-cased, trimmed form is one of
    the field's synonyms. *)
Definition matches_field (c field : string) : Prop :=
  exists aliases, In (field, aliases) SYNONYMS /\ In (py_strip (py_lower c)) aliases.

Lemma mem_str_In x l : mem_str x l = true <-> In x l.
Proof.
  unfold mem_str. rewrite existsb_exists. split.
  - intros (y & Hy & E). apply String.eqb_eq in E. now subst.
  - intros H. exists x. split; [assumption | apply String.eqb_refl].
Qed.

Lemma schema_field_table lc field :
  schema_field lc = Some field
  <-> exists aliases, In (field, aliases) SYNONYMS /\ In lc aliases.
Proof.
  split.
  - unfold schema_field.
    repeat match goal with
           | |- context [mem_str lc ?l] =>
               destruct (mem_str lc l) eqn:?H;
               [ intros [= <-]; exists l; split;
                 [ unfold SYNONYMS; simpl; tauto | now apply mem_str_In ] | ]
           end.
    discriminate.
  - intros (aliases & Ht & Hin).
    unfold SYNONYMS in Ht. simpl in Ht.
    repeat (destruct Ht as [Ht | Ht];
            [ injection Ht as <- <-; simpl in Hin;
              repeat (destruct Hin as [<- | Hin]; [reflexivity|]);
              contradiction | ]).
    contradiction.
Qed.

Lemma rename_label_matched c field :
  matches_field c field -> rename_label c = field.
Proof.
  intros H. apply schema_field_table in H. unfold rename_label. now rewrite H.
Qed.

Lemma rename_label_unmatched c :
  (forall field, ~ matches_field c field) -> rename_label c = c.
Proof.
  intros H. unfold rename_label.
  destruct (schema_field (py_strip (py_lower c))) as [field|] eqn:E; [|reflexivity].
  exfalso. apply (H field). now apply schema_field_table.
Qed.

(** C4, as the code has it.  On a table with at least one row and one
    column, [standardize] matches each label, lower-cased and trimmed,
    against the synonym sets; a matched label becomes the field it stands
    for, and an unmatched column is kept under its own label: the output
    has one column per input column, in the same order. *)
Theorem standardize_columns df out :
  stdz df = Ok out -> empty df = false ->
  columns out = map rename_label (columns df)
  /\ (forall c field, matches_field c field -> rename_label c = field)
  /\ (forall c, (forall field, ~ matches_field c field) -> rename_label c = c).
Proof.
  intros H He. split; [exact (proj1 (standardize_ok df out H He))|].
  split; [exact rename_label_matched | exact rename_label_unmatched].
Qed.

(** ** The amount column *)

(** What is left of an amount after [clean_amount]: digits, dots and minus
    signs. *)
Definition amount_text (s : string) : Prop :=
  Forall (fun c => is_digit c || Ascii.eqb c "."%char || Ascii.eqb c "-"%char = true)
    (chars_of s).

Lemma clean_amount_text s : amount_text (clean_amount s).
Proof.
  unfold amount_text, clean_amount. rewrite chars_of_str_of.
  apply Forall_forall. intros c Hc.
  apply filter_In in Hc as [Hc Hcomma]. apply filter_In in Hc as [_ Hc].
  unfold amount_char in Hc.
  destruct (Ascii.eqb c ","%char); [discriminate|].
  now rewrite orb_false_r in Hc.
Qed.

(** Whether an input row survives [standardize]: only its vendor cell
    decides. *)
Definition survives (cols : list string) (row : list cell) : bool :=
  negb (mem_str "vendor_name" cols)
  || match lookup cols "vendor_name" row with
     | Some c => nonblank (vendor_cell c)
     | None => false
     end.

Lemma vendor_kept_std_row cols row :
  mem_str "vendor_name" cols = true ->
  vendor_kept cols (std_row cols row) = survives cols row.
Proof.
  intros H. unfold vendor_kept, survives, get.
  rewrite lookup_std_row_vendor, H. cbn [negb orb].
  destruct (lookup cols "vendor_name" row) as [c|]; cbn; [|reflexivity].
  reflexivity.
Qed.

Lemma filter_map_comm {A B} (p : B -> bool) (f : A -> B) l :
  filter p (map f l) = map f (filter (fun x => p (f x)) l).
Proof.
  induction l as [|x l IH]; [reflexivity|]. simpl.
  destruct (p (f x)); simpl; now rewrite IH.
Qed.

Lemma Forall2_map_r {A B} (P : A -> B -> Prop) (f : A -> B) l :
  (forall x, P x (f x)) -> Forall2 P l (map f l).
Proof. intros H. induction l; simpl; constructor; auto. Qed.

Lemma standardize_rows df out :
  stdz df = Ok out -> empty df = false ->
  rows out = map (std_row (columns out)) (filter (survives (columns out)) (rows df)).
Proof.
  intros H He. destruct (standardize_ok df out H He) as [Hc Hr].
  rewrite Hc, Hr.
  destruct (mem_str "vendor_name" (map rename_label (columns df))) eqn:Hv.
  - rewrite filter_map_comm. f_equal. apply filter_ext.
    intros row. now apply vendor_kept_std_row.
  - f_equal. symmetry. apply filter_all_true.
    apply Forall_forall. intros row _. unfold survives. now rewrite Hv.
Qed.

(** ** A bad amount never fails the load *)

(** The same table with other contents in its amount column. *)
Definition with_amounts (g : cell -> cell) (df : DataFrame) : DataFrame :=
  {| columns := columns df;
     rows := map (map_at (map rename_label (columns df)) "amount" g) (rows df) |}.

Definition same_but_amount (cols : list string) (r r' : list cell) : Prop :=
  forall m, m <> "amount" -> lookup cols m r = lookup cols m r'.

Definition frames_alike (a b : DataFrame) : Prop :=
  columns a = columns b /\ Forall2 (same_but_amount (columns a)) (rows a) (rows b).

Definition results_alike (r r' : result DataFrame) : Prop :=
  match r, r' with
  | Ok a, Ok b => frames_alike a b
  | Raise _, Raise _ => True
  | _, _ => False
  end.

Lemma results_alike_is_ok r r' : results_alike r r' -> is_ok r = is_ok r'.
Proof. destruct r, r'; simpl; tauto. Qed.

Lemma results_alike_bind r r' k k' :
  results_alike r r' ->
  (forall a b, frames_alike a b -> results_alike (k a) (k' b)) ->
  results_alike (bind r k) (bind r' k').
Proof. destruct r, r'; simpl; auto; tauto. Qed.

Lemma Forall2_map_both {A} (P : A -> A -> Prop) (f g : A -> A) l l' :
  (forall x y, P x y -> P (f x) (g y)) ->
  Forall2 P l l' -> Forall2 P (map f l) (map g l').
Proof. intros H. induction 1; simpl; constructor; auto. Qed.

Lemma frames_alike_map_col n f g a b :
  frames_alike a b -> n = "amount" \/ f = g ->
  frames_alike (map_col n f a) (map_col n g b).
Proof.
  intros [Hc Hr] Hn. split; [exact Hc|]. cbn [columns rows map_col].
  rewrite <- Hc. apply Forall2_map_both; [|exact Hr].
  intros r r' Hrr m Hm. rewrite !lookup_map_at.
  destruct (String.eqb_spec n m) as [->|Hnm]; [|now apply Hrr].
  destruct Hn as [->| ->]; [congruence|]. now rewrite (Hrr m Hm).
Qed.

Lemma frames_alike_column n a b :
  frames_alike a b -> n <> "amount" -> column n a = column n b.
Proof.
  intros [Hc Hr] Hn. unfold column. rewrite <- Hc.
  induction Hr as [|r r' l l' Hrr _ IH]; [reflexivity|].
  simpl. f_equal; [|exact IH]. unfold get. now rewrite (Hrr n Hn).
Qed.

Lemma results_alike_rewrite_col e n f g a b :
  frames_alike a b -> n = "amount" \/ f = g ->
  results_alike (rewrite_col e n f a) (rewrite_col e n g b).
Proof.
  intros Hab Hn. unfold rewrite_col, has_col, repeated.
  rewrite <- (proj1 Hab).
  destruct (mem_str n (columns a)); [|exact Hab].
  destruct (Nat.ltb _ _); [exact I|].
  now apply frames_alike_map_col.
Qed.

Lemma results_alike_int64_col n a b :
  frames_alike a b -> n <> "amount" ->
  results_alike (int64_col to_numeric_text n a) (int64_col to_numeric_text n b).
Proof.
  intros Hab Hn. unfold int64_col, has_col, repeated.
  rewrite <- (proj1 Hab), <- (frames_alike_column n a b Hab Hn).
  destruct (mem_str n (columns a)); [|exact Hab].
  destruct (Nat.ltb _ _); [exact I|].
  destruct (forallb _ _); [|exact I].
  apply frames_alike_map_col; auto.
Qed.

Lemma Forall2_filter_alike {A} (P : A -> A -> Prop) (p q : A -> bool) l l' :
  (forall x y, P x y -> p x = q y) ->
  Forall2 P l l' -> Forall2 P (filter p l) (filter q l').
Proof.
  intros H. induction 1 as [|x y l l' Hxy _ IH]; simpl; [constructor|].
  rewrite (H x y Hxy). destruct (q y); [constructor|]; auto.
Qed.

Lemma frames_alike_drop a b :
  frames_alike a b -> frames_alike (drop_blank_vendors a) (drop_blank_vendors b).
Proof.
  intros Hab. pose proof Hab as [Hc Hr]. unfold drop_blank_vendors, has_col.
  rewrite <- Hc. destruct (mem_str "vendor_name" (columns a)); [|exact Hab].
  split; [exact Hc|]. cbn [columns rows filter_rows].
  apply Forall2_filter_alike; [|exact Hr].
  intros r r' Hrr. unfold get. rewrite (Hrr "vendor_name"); [reflexivity|discriminate].
Qed.

Lemma frames_alike_with_amounts g df :
  frames_alike (rename df) (rename (with_amounts g df)).
Proof.
  split; [reflexivity|]. cbn [columns rows rename with_amounts].
  apply Forall2_map_r. intros r m Hm. rewrite lookup_map_at.
  destruct (String.eqb_spec "amount" m) as [<-|]; [congruence|reflexivity].
Qed.

Lemma empty_with_amounts g df : empty (with_amounts g df) = empty df.
Proof.
  unfold empty, with_amounts. cbn [columns rows].
  destruct (columns df); [reflexivity|]. now destruct (rows df).
Qed.

Lemma standardize_ignores_amounts g df :
  is_ok (stdz (with_amounts g df)) = is_ok (stdz df).
Proof.
  unfold standardize. rewrite empty_with_amounts.
  destruct (empty df); [reflexivity|].
  symmetry. apply results_alike_is_ok.
  repeat first
    [ apply results_alike_bind;
      [ first [ apply results_alike_rewrite_col; [|now right]
              | apply results_alike_int64_col; [|discriminate] ]
      | intros ? ? ? ]
    | apply frames_alike_with_amounts
    | assumption ].
  cbn [results_alike]. now apply frames_alike_drop.
Qed.

(** The text-to-number reading of [pd.to_numeric] on what [clean_amount]
    leaves is the decimal reading. *)
Hypothesis to_numeric_plain :
  forall s, amount_text s -> to_numeric_text s = read_decimal s.

Lemma amount_cell_decimal c :
  amount_cell c = match read_decimal (clean_amount (astype_str c)) with
                  | Some q => Num q
                  | None => NA
                  end.
Proof.
  unfold amount_cell, to_numeric.
  now rewrite to_numeric_plain by apply clean_amount_text.
Qed.

Lemma clean_amount_chars s :
  chars_of (clean_amount s)
  = filter (fun c => is_digit c || Ascii.eqb c "."%char || Ascii.eqb c "-"%char)
      (chars_of s).
Proof.
  unfold clean_amount. rewrite chars_of_str_of.
  induction (chars_of s) as [|c l IH]; [reflexivity|].
  cbn [filter]. unfold amount_char at 1.
  destruct (Ascii.eqb_spec c ","%char) as [->|Hc]; [exact IH|].
  rewrite orb_false_r.
  destruct (is_digit c || Ascii.eqb c "."%char || Ascii.eqb c "-"%char) eqn:E.
  - cbn [filter]. destruct (Ascii.eqb_spec c ","%char); [contradiction|].
    cbn [negb]. now rewrite IH.
  - exact IH.
Qed.

(** C5.  The amount of every row is its text without the characters other
    than digits, dots and minus signs (currency words and thousands
    separators go), read as a decimal; a text that is no decimal gives a
    missing amount.  The row stays: only the vendor cell decides whether a
    row survives, and whether [standardize] returns or raises does not
    depend on what the amount cells hold.  ["KES 1,250.50"] gives 1250.50
    and ["abc"] gives a missing amount. *)
Theorem standardize_amount :
  (forall s, chars_of (clean_amount s)
             = filter (fun c => is_digit c || Ascii.eqb c "."%char
                                || Ascii.eqb c "-"%char) (chars_of s))
  /\ (forall c, amount_cell c
                = match read_decimal (clean_amount (astype_str c)) with
                  | Some q => Num q
                  | None => NA
                  end)
  /\ (exists q, amount_cell (Str "KES 1,250.50") = Num q /\ (q == 1250.50)%Q)
  /\ amount_cell (Str "abc") = NA
  /\ (forall df out, stdz df = Ok out -> empty df = false ->
        Forall2 (fun r r' => lookup (columns out) "amount" r'
                             = option_map amount_cell (lookup (columns out) "amount" r))
          (filter (survives (columns out)) (rows df)) (rows out))
  /\ (forall g df, is_ok (stdz (with_amounts g df)) = is_ok (stdz df)).
Proof.
  split; [exact clean_amount_chars|].
  split; [exact amount_cell_decimal|].
  split; [exists (2501 # 2)%Q; split; [now rewrite amount_cell_decimal | reflexivity]|].
  split; [now rewrite amount_cell_decimal|].
  split; [|exact standardize_ignores_amounts].
  intros df out H He. rewrite (standardize_rows df out H He).
  apply Forall2_map_r. intros r. apply lookup_std_row_amount.
Qed.

(** ** The vendor column *)

(** The vendor name [standardize] gives a cell. *)
Definition vendor_text (c : cell) : string :=
  py_strip (collapse_spaces (astype_str c)).

(** The rows that survive are the rows whose cleaned vendor name is not
    empty; each keeps that cleaned name, which is trimmed.  A missing
    vendor prints as ["nan"], so its row survives. *)
Lemma standardize_vendor_names df out :
  stdz df = Ok out -> empty df = false ->
  mem_str "vendor_name" (columns out) = true ->
  (forall r, survives (columns out) r = true
             <-> exists c, lookup (columns out) "vendor_name" r = Some c
                           /\ vendor_text c <> "")
  /\ Forall2 (fun r r' =>
                exists c, lookup (columns out) "vendor_name" r = Some c
                          /\ lookup (columns out) "vendor_name" r'
                             = Some (Str (vendor_text c))
                          /\ vendor_text c <> ""
                          /\ py_strip (vendor_text c) = vendor_text c)
       (filter (survives (columns out)) (rows df)) (rows out)
  /\ vendor_text NA = "nan".
Proof.
  intros H He Hv.
  assert (Hs : forall r, survives (columns out) r = true
                         <-> exists c, lookup (columns out) "vendor_name" r = Some c
                                       /\ vendor_text c <> "").
  { intros r. unfold survives. rewrite Hv. cbn [negb orb].
    destruct (lookup (columns out) "vendor_name" r) as [c|].
    - cbn [nonblank vendor_cell]. fold (vendor_text c).
      rewrite negb_true_iff. split.
      + intros E. exists c. split; [reflexivity|].
        intros E'. rewrite E' in E. discriminate.
      + intros (c' & [= <-] & Hne).
        destruct (String.eqb_spec (vendor_text c) ""); [contradiction|reflexivity].
    - split; [discriminate|]. now intros (c & Hc & _). }
  split; [exact Hs|]. split; [|reflexivity].
  rewrite (standardize_rows df out H He).
  assert (Hall : Forall (fun r => survives (columns out) r = true)
                   (filter (survives (columns out)) (rows df))).
  { apply Forall_forall. intros r Hr. now apply filter_In in Hr. }
  induction Hall as [|r rs Hr _ IH]; [constructor|].
  cbn [map]. constructor; [|exact IH].
  apply Hs in Hr as (c & Hc & Hne). exists c.
  rewrite lookup_std_row_vendor, Hc. repeat split; auto.
  apply py_strip_idempotent.
Qed.

End StandardizeProperties.

(** A table with a column that no synonym set knows. *)
Definition notes_table : DataFrame :=
  {| columns := ["Vendor"; "KES"; "Notes"];
     rows := [[Str "Acme  Clinic "; Str "KES 1,250.50"; Str "checked"]] |}.

Definition notes_table_std : DataFrame :=
  {| columns := ["vendor_name"; "amount"; "Notes"];
     rows := [[Str "Acme Clinic"; Num (2501 # 2); Str "checked"]] |}.

(** C4 as stated fails: the unmatched column [Notes] is still in the
    output, which therefore is not restricted to the fixed schema. *)
Lemma standardize_keeps_unmatched_column :
  standardize (fun _ => "") read_decimal (fun s => s) notes_table = Ok notes_table_std
  /\ In "Notes" (columns notes_table_std)
  /\ ~ In "Notes" SCHEMA.
Proof.
  split; [reflexivity|]. split; [simpl; tauto|].
  unfold SCHEMA. simpl. intros H.
  repeat (destruct H as [H | H]; [discriminate H|]). exact H.
Qed.

Lemma standardize_columns_witness :
  columns notes_table_std = map rename_label (columns notes_table)
  /\ (forall c field, matches_field c field -> rename_label c = field)
  /\ (forall c, (forall field, ~ matches_field c field) -> rename_label c = c).
Proof.
  apply (standardize_columns (fun _ => "") read_decimal (fun s => s)
           notes_table notes_table_std); reflexivity.
Defined.

Lemma standardize_amount_witness :
  amount_cell (fun _ => "") read_decimal (Str "abc") = NA
  /\ Forall2 (fun r r' => lookup (columns notes_table_std) "amount" r'
                          = option_map (amount_cell (fun _ => "") read_decimal)
                              (lookup (columns notes_table_std) "amount" r))
       (filter (survives (fun _ => "") (columns notes_table_std)) (rows notes_table))
       (rows notes_table_std).
Proof.
  pose proof (standardize_amount (fun _ => "") read_decimal (fun s => s)
                (fun s _ => eq_refl)) as (_ & _ & _ & Habc & Hrows & _).
  split; [exact Habc|].
  apply (Hrows notes_table notes_table_std); reflexivity.
Defined.

(** ** Rows without a vendor *)

(** A table whose first row has no vendor and whose second has a blank
    one. *)
Definition missing_vendor_table : DataFrame :=
  {| columns := ["vendor_name"; "amount"];
     rows := [[NA; Str "100"]; [Str "   "; Str "7"]; [Str "Acme"; Str "5"]] |}.

(** C3, at a row whose vendor is missing.  The blank vendor is dropped,
    but the missing one is not: [astype(str)] has turned it into the text
    ["nan"] before the blank vendors are dropped, and the row survives
    under that name. *)
Theorem standardize_keeps_missing_vendor :
  standardize (fun _ => "") read_decimal (fun s => s) missing_vendor_table
  = Ok {| columns := ["vendor_name"; "amount"];
          rows := [[Str "nan"; Num 100]; [Str "Acme"; Num 5]] |}.
Proof. reflexivity. Qed.

(** ** Page markers *)

(** The page-marker pattern, read declaratively: white space, the word
    "page" in any case, white space, then at least one digit; anything may
    follow. *)
Definition page_marker (s : chars) : Prop :=
  exists ws1 w ws2 ds rest,
    s = ws1 ++ w ++ ws2 ++ ds ++ rest
    /\ Forall (fun c => is_space c = true) ws1
    /\ lower w = chars_of "page"
    /\ Forall (fun c => is_space c = true) ws2
    /\ ds <> []
    /\ Forall (fun c => is_digit c = true) ds.

Lemma lstrip_split s :
  exists ws, s = ws ++ lstrip s /\ Forall (fun c => is_space c = true) ws.
Proof.
  induction s as [|c s (ws & E & Hws)].
  - exists []. split; [reflexivity | constructor].
  - simpl. destruct (is_space c) eqn:Hc.
    + exists (c :: ws). split; [simpl; now f_equal | now constructor].
    + exists []. split; [reflexivity | constructor].
Qed.

Lemma ci_prefix_split w : forall s rest,
  ci_prefix w s = Some rest ->
  exists w', s = w' ++ rest /\ lower w' = lower w.
Proof.
  induction w as [|a w IH]; intros s rest H.
  - injection H as <-. now exists [].
  - destruct s as [|b s]; [discriminate|]. simpl in H.
    destruct (Ascii.eqb_spec (lower_char a) (lower_char b)) as [E|]; [|discriminate].
    destruct (IH s rest H) as (w' & -> & Hw').
    exists (b :: w'). split; [reflexivity|]. simpl. now rewrite Hw', E.
Qed.

Lemma ci_prefix_app w : forall w' rest,
  lower w' = lower w -> ci_prefix w (w' ++ rest) = Some rest.
Proof.
  induction w as [|a w IH]; intros [|b w'] rest H; try discriminate H.
  - reflexivity.
  - simpl in *. injection H as Hb Hw. rewrite Hb, Ascii.eqb_refl. now apply IH.
Qed.

Lemma digit_not_space c : is_digit c = true -> is_space c = false.
Proof.
  destruct c as [[] [] [] [] [] [] [] []]; vm_compute; intros H;
    solve [reflexivity | discriminate H].
Qed.

Lemma lower_p_not_space c : lower_char c = "p"%char -> is_space c = false.
Proof.
  destruct c as [[] [] [] [] [] [] [] []]; vm_compute; intros H;
    solve [reflexivity | discriminate H].
Qed.

Lemma page_row_re_spec (s : string) :
  PAGE_ROW_RE s = true <-> page_marker (chars_of s).
Proof.
  unfold PAGE_ROW_RE. split.
  - destruct (lstrip_split (chars_of s)) as (ws1 & E1 & Hws1).
    destruct (ci_prefix _ (lstrip (chars_of s))) as [rest|] eqn:Hp; [|discriminate].
    apply ci_prefix_split in Hp as (w & Ew & Hw).
    destruct (lstrip_split rest) as (ws2 & E2 & Hws2).
    destruct (lstrip rest) as [|d r]; [discriminate|]. intros Hd.
    exists ws1, w, ws2, [d], r. repeat split; auto.
    + rewrite E1, Ew, E2. reflexivity.
    + discriminate.
  - intros (ws1 & w & ws2 & ds & rest & -> & Hws1 & Hw & Hws2 & Hne & Hds).
    rewrite lstrip_spaces by assumption.
    assert (Hlw : lstrip (w ++ ws2 ++ ds ++ rest) = w ++ ws2 ++ ds ++ rest).
    { destruct w as [|c w]; [discriminate Hw|].
      apply lstrip_nonspace, lower_p_not_space.
      simpl in Hw. now injection Hw. }
    rewrite Hlw, (ci_prefix_app _ w) by exact Hw.
    rewrite lstrip_spaces by assumption.
    destruct ds as [|d ds]; [congruence|].
    inversion Hds as [|? ? Hd _]; subst.
    change ((d :: ds) ++ rest) with (d :: (ds ++ rest)).
    rewrite lstrip_nonspace by (now apply digit_not_space). exact Hd.
Qed.

Section PageRows.

Variable float_repr : Q -> string.

Local Abbreviation page_text cols r := (astype_str float_repr (get cols "vendor_name" r)).

Lemma remove_page_rows_rows df out :
  has_col "vendor_name" df = true ->
  remove_page_rows float_repr df = Ok out ->
  columns out = columns df
  /\ rows out = filter (fun r => negb (PAGE_ROW_RE (page_text (columns df) r)))
                  (rows df).
Proof.
  intros Hv. unfold remove_page_rows. rewrite Hv. cbn [negb orb].
  destruct (empty df) eqn:He.
  - intros [= <-]. split; [reflexivity|].
    unfold empty in He. destruct df as [[|c cols] [|r rs]]; try discriminate;
      reflexivity.
  - destruct (repeated "vendor_name" df); [discriminate|].
    intros [= <-]. split; reflexivity.
Qed.

(** C6.  On a table with a vendor column the junk filter removes exactly
    the rows whose vendor name starts with a page marker (white space,
    "page" in any case, white space, at least one digit) and keeps the
    others in their order: ["Page 3"] goes, ["Village Page Clinic"]
    stays. *)
Theorem remove_page_rows_exact :
  (forall s, PAGE_ROW_RE s = true <-> page_marker (chars_of s))
  /\ (forall df,
        has_col "vendor_name" df = true ->
        NoDup (columns df) ->
        exists out,
          remove_page_rows float_repr df = Ok out
          /\ columns out = columns df
          /\ rows out = filter (fun r => negb (PAGE_ROW_RE (page_text (columns df) r)))
                          (rows df)
          /\ forall r, In r (rows out)
                       <-> In r (rows df)
                           /\ ~ page_marker (chars_of (page_text (columns df) r)))
  /\ remove_page_rows float_repr
       {| columns := ["vendor_name"; "amount"];
          rows := [[Str "Page 3"; NA]; [Str "Village Page Clinic"; Num 10]] |}
     = Ok {| columns := ["vendor_name"; "amount"];
             rows := [[Str "Village Page Clinic"; Num 10]] |}.
Proof.
  split; [exact page_row_re_spec|]. split; [|reflexivity].
  intros df Hv Hnd.
  assert (Hret : exists out, remove_page_rows float_repr df = Ok out).
  { unfold remove_page_rows. rewrite Hv, (NoDup_not_repeated _ df Hnd).
    cbn [negb orb]. destruct (empty df); eauto. }
  destruct Hret as (out & H). exists out. split; [exact H|].
  destruct (remove_page_rows_rows df out Hv H) as [Hc Hr].
  split; [exact Hc|]. split; [exact Hr|].
  intros r. rewrite Hr, filter_In, negb_true_iff, <- page_row_re_spec.
  split; intros [Hin Hm]; (split; [exact Hin|]).
  - now rewrite Hm.
  - now destruct (PAGE_ROW_RE _); [exfalso; apply Hm|].
Qed.

End PageRows.

Lemma page_table_NoDup : NoDup ["vendor_name"; "amount"].
Proof.
  repeat constructor; simpl; intros H;
    repeat (destruct H as [H | H]; [discriminate H|]); exact H.
Qed.

Lemma remove_page_rows_exact_witness :
  exists out,
    remove_page_rows (fun _ => "")
      {| columns := ["vendor_name"; "amount"];
         rows := [[Str " page12"; NA]; [Str "Pager Clinic"; Num 10]] |}
    = Ok out
    /\ columns out = ["vendor_name"; "amount"]
    /\ rows out
       = filter (fun r => negb (PAGE_ROW_RE
                   (astype_str (fun _ => "") (get ["vendor_name"; "amount"] "vendor_name" r))))
           [[Str " page12"; NA]; [Str "Pager Clinic"; Num 10]]
    /\ forall r, In r (rows out)
                 <-> In r [[Str " page12"; NA]; [Str "Pager Clinic"; Num 10]]
                     /\ ~ page_marker (chars_of
                            (astype_str (fun _ => "")
                               (get ["vendor_name"; "amount"] "vendor_name" r))).
Proof.
  apply (proj1 (proj2 (remove_page_rows_exact (fun _ => "")))
           {| columns := ["vendor_name"; "amount"];
              rows := [[Str " page12"; NA]; [Str "Pager Clinic"; Num 10]] |}).
  - reflexivity.
  - exact page_table_NoDup.
Defined.

(** ** Filtering *)

Lemma is_space_lower_char c : is_space (lower_char c) = is_space c.
Proof. destruct c as [[] [] [] [] [] [] [] []]; reflexivity. Qed.

Lemma lstrip_lower s : lstrip (lower s) = lower (lstrip s).
Proof.
  induction s as [|c s IH]; [reflexivity|].
  simpl. rewrite is_space_lower_char. now destruct (is_space c).
Qed.

Lemma rev_lower s : rev (lower s) = lower (rev s).
Proof. unfold lower. symmetry. apply map_rev. Qed.

Lemma strip_lower s : strip (lower s) = lower (strip s).
Proof.
  unfold strip. now rewrite lstrip_lower, rev_lower, lstrip_lower, rev_lower.
Qed.

Lemma py_strip_lower s : py_strip (py_lower s) = py_lower (py_strip s).
Proof.
  unfold py_strip, py_lower. rewrite !chars_of_str_of. f_equal. apply strip_lower.
Qed.

Lemma filter_filter {A} (p q : A -> bool) l :
  filter q (filter p l) = filter (fun x => p x && q x) l.
Proof.
  induction l as [|x l IH]; [reflexivity|]. simpl.
  destruct (p x); simpl; [destruct (q x)|]; now rewrite IH.
Qed.

Section FilterProperties.

Variable py_title : string -> string.

Local Abbreviation fdata := (filter_data py_title).

(** The three tests of [filter_data], each one passed by every row when
    its argument is absent. *)
Definition keep_vendor (vendors : option (list string)) (c : cell) : bool :=
  if truthy vendors
  then vendor_keep (map (fun v => py_strip (py_lower v)) (items vendors)) c
  else true.

Definition keep_month (months : option (list string)) (c : cell) : bool :=
  if truthy months then month_keep (map py_title (items months)) c else true.

Definition keep_year (years : option (list Z)) (c : cell) : bool :=
  if truthy years then year_keep (items years) c else true.

(** Whether [filter_data] applies the test of a column. *)
Definition applies {A} (arg : option (list A)) (name : string) (df : DataFrame)
    : bool :=
  truthy arg && has_col name df.

Lemma filter_rows_true df : filter_rows (fun _ => true) df = df.
Proof.
  destruct df as [cols rs]. unfold filter_rows. cbn [columns rows]. f_equal.
  apply filter_all_true. apply Forall_forall. reflexivity.
Qed.

Lemma guarded_filter (b : bool) p df :
  (if b then filter_rows p df else df)
  = filter_rows (fun r => if b then p r else true) df.
Proof. destruct b; [reflexivity | symmetry; apply filter_rows_true]. Qed.

Lemma filter_rows_twice p q df :
  filter_rows q (filter_rows p df) = filter_rows (fun r => p r && q r) df.
Proof. unfold filter_rows. cbn [columns rows]. f_equal. apply filter_filter. Qed.

Lemma filter_rows_ext p q df :
  (forall r, p r = q r) -> filter_rows p df = filter_rows q df.
Proof. intros H. unfold filter_rows. f_equal. now apply filter_ext. Qed.

(** [filter_data] in one step: the rows that pass the tests of the columns
    the table has. *)
Lemma filter_data_ok df vendors months years out :
  fdata df vendors months years = Ok out ->
  out = filter_rows
          (fun r =>
             (if applies vendors "vendor_name" df
              then keep_vendor vendors (get (columns df) "vendor_name" r) else true)
             && (if applies months "report_month" df
                 then keep_month months (get (columns df) "report_month" r) else true)
             && (if applies years "report_year" df
                 then keep_year years (get (columns df) "report_year" r) else true))
          df.
Proof.
  unfold filter_data. intros H. apply bind_ok in H as (out1 & H1 & H).
  injection H as <-.
  assert (E1 : out1 = filter_rows
                 (fun r => if truthy vendors && has_col "vendor_name" df
                           then vendor_keep
                                  (map (fun v => py_strip (py_lower v)) (items vendors))
                                  (get (columns df) "vendor_name" r)
                           else true) df).
  { destruct (truthy vendors && has_col "vendor_name" df) eqn:Ev.
    - destruct (repeated "vendor_name" df); [discriminate|].
      destruct (str_accessor_ok _); [|discriminate]. now injection H1 as <-.
    - injection H1 as <-. symmetry. apply filter_rows_true. }
  clear H1. subst out1. cbv zeta.
  unfold applies, keep_vendor, keep_month, keep_year, has_col.
  cbn [columns filter_rows].
  change {| columns := columns df; rows := filter ?p (rows df) |}
    with (filter_rows p df).
  rewrite (guarded_filter (truthy months && _)).
  rewrite filter_rows_twice.
  cbn [columns filter_rows].
  change {| columns := columns df; rows := filter ?p (rows df) |}
    with (filter_rows p df).
  rewrite (guarded_filter (truthy years && _)).
  rewrite filter_rows_twice.
  apply filter_rows_ext. intros r.
  destruct (truthy vendors), (truthy months), (truthy years),
    (mem_str "vendor_name" (columns df)), (mem_str "report_month" (columns df)),
    (mem_str "report_year" (columns df)); reflexivity.
Qed.

(** Two vendor names are the same when their trimmed forms agree up to
    case. *)
Definition same_vendor (a b : string) : Prop :=
  py_lower (py_strip a) = py_lower (py_strip b).

(** The comparison of a row with a listed name: the name of the row in
    lower case is the listed name in lower case, trimmed. *)
Definition listed_as (s v : string) : Prop :=
  py_lower s = py_strip (py_lower v).

(** The criteria of a row.  An argument asks something when it is a list
    with at least one element; [None] and the empty list ask nothing. *)
Definition vendor_ok (vendors : option (list string)) (c : cell) : Prop :=
  match vendors with
  | Some (v :: vs) => exists s x, c = Str s /\ In x (v :: vs) /\ listed_as s x
  | Some [] => True
  | None => True
  end.

Definition month_ok (months : option (list string)) (c : cell) : Prop :=
  match months with
  | Some (m :: ms) => exists t x, c = Str t /\ In x (m :: ms) /\ t = py_title x
  | Some [] => True
  | None => True
  end.

Definition year_ok (years : option (list Z)) (c : cell) : Prop :=
  match years with
  | Some (y :: ys) => exists q x, c = Num q /\ In x (y :: ys) /\ (q == inject_Z x)%Q
  | Some [] => True
  | None => True
  end.

(** A vendor cell as [standardize] leaves it: a trimmed text. *)
Definition trimmed_text (c : cell) : Prop :=
  exists s, c = Str s /\ py_strip s = s.

Lemma keep_vendor_ok vendors c : keep_vendor vendors c = true <-> vendor_ok vendors c.
Proof.
  destruct vendors as [[|v vs]|]; cbn [keep_vendor vendor_ok truthy items];
    try tauto.
  destruct c as [|s|q]; cbn [vendor_keep].
  - split; [discriminate | now intros (? & ? & ? & _)].
  - rewrite mem_str_In, in_map_iff. unfold listed_as. split.
    + intros (x & E & Hx). now exists s, x.
    + intros (s' & x & [= <-] & Hx & E). now exists x.
  - split; [discriminate | now intros (? & ? & ? & _)].
Qed.

Lemma keep_month_ok months c : keep_month months c = true <-> month_ok months c.
Proof.
  destruct months as [[|m ms]|]; cbn [keep_month month_ok truthy items];
    try tauto.
  destruct c as [|t|q]; cbn [month_keep].
  - split; [discriminate | now intros (? & ? & ? & _)].
  - rewrite mem_str_In, in_map_iff. split.
    + intros (x & E & Hx). now exists t, x.
    + intros (t' & x & [= <-] & Hx & E). now exists x.
  - split; [discriminate | now intros (? & ? & ? & _)].
Qed.

Lemma keep_year_ok years c : keep_year years c = true <-> year_ok years c.
Proof.
  destruct years as [[|y ys]|]; cbn [keep_year year_ok truthy items];
    try tauto.
  destruct c as [|t|q]; cbn [year_keep].
  - split; [discriminate | now intros (? & ? & ? & _)].
  - split; [discriminate | now intros (? & ? & ? & _)].
  - rewrite existsb_exists. split.
    + intros (x & Hx & E). exists q, x. repeat split; auto.
      now apply Qeq_bool_iff.
    + intros (q' & x & [= <-] & Hx & E).
      exists x. split; [exact Hx|]. now apply Qeq_bool_iff.
Qed.

(** A criterion is applied when its column is there. *)
Lemma applied_criterion {A} (arg : option (list A)) n df (k : bool) (P : Prop) :
  (truthy arg = false -> k = true) -> (k = true <-> P) ->
  ((if applies arg n df then k else true) = true <-> (has_col n df = true -> P)).
Proof.
  unfold applies. intros Hk HP.
  destruct (has_col n df); [|rewrite andb_false_r; split; [discriminate | reflexivity]].
  rewrite andb_true_r. destruct (truthy arg) eqn:E.
  - rewrite HP. tauto.
  - rewrite <- HP, (Hk eq_refl). tauto.
Qed.

Lemma str_accessor_text col :
  Forall (fun c => is_str c = true) col -> str_accessor_ok col = true.
Proof.
  unfold str_accessor_ok. intros H. destruct H as [|c col Hc _]; [reflexivity|].
  cbn. now rewrite Hc.
Qed.

Lemma filter_data_returns df vendors months years :
  (has_col "vendor_name" df = true ->
   repeated "vendor_name" df = false
   /\ Forall (fun c => is_str c = true) (column "vendor_name" df)) ->
  exists out, fdata df vendors months years = Ok out.
Proof.
  intros H. unfold filter_data.
  destruct (truthy vendors && has_col "vendor_name" df) eqn:E.
  - apply andb_true_iff in E as [_ E]. destruct (H E) as [-> Ht].
    rewrite (str_accessor_text _ Ht). cbn [bind]. eauto.
  - cbn [bind]. eauto.
Qed.

(** C7, as the code has it.  On a dataset with distinct labels
    [filter_data] returns when the vendor column, if there is one, holds
    text, and what it returns is exactly the rows, in their order, that
    meet the criterion of every column the dataset has: the name of the
    row, in lower case, is a listed name, lower-cased and trimmed (the
    listed names are trimmed, the names of the dataset are not); the month
    is the title-cased form of a listed month; the year is a listed year.
    An argument that is [None] or an empty list asks nothing, and with no
    argument, or with empty lists, the dataset comes back as it is.  On a
    trimmed name of the dataset the comparison is the one of the trimmed
    names without case. *)
Theorem filter_data_exact :
  (forall df, fdata df None None None = Ok df)
  /\ (forall df, fdata df (Some []) (Some []) (Some []) = Ok df)
  /\ (forall df vendors months years,
        NoDup (columns df) ->
        ((has_col "vendor_name" df = true ->
          Forall (fun c => is_str c = true) (column "vendor_name" df)) ->
         is_ok (fdata df vendors months years) = true)
        /\ forall out,
             fdata df vendors months years = Ok out ->
             exists keep,
               out = filter_rows keep df
               /\ forall r,
                    keep r = true
                    <-> (has_col "vendor_name" df = true ->
                         vendor_ok vendors (get (columns df) "vendor_name" r))
                        /\ (has_col "report_month" df = true ->
                            month_ok months (get (columns df) "report_month" r))
                        /\ (has_col "report_year" df = true ->
                            year_ok years (get (columns df) "report_year" r)))
  /\ (forall s v, py_strip s = s -> (listed_as s v <-> same_vendor s v)).
Proof.
  split; [reflexivity|]. split; [reflexivity|]. split.
  - intros df vendors months years Hnd. split.
    + intros Ht. destruct (filter_data_returns df vendors months years) as (out & ->);
        [|reflexivity].
      intros Hv. split; [now apply NoDup_not_repeated | now apply Ht].
    + intros out H. eexists.
      split; [exact (filter_data_ok df vendors months years out H)|].
      intros r. cbv beta. rewrite !andb_true_iff.
      rewrite (applied_criterion vendors "vendor_name" df _
                 (vendor_ok vendors (get (columns df) "vendor_name" r)));
        [|unfold keep_vendor; now intros -> | apply keep_vendor_ok].
      rewrite (applied_criterion months "report_month" df _
                 (month_ok months (get (columns df) "report_month" r)));
        [|unfold keep_month; now intros -> | apply keep_month_ok].
      rewrite (applied_criterion years "report_year" df _
                 (year_ok years (get (columns df) "report_year" r)));
        [|unfold keep_year; now intros -> | apply keep_year_ok].
      tauto.
  - intros s v Hs. unfold listed_as, same_vendor.
    now rewrite Hs, py_strip_lower.
Qed.

(** C10, as the code has it.  On a dataset with distinct labels whose
    vendor column, when there is one, holds texts, [filter_data] returns a
    table of rows of the input, whatever the arguments.  A criterion whose
    column is missing is not applied: the result is the one obtained
    without that argument. *)
Theorem filter_data_total df vendors months years :
  NoDup (columns df) ->
  (has_col "vendor_name" df = true ->
   Forall (fun c => is_str c = true) (column "vendor_name" df)) ->
  (exists out, fdata df vendors months years = Ok out
               /\ columns out = columns df
               /\ incl (rows out) (rows df))
  /\ (has_col "vendor_name" df = false ->
      fdata df vendors months years = fdata df None months years)
  /\ (has_col "report_month" df = false ->
      fdata df vendors months years = fdata df vendors None years)
  /\ (has_col "report_year" df = false ->
      fdata df vendors months years = fdata df vendors months None).
Proof.
  intros Hnd Ht. split; [|split; [|split]].
  - destruct (filter_data_returns df vendors months years) as (out & H).
    { intros Hv. split; [now apply NoDup_not_repeated | now apply Ht]. }
    exists out. split; [exact H|].
    rewrite (filter_data_ok df vendors months years out H).
    split; [reflexivity|]. cbn [rows filter_rows]. apply incl_filter.
  - intros H. unfold filter_data. rewrite H, andb_false_r. reflexivity.
  - intros H. unfold filter_data.
    destruct (truthy vendors && has_col "vendor_name" df);
      [destruct (repeated "vendor_name" df); [reflexivity|];
       destruct (str_accessor_ok _); [|reflexivity]|];
      cbn [bind]; unfold has_col in *; cbn [columns filter_rows];
      rewrite H, andb_false_r; reflexivity.
  - intros H. unfold filter_data.
    destruct (truthy vendors && has_col "vendor_name" df);
      [destruct (repeated "vendor_name" df); [reflexivity|];
       destruct (str_accessor_ok _); [|reflexivity]|];
      cbn [bind]; unfold has_col in *; cbv zeta;
      destruct (truthy months && _); cbn [columns filter_rows];
      rewrite H, andb_false_r; reflexivity.
Qed.

End FilterProperties.

(** A small standardized dataset. *)
Definition sample_dataset : DataFrame :=
  {| columns := ["vendor_name"; "amount"; "report_month"; "report_year"];
     rows := [[Str "Acme Clinic"; Num 100; Str "January"; Num 2024];
              [Str "acme clinic"; NA; Str "March"; Num 2024];
              [Str "Beta Hospital"; Num (5 # 2); Str "January"; Num 2025]] |}.

Lemma sample_dataset_NoDup : NoDup (columns sample_dataset).
Proof.
  repeat constructor; simpl; intros H;
    repeat (destruct H as [H | H]; [discriminate H|]); exact H.
Qed.

Lemma filter_data_exact_witness :
  ((has_col "vendor_name" sample_dataset = true ->
    Forall (fun c => is_str c = true) (column "vendor_name" sample_dataset)) ->
   is_ok (filter_data (fun s => s) sample_dataset (Some [" ACME clinic"]) None
            (Some [2024%Z])) = true)
  /\ forall out,
       filter_data (fun s => s) sample_dataset (Some [" ACME clinic"]) None
         (Some [2024%Z]) = Ok out ->
       exists keep,
         out = filter_rows keep sample_dataset
         /\ forall r,
              keep r = true
              <-> (has_col "vendor_name" sample_dataset = true ->
                   vendor_ok (Some [" ACME clinic"])
                     (get (columns sample_dataset) "vendor_name" r))
                  /\ (has_col "report_month" sample_dataset = true ->
                      month_ok (fun s => s) None
                        (get (columns sample_dataset) "report_month" r))
                  /\ (has_col "report_year" sample_dataset = true ->
                      year_ok (Some [2024%Z])
                        (get (columns sample_dataset) "report_year" r)).
Proof.
  apply (proj1 (proj2 (proj2 (filter_data_exact (fun s => s))))).
  exact sample_dataset_NoDup.
Defined.

(** C7 as stated fails: only the listed names are trimmed.  The first row
    has the listed name once both are trimmed and case is set aside, and
    [filter_data] leaves it out; a vendor name of the dataset is compared
    as it stands. *)
Lemma filter_data_untrimmed_row :
  same_vendor " Acme" "Acme "
  /\ filter_data (fun s => s)
       {| columns := ["vendor_name"]; rows := [[Str " Acme"]; [Str "ACME"]] |}
       (Some ["Acme "]) None None
     = Ok {| columns := ["vendor_name"]; rows := [[Str "ACME"]] |}.
Proof. split; reflexivity. Qed.

(** C10 as stated fails: on a vendor column of numbers the [.str] accessor
    raises. *)
Lemma filter_data_raises_on_numeric_vendor :
  filter_data (fun s => s)
    {| columns := ["vendor_name"; "amount"]; rows := [[Num 101; Num 5]] |}
    (Some ["101"]) None None
  = Raise AttributeError.
Proof. reflexivity. Qed.

Lemma filter_data_total_witness :
  (exists out,
      filter_data (fun s => s) sample_dataset (Some ["Beta Hospital"]) (Some ["january"]) None
      = Ok out
      /\ columns out = columns sample_dataset
      /\ incl (rows out) (rows sample_dataset))
  /\ (has_col "vendor_name" sample_dataset = false ->
      filter_data (fun s => s) sample_dataset (Some ["Beta Hospital"]) (Some ["january"]) None
      = filter_data (fun s => s) sample_dataset None (Some ["january"]) None)
  /\ (has_col "report_month" sample_dataset = false ->
      filter_data (fun s => s) sample_dataset (Some ["Beta Hospital"]) (Some ["january"]) None
      = filter_data (fun s => s) sample_dataset (Some ["Beta Hospital"]) None None)
  /\ (has_col "report_year" sample_dataset = false ->
      filter_data (fun s => s) sample_dataset (Some ["Beta Hospital"]) (Some ["january"]) None
      = filter_data (fun s => s) sample_dataset (Some ["Beta Hospital"]) (Some ["january"]) None).
Proof.
  apply (filter_data_total (fun s => s)).
  - exact sample_dataset_NoDup.
  - intros _. repeat constructor.
Defined.

(** ** Totals *)


Fixpoint Qsum (l : list Q) : Q :=
  match l with
  | [] => 0%Q
  | q :: r => (q + Qsum r)%Q
  end.


(** Two sums a column can have.  Additions that are exact, as those of
    [float64] are on the amounts of the samples; and the additions of
    [int64], on a column of whole numbers, which wrap around modulo
    2^64. *)
Definition exact_sum (l : list Q) : Q := Qsum l.




Section TotalsProperties.

Variable py_float : string -> option Q.
Variable np_sum : list Q -> Q.

Lemma sum_skipna_numeric col :
  Forall (fun c => is_str c = false) col ->
  sum_skipna py_float np_sum col = Ok (np_sum (map amount_or_zero col)).
Proof.
  intros H. unfold sum_skipna.
  assert (E : existsb is_str col = false).
  { induction H as [|c col Hc _ IH]; [reflexivity|]. simpl. now rewrite Hc, IH. }
  now rewrite E.
Qed.

(** The sum of no value is 0. *)
Hypothesis np_sum_nil : (np_sum [] == 0)%Q.


End TotalsProperties.


Example totals_sample :
  exists t,
    totals (fun _ => None) exact_sum sample_dataset = Ok t
    /\ (total_amount t == 102.5)%Q
    /\ total_facilities t = 3%nat /\ total_claims t = 0%nat
    /\ total_rows t = 3%nat.
Proof. eexists. split; [reflexivity|]. repeat split. Qed.


(** ** Enrichment *)

Section EnrichProperties.

Variable nfkd_ascii : string -> string.
Variable float_repr : Q -> string.
Variable token_sort_ratio : string -> string -> Q.
Variable HAVE_RAPIDFUZZ : bool.

Local Abbreviation vclean := (vendor_clean nfkd_ascii float_repr).
Local Abbreviation xrows := (exact_rows nfkd_ascii float_repr).
Local Abbreviation xjoin := (exact_join nfkd_ascii float_repr).
Local Abbreviation frow := (fuzzy_row nfkd_ascii float_repr token_sort_ratio).
Local Abbreviation enrich :=
  (enrich_with_registry nfkd_ascii float_repr token_sort_ratio HAVE_RAPIDFUZZ).

(** The number of registry entities that carry a key. *)
Definition match_count (reg : list Entity) (q : string) : nat :=
  List.length (filter (key_is q) reg).

(** The number of output rows an input row gives: one per entity of its
    key, and one when there is none. *)
Definition copies (reg : list Entity) (cols : list string) (row : list cell) : nat :=
  Nat.max 1 (match_count reg (vclean cols row)).

Lemma exact_rows_source reg cols row :
  map source (xrows reg cols row) = repeat row (copies reg cols row).
Proof.
  unfold exact_rows, copies, match_count.
  destruct (filter _ reg) as [|e es]; [reflexivity|].
  rewrite map_map. cbn [source].
  replace (Nat.max 1 (List.length (e :: es))) with (List.length (e :: es))
    by (cbn [List.length]; lia).
  generalize (e :: es). intros l. induction l; simpl; congruence.
Qed.


Lemma fuzzy_row_source reg cols cutoff r :
  source (frow reg cols cutoff r) = source r.
Proof.
  unfold fuzzy_row. destruct (unresolved r); [|reflexivity].
  destruct (best_match _ _ _ _) as [[k|] s]; reflexivity.
Qed.

Lemma enrich_enriched df reg fuzzy cutoff cols out :
  enrich df reg fuzzy cutoff = Ok (Enriched cols out) ->
  cols = columns df
  /\ ((fuzzy && HAVE_RAPIDFUZZ && existsb unresolved (xjoin reg df) = false
       /\ out = xjoin reg df)
      \/ (fuzzy = true /\ HAVE_RAPIDFUZZ = true
          /\ unique (map facility_name_clean reg) = true
          /\ out = map (frow reg (columns df) cutoff) (xjoin reg df))).
Proof.
  unfold enrich_with_registry.
  destruct (empty df || is_nil reg || negb (has_col "vendor_name" df));
    [discriminate|].
  destruct (repeated "vendor_name" df); [discriminate|].
  destruct fuzzy, HAVE_RAPIDFUZZ; cbn [negb orb andb];
    try (intros [= <- <-]; split; [reflexivity|]; left; now split).
  destruct (existsb unresolved _) eqn:Eu.
  - destruct (unique _) eqn:Eq; [|discriminate].
    intros [= <- <-]. split; [reflexivity|]. right. repeat split; auto.
  - intros [= <- <-]. split; [reflexivity|]. left. now split.
Qed.







(** ** The fuzzy pass *)

Lemma extractOne_sound q cutoff (P : string -> Q -> Prop) :
  forall choices best,
    (forall c, In c choices ->
       (inject_Z cutoff <= token_sort_ratio q c)%Q -> P c (token_sort_ratio q c)) ->
    (forall k s, best = Some (k, s) -> P k s) ->
    forall k s,
      extractOne token_sort_ratio q choices cutoff best = Some (k, s) -> P k s.
Proof.
  induction choices as [|c cs IH]; intros best Hc Hb k s H.
  - now apply Hb.
  - cbn [extractOne] in H. eapply IH; [| |exact H].
    + intros c' Hin. apply Hc. now right.
    + intros k' s'.
      destruct (Qle_bool (inject_Z cutoff) (token_sort_ratio q c)) eqn:Ele;
        cbn [andb]; [|now apply Hb].
      destruct (match best with None => true | Some (_, b) => Qlt_bool b _ end);
        [|now apply Hb].
      intros [= <- <-]. apply Hc; [now left|]. now apply Qle_bool_iff.
Qed.

Lemma best_match_sound reg cutoff q k s :
  best_match token_sort_ratio (map facility_name_clean reg) cutoff q = (Some k, s) ->
  exists e, In e reg /\ facility_name_clean e = k
            /\ s = token_sort_ratio q k
            /\ (inject_Z cutoff <= s)%Q.
Proof.
  unfold best_match. destruct (String.eqb q ""); [discriminate|].
  destruct (extractOne _ _ _ _ _) as [[k' s']|] eqn:E; [|discriminate].
  intros [= <- <-].
  apply (extractOne_sound q cutoff
           (fun k s => exists e, In e reg /\ facility_name_clean e = k
                                 /\ s = token_sort_ratio q k
                                 /\ (inject_Z cutoff <= s)%Q)
           (map facility_name_clean reg) None); [| |exact E].
  - intros c Hin Hle. apply in_map_iff in Hin as (e & <- & He). now exists e.
  - discriminate.
Qed.

Lemma best_match_none reg cutoff q s :
  best_match token_sort_ratio (map facility_name_clean reg) cutoff q = (None, s) ->
  s = 0%Q.
Proof.
  unfold best_match. destruct (String.eqb q ""); [now intros [= <-]|].
  destruct (extractOne _ _ _ _ _) as [[k' s']|]; [discriminate|]. now intros [= <-].
Qed.

Lemma reg_take_some reg k a :
  reg_take reg k = Some a ->
  exists e, In e reg /\ facility_name_clean e = k /\ attrs e = a.
Proof.
  unfold reg_take. destruct (find (key_is k) reg) as [e|] eqn:E; [|discriminate].
  intros [= <-]. apply find_some in E as [He Hk]. exists e.
  repeat split; auto. symmetry. now apply String.eqb_eq.
Qed.

(** A row of the merge that comes from an input row without any entity
    of its key. *)
Lemma exact_rows_unmatched reg cols row er :
  (forall e, In e reg -> facility_name_clean e <> vclean cols row) ->
  In er (xrows reg cols row) ->
  er = {| source := row; registry := null_attrs; match_score := NA |}.
Proof.
  intros Hno. unfold exact_rows.
  destruct (filter _ reg) as [|e es] eqn:E.
  - now intros [<-|[]].
  - exfalso. assert (He : In e (filter (key_is (vclean cols row)) reg))
      by (rewrite E; now left).
    apply filter_In in He as [He Hk]. apply String.eqb_eq in Hk.
    now apply (Hno e He).
Qed.

Lemma exact_join_unmatched reg df er :
  (forall e, In e reg -> facility_name_clean e <> vclean (columns df) (source er)) ->
  In er (xjoin reg df) ->
  er = {| source := source er; registry := null_attrs; match_score := NA |}.
Proof.
  intros Hno Hin. unfold exact_join in Hin.
  apply in_flat_map in Hin as (row & _ & Hin).
  assert (Hs : source er = row).
  { assert (H : In (source er) (map source (xrows reg (columns df) row)))
      by (now apply in_map).
    rewrite exact_rows_source in H. now apply repeat_spec in H. }
  rewrite Hs in *. now apply (exact_rows_unmatched reg (columns df) row).
Qed.

(** C1.  In the fuzzy pass, a row that the exact pass left without a match
    is changed only by a match it accepts, and it accepts only an entity
    whose similarity to the row's canonical name reaches the cutoff of the
    call (92 unless another is given); its score is then that similarity.
    When every entity scores below the cutoff the row stays unresolved,
    all its registry attributes missing, with score 0.  What an accepted
    match writes into the registry columns is the dictionary of the
    entity's attributes. *)
Theorem fuzzy_match_needs_cutoff df reg score_cutoff cols out er :
  HAVE_RAPIDFUZZ = true ->
  enrich df reg true (cutoff_of score_cutoff) = Ok (Enriched cols out) ->
  In er out ->
  (forall e, In e reg -> facility_name_clean e <> vclean cols (source er)) ->
  (registry er <> null_attrs ->
   exists e, In e reg
             /\ registry er = Dicts (attrs e)
             /\ (inject_Z (cutoff_of score_cutoff)
                 <= token_sort_ratio (vclean cols (source er)) (facility_name_clean e))%Q
             /\ match_score er
                = Num (token_sort_ratio (vclean cols (source er))
                         (facility_name_clean e)))
  /\ ((forall e, In e reg ->
         (token_sort_ratio (vclean cols (source er)) (facility_name_clean e)
          < inject_Z (cutoff_of score_cutoff))%Q) ->
      registry er = null_attrs /\ match_score er = Num 0)
  /\ (score_cutoff = None -> cutoff_of score_cutoff = 92%Z).
Proof.
  intros Hhave H Hin Hno.
  split; [|split; [|now intros ->]].
  all: apply enrich_enriched in H as (-> & [(Hu & ->) | (_ & _ & Huniq & ->)]).
  1, 3: exfalso; rewrite Hhave in Hu; cbn [andb] in Hu;
    pose proof (exact_join_unmatched reg df er Hno Hin) as E;
    assert (Hx : existsb unresolved (xjoin reg df) = true)
      by (apply existsb_exists; exists er; split; [exact Hin | now rewrite E]);
    congruence.
  all: apply in_map_iff in Hin as (er0 & <- & Hin0);
    rewrite fuzzy_row_source in *;
    pose proof (exact_join_unmatched reg df er0 Hno Hin0) as E;
    set (q := vclean (columns df) (source er0)) in *;
    assert (Eu : unresolved er0 = true) by (now rewrite E);
    unfold fuzzy_row; rewrite Eu; fold q;
    destruct (best_match _ _ _ q) as [[k|] s] eqn:Eb; cbn [registry match_score].
  - apply best_match_sound in Eb as (e & He & Hk & Hs & Hle).
    intros Hnn. destruct (reg_take reg k) as [a|] eqn:Et; [|congruence].
    apply reg_take_some in Et as (e' & He' & Hk' & <-).
    exists e'. rewrite Hk', Hs. repeat split; auto. now rewrite <- Hs.
  - apply best_match_none in Eb as ->. rewrite E. cbn [registry]. congruence.
  - apply best_match_sound in Eb as (e & He & Hk & Hs & Hle).
    intros Hall. exfalso. specialize (Hall e He).
    rewrite Hk, <- Hs in Hall. now apply (Qlt_not_le _ _ Hall).
  - apply best_match_none in Eb as ->. rewrite E. cbn [registry]. now split.
Qed.

End EnrichProperties.

(** ** Enrichment on a small registry *)

Definition acme : Entity :=
  {| facility_name_clean := "acme";
     attrs := {| facility_id := Num 17; official_name := Str "Acme Clinic";
                 name := Str "Acme"; county := Str "Nairobi"; sub_county := NA;
                 facility_type := Str "Clinic"; keph_level := Str "Level 2" |} |}.


Definition payments : DataFrame :=
  {| columns := ["vendor_name"; "amount"];
     rows := [[Str "ACME  Clinic!!"; Num 10]; [Str "Acme Klinik"; Num 20]] |}.

Definition klinik_payment : DataFrame :=
  {| columns := ["vendor_name"; "amount"];
     rows := [[Str "Acme Klinik"; Num 20]] |}.

(** A scorer for the examples: 100 on equal texts and 50 otherwise. *)
Definition equal_or_half (a b : string) : Q :=
  if String.eqb a b then 100%Q else 50%Q.




(** A scorer that finds every pair alike. *)
Definition always_95 (a b : string) : Q := 95%Q.

Lemma fuzzy_match_needs_cutoff_witness :
  (exists e, In e [acme]
             /\ Dicts (attrs acme) = Dicts (attrs e)
             /\ (inject_Z (cutoff_of None)
                 <= always_95 "acme klinik" (facility_name_clean e))%Q
             /\ Num 95 = Num (always_95 "acme klinik" (facility_name_clean e)))
  /\ (Merged null_attrs = null_attrs /\ Num 0 = Num 0)
  /\ cutoff_of None = 92%Z.
Proof.
  split; [|split].
  - refine (proj1 (fuzzy_match_needs_cutoff ascii_only (fun _ => "") always_95 true
                     klinik_payment [acme] None (columns klinik_payment)
                     [ {| source := [Str "Acme Klinik"; Num 20];
                          registry := Dicts (attrs acme); match_score := Num 95 |} ]
                     {| source := [Str "Acme Klinik"; Num 20];
                        registry := Dicts (attrs acme); match_score := Num 95 |}
                     _ _ _ _) _).
    + reflexivity.
    + reflexivity.
    + now left.
    + intros e [<-|[]]. discriminate.
    + discriminate.
  - refine (proj1 (proj2
              (fuzzy_match_needs_cutoff ascii_only (fun _ => "") equal_or_half true
                 klinik_payment [acme] None (columns klinik_payment)
                 [ {| source := [Str "Acme Klinik"; Num 20]; registry := null_attrs;
                      match_score := Num 0 |} ]
                 {| source := [Str "Acme Klinik"; Num 20]; registry := null_attrs;
                    match_score := Num 0 |}
                 _ _ _ _)) _).
    + reflexivity.
    + reflexivity.
    + now left.
    + intros e [<-|[]]. discriminate.
    + intros e [<-|[]]. reflexivity.
  - refine (proj2 (proj2
              (fuzzy_match_needs_cutoff ascii_only (fun _ => "") equal_or_half true
                 klinik_payment [acme] None (columns klinik_payment)
                 [ {| source := [Str "Acme Klinik"; Num 20]; registry := null_attrs;
                      match_score := Num 0 |} ]
                 {| source := [Str "Acme Klinik"; Num 20]; registry := null_attrs;
                    match_score := Num 0 |}
                 _ _ _ _)) eq_refl).
    + reflexivity.
    + reflexivity.
    + now left.
    + intros e [<-|[]]. discriminate.
Defined.

(* ===================================================================== *)
(** * Further properties: loading *)
(* ===================================================================== *)

(** ** Dropping the claims columns *)

Definition REDUNDANT : list string := ["claims"; "claims_numeric"].

Lemma drop_at_ext cols n1 n2 : forall row,
  (forall c, In c cols -> mem_str c n1 = mem_str c n2) ->
  drop_at cols n1 row = drop_at cols n2 row.
Proof.
  induction cols as [|c cols IH]; intros [|v row] H; try reflexivity.
  cbn [drop_at]. rewrite (H c (or_introl eq_refl)).
  rewrite (IH row) by (intros c' Hc'; apply H; now right). reflexivity.
Qed.

Lemma drop_at_nil cols : forall row, drop_at cols [] row = row.
Proof.
  induction cols as [|c cols IH]; intros [|v row]; try reflexivity.
  cbn. now rewrite IH.
Qed.

Lemma drop_columns_ext n1 n2 df :
  (forall c, In c (columns df) -> mem_str c n1 = mem_str c n2) ->
  drop_columns n1 df = drop_columns n2 df.
Proof.
  intros H. unfold drop_columns. f_equal.
  - apply filter_ext_in. intros c Hc. now rewrite (H c Hc).
  - apply map_ext. intros row. now apply drop_at_ext.
Qed.

Lemma drop_columns_nil df : drop_columns [] df = df.
Proof.
  destruct df as [cols rs]. unfold drop_columns. cbn [columns rows]. f_equal.
  - apply filter_all_true. apply Forall_forall. reflexivity.
  - rewrite <- (map_id rs) at 2. apply map_ext. apply drop_at_nil.
Qed.

Lemma absent_label_neq n df c :
  has_col n df = false -> In c (columns df) -> String.eqb c n = false.
Proof.
  intros Hn Hc. destruct (String.eqb_spec c n) as [->|]; [|reflexivity].
  apply mem_str_In in Hc. unfold has_col in Hn. congruence.
Qed.

Lemma drop_redundant_columns_eq df :
  drop_redundant_columns df = drop_columns REDUNDANT df.
Proof.
  unfold drop_redundant_columns, REDUNDANT. cbn [filter].
  destruct (has_col "claims" df) eqn:H1, (has_col "claims_numeric" df) eqn:H2;
    cbn [is_nil].
  - reflexivity.
  - apply drop_columns_ext. intros c Hc. cbn.
    now rewrite (absent_label_neq _ _ _ H2 Hc).
  - apply drop_columns_ext. intros c Hc. cbn.
    now rewrite (absent_label_neq _ _ _ H1 Hc).
  - rewrite <- (drop_columns_nil df) at 1. apply drop_columns_ext.
    intros c Hc. cbn.
    now rewrite (absent_label_neq _ _ _ H1 Hc), (absent_label_neq _ _ _ H2 Hc).
Qed.

Lemma lookup_nil cols n : lookup cols n [] = None.
Proof. now destruct cols. Qed.

Lemma lookup_drop_at names n cols : forall row,
  mem_str n names = false ->
  lookup (filter (fun c => negb (mem_str c names)) cols) n (drop_at cols names row)
  = lookup cols n row.
Proof.
  induction cols as [|c cols IH]; intros [|v row] Hn; try reflexivity.
  - cbn [drop_at]. now rewrite !lookup_nil.
  - cbn [filter drop_at lookup]. destruct (mem_str c names) eqn:Hc; cbn [negb].
    + destruct (String.eqb_spec c n) as [->|]; [congruence|]. now apply IH.
    + cbn [lookup]. destruct (String.eqb c n); [reflexivity|]. now apply IH.
Qed.

Lemma has_col_drop_columns names n df :
  mem_str n names = true -> has_col n (drop_columns names df) = false.
Proof.
  intros Hn. unfold has_col, drop_columns. cbn [columns].
  destruct (mem_str n (filter _ (columns df))) eqn:E; [|reflexivity].
  apply mem_str_In, filter_In in E as [_ E]. now rewrite Hn in E.
Qed.

(** X1.  [drop_redundant_columns] removes the columns [claims] and
    [claims_numeric] and nothing else: the other columns stay in their
    order, every row stays and keeps its cells under the other labels; a
    second pass changes nothing. *)
Theorem drop_redundant_columns_spec df :
  let out := drop_redundant_columns df in
  columns out = filter (fun c => negb (mem_str c REDUNDANT)) (columns df)
  /\ has_col "claims" out = false
  /\ has_col "claims_numeric" out = false
  /\ Forall2 (fun r r' => forall n, mem_str n REDUNDANT = false ->
                lookup (columns out) n r' = lookup (columns df) n r)
       (rows df) (rows out)
  /\ drop_redundant_columns out = out.
Proof.
  cbv zeta. rewrite drop_redundant_columns_eq.
  assert (H1 : has_col "claims" (drop_columns REDUNDANT df) = false)
    by (now apply has_col_drop_columns).
  assert (H2 : has_col "claims_numeric" (drop_columns REDUNDANT df) = false)
    by (now apply has_col_drop_columns).
  split; [reflexivity|]. split; [exact H1|]. split; [exact H2|]. split.
  - cbn [columns rows drop_columns]. apply Forall2_map_r.
    intros r n Hn. now apply lookup_drop_at.
  - unfold drop_redundant_columns at 1. cbn [filter]. now rewrite H1, H2.
Qed.

(** ** The cells of a standardized table *)

Lemma lookup_Some_label cols n : forall row c,
  lookup cols n row = Some c -> mem_str n cols = true.
Proof.
  induction cols as [|d cols IH]; intros [|v row] c H; try discriminate H.
  cbn in *. rewrite (String.eqb_sym n d).
  destruct (String.eqb d n); [reflexivity|]. cbn. eauto.
Qed.

Lemma Forall2_Forall_r {A B} (P : A -> B -> Prop) (Q : B -> Prop) l l' :
  Forall2 P l l' -> (forall x y, P x y -> Q y) -> Forall Q l'.
Proof. intros H12 HPQ. induction H12; constructor; eauto. Qed.

Section StandardizedTables.

Variable float_repr : Q -> string.
Variable to_numeric_text : string -> option Q.
Variable py_title : string -> string.

Local Abbreviation stdz' := (standardize float_repr to_numeric_text py_title).
Local Abbreviation tonum := (to_numeric to_numeric_text).
Local Abbreviation srow := (std_row float_repr to_numeric_text py_title).

(** What [standardize] does to a cell, by the label of its column. *)
Definition std_cell (n : string) : cell -> cell :=
  if String.eqb n "vendor_name" then vendor_cell float_repr
  else if String.eqb n "amount" then amount_cell float_repr to_numeric_text
  else if String.eqb n "report_year" then tonum
  else if String.eqb n "report_month" then month_cell float_repr py_title
  else if String.eqb n "schedule" then tonum
  else if String.eqb n "county" then county_cell float_repr
  else if String.eqb n "sub_county" then county_cell float_repr
  else if String.eqb n "latitude" then tonum
  else if String.eqb n "longitude" then tonum
  else fun c => c.

Lemma lookup_std_row cols n row :
  lookup cols n (srow cols row) = option_map (std_cell n) (lookup cols n row).
Proof.
  unfold std_row, std_cell. rewrite !lookup_map_at.
  repeat match goal with
         | |- context [String.eqb ?a n] =>
             rewrite (String.eqb_sym a n);
             destruct (String.eqb_spec n a) as [->|_];
             [cbn; now destruct (lookup cols _ row)|]
         end.
  now destruct (lookup cols n row).
Qed.

Lemma rewrite_col_not_repeated e n f out out' :
  rewrite_col e n f out = Ok out' -> has_col n out = true ->
  repeated n out = false.
Proof.
  unfold rewrite_col. intros H Hn. rewrite Hn in H.
  now destruct (repeated n out).
Qed.

Lemma int64_col_checked n out out' :
  int64_col to_numeric_text n out = Ok out' -> has_col n out = true ->
  repeated n out = false
  /\ Forall (fun c => integral (tonum c) = true) (column n out).
Proof.
  unfold int64_col. intros H Hn. rewrite Hn in H.
  destruct (repeated n out); [discriminate|]. split; [reflexivity|].
  destruct (forallb _ _) eqn:E; [|discriminate].
  apply Forall_forall. now apply (proj1 (forallb_forall _ _) E).
Qed.

Lemma column_map_col n m f df :
  String.eqb m n = false -> column n (map_col m f df) = column n df.
Proof.
  intros Hmn. unfold column, map_col. cbn [columns rows]. rewrite map_map.
  apply map_ext. intros r. unfold get. now rewrite lookup_map_at, Hmn.
Qed.

Lemma has_col_map_col n m f df : has_col n (map_col m f df) = has_col n df.
Proof. reflexivity. Qed.

Lemma repeated_map_col n m f df : repeated n (map_col m f df) = repeated n df.
Proof. reflexivity. Qed.

(** What the success of [standardize] says about the renamed table: the
    labels it works on are not repeated, and the years and schedules are
    whole numbers. *)
Lemma standardize_checks df out :
  stdz' df = Ok out -> empty df = false ->
  let rn := rename df in
  (forall n, In n ["vendor_name"; "amount"; "report_year"; "report_month";
                   "schedule"; "county"; "sub_county"; "latitude"; "longitude"] ->
             has_col n rn = true -> repeated n rn = false)
  /\ (forall n, In n ["report_year"; "schedule"] -> has_col n rn = true ->
                Forall (fun c => integral (tonum c) = true) (column n rn)).
Proof.
  unfold standardize. intros H He. rewrite He in H. cbv zeta.
  apply bind_ok in H as (o1 & H1 & H). pose proof (rewrite_col_ok _ _ _ _ _ H1) as E1.
  apply bind_ok in H as (o2 & H2 & H). pose proof (rewrite_col_ok _ _ _ _ _ H2) as E2.
  apply bind_ok in H as (o3 & H3 & H). pose proof (int64_col_ok _ _ _ _ H3) as E3.
  apply bind_ok in H as (o4 & H4 & H). pose proof (rewrite_col_ok _ _ _ _ _ H4) as E4.
  apply bind_ok in H as (o5 & H5 & H). pose proof (int64_col_ok _ _ _ _ H5) as E5.
  apply bind_ok in H as (o6 & H6 & H). pose proof (rewrite_col_ok _ _ _ _ _ H6) as E6.
  apply bind_ok in H as (o7 & H7 & H). pose proof (rewrite_col_ok _ _ _ _ _ H7) as E7.
  apply bind_ok in H as (o8 & H8 & H). pose proof (rewrite_col_ok _ _ _ _ _ H8) as E8.
  apply bind_ok in H as (o9 & H9 & H). pose proof (rewrite_col_ok _ _ _ _ _ H9) as E9.
  clear H.
  assert (Hhas : forall n o, In o [o1; o2; o3; o4; o5; o6; o7; o8] ->
                             has_col n o = has_col n (rename df)
                             /\ repeated n o = repeated n (rename df)).
  { intros n o Ho. cbn [In] in Ho.
    repeat (destruct Ho as [<- | Ho]; [subst; split; reflexivity|]).
    contradiction. }
  split.
  - intros n Hn Hc. cbn [In] in Hn.
    destruct Hn as [<-|[<-|[<-|[<-|[<-|[<-|[<-|[<-|[<-|[]]]]]]]]]].
    + now apply (rewrite_col_not_repeated _ _ _ _ _ H1).
    + rewrite <- (proj2 (Hhas "amount" o1 ltac:(cbn; tauto))).
      apply (rewrite_col_not_repeated _ _ _ _ _ H2).
      now rewrite (proj1 (Hhas "amount" o1 ltac:(cbn; tauto))).
    + rewrite <- (proj2 (Hhas "report_year" o2 ltac:(cbn; tauto))).
      apply (int64_col_checked _ _ _ H3).
      now rewrite (proj1 (Hhas "report_year" o2 ltac:(cbn; tauto))).
    + rewrite <- (proj2 (Hhas "report_month" o3 ltac:(cbn; tauto))).
      apply (rewrite_col_not_repeated _ _ _ _ _ H4).
      now rewrite (proj1 (Hhas "report_month" o3 ltac:(cbn; tauto))).
    + rewrite <- (proj2 (Hhas "schedule" o4 ltac:(cbn; tauto))).
      apply (int64_col_checked _ _ _ H5).
      now rewrite (proj1 (Hhas "schedule" o4 ltac:(cbn; tauto))).
    + rewrite <- (proj2 (Hhas "county" o5 ltac:(cbn; tauto))).
      apply (rewrite_col_not_repeated _ _ _ _ _ H6).
      now rewrite (proj1 (Hhas "county" o5 ltac:(cbn; tauto))).
    + rewrite <- (proj2 (Hhas "sub_county" o6 ltac:(cbn; tauto))).
      apply (rewrite_col_not_repeated _ _ _ _ _ H7).
      now rewrite (proj1 (Hhas "sub_county" o6 ltac:(cbn; tauto))).
    + rewrite <- (proj2 (Hhas "latitude" o7 ltac:(cbn; tauto))).
      apply (rewrite_col_not_repeated _ _ _ _ _ H8).
      now rewrite (proj1 (Hhas "latitude" o7 ltac:(cbn; tauto))).
    + rewrite <- (proj2 (Hhas "longitude" o8 ltac:(cbn; tauto))).
      apply (rewrite_col_not_repeated _ _ _ _ _ H9).
      now rewrite (proj1 (Hhas "longitude" o8 ltac:(cbn; tauto))).
  - intros n Hn Hc. cbn [In] in Hn. destruct Hn as [<-|[<-|[]]].
    + assert (Ec : column "report_year" o2 = column "report_year" (rename df)).
      { subst o2 o1. now rewrite !column_map_col. }
      rewrite <- Ec. apply (int64_col_checked _ _ _ H3).
      now rewrite (proj1 (Hhas "report_year" o2 ltac:(cbn; tauto))).
    + assert (Ec : column "schedule" o4 = column "schedule" (rename df)).
      { subst o4 o3 o2 o1. now rewrite !column_map_col. }
      rewrite <- Ec. apply (int64_col_checked _ _ _ H5).
      now rewrite (proj1 (Hhas "schedule" o4 ltac:(cbn; tauto))).
Qed.

(** The kinds of cells [standardize] leaves in the columns it knows. *)
Definition number_cell (c : cell) : Prop := is_str c = false.

Definition whole_cell (c : cell) : Prop :=
  c = NA \/ exists q z, c = Num q /\ (q == inject_Z z)%Q.

Definition month_name_cell (c : cell) : Prop :=
  c = NA \/ exists m, c = Str m /\ In m MONTH_ORDER.

Definition place_cell (c : cell) : Prop :=
  c = NA \/ exists t, c = Str t /\ py_strip t = t
                      /\ t <> "" /\ t <> "nan" /\ t <> "None".

Definition typed_row (cols : list string) (r : list cell) : Prop :=
  forall c,
    (lookup cols "amount" r = Some c -> number_cell c)
    /\ (lookup cols "report_year" r = Some c -> whole_cell c)
    /\ (lookup cols "report_month" r = Some c -> month_name_cell c)
    /\ (lookup cols "schedule" r = Some c -> whole_cell c)
    /\ (lookup cols "county" r = Some c -> place_cell c)
    /\ (lookup cols "sub_county" r = Some c -> place_cell c)
    /\ (lookup cols "latitude" r = Some c -> number_cell c)
    /\ (lookup cols "longitude" r = Some c -> number_cell c).

Lemma to_numeric_number c : number_cell (tonum c).
Proof.
  unfold number_cell, to_numeric. destruct c as [|s|q]; try reflexivity.
  now destruct (to_numeric_text s).
Qed.

Lemma integral_whole c : integral (tonum c) = true -> whole_cell (tonum c).
Proof.
  pose proof (to_numeric_number c) as Hn. unfold number_cell in Hn.
  destruct (tonum c) as [|s|q]; [now left | discriminate | ].
  cbn [integral]. intros H. apply Pos.eqb_eq in H. right.
  exists q, (Qnum (Qred q)). split; [reflexivity|].
  rewrite <- (Qred_correct q) at 1.
  destruct (Qred q) as [a b]. cbn in *. subst b. reflexivity.
Qed.

Lemma month_cell_month c : month_name_cell (month_cell float_repr py_title c).
Proof.
  unfold month_name_cell, month_cell. cbv zeta.
  destruct (mem_str _ MONTH_ORDER) eqn:E; [|now left].
  right. eexists. split; [reflexivity|]. now apply mem_str_In.
Qed.

Lemma county_cell_place c : place_cell (county_cell float_repr c).
Proof.
  unfold place_cell, county_cell. cbv zeta.
  destruct (mem_str _ [""; "nan"; "None"]) eqn:E; [now left|].
  right. eexists. split; [reflexivity|]. split; [apply py_strip_idempotent|].
  cbn in E. repeat (apply orb_false_iff in E as [? E]).
  repeat split; intros E'; rewrite E' in *; discriminate.
Qed.

(** Every row of a standardized table is typed. *)
Lemma standardize_typed_rows df out :
  stdz' df = Ok out -> empty df = false ->
  Forall (typed_row (columns out)) (rows out).
Proof.
  intros H He.
  pose proof (standardize_rows _ _ _ df out H He) as Hr.
  destruct (standardize_ok _ _ _ df out H He) as [Hc _].
  destruct (standardize_checks df out H He) as [_ Hint].
  rewrite Hr. apply Forall_forall. intros r' Hr'.
  apply in_map_iff in Hr' as (r & <- & Hin). apply filter_In in Hin as [Hin _].
  assert (Hwhole : forall n c0, In n ["report_year"; "schedule"] ->
            lookup (columns out) n r = Some c0 -> whole_cell (tonum c0)).
  { intros n c0 Hn Hl. apply integral_whole.
    assert (Hh : has_col n (rename df) = true).
    { unfold has_col. cbn [columns rename]. rewrite <- Hc.
      now apply (lookup_Some_label _ _ r c0). }
    pose proof (proj1 (Forall_forall _ _) (Hint n Hn Hh)) as Hall.
    specialize (Hall (get (columns (rename df)) n r)).
    unfold get in Hall. cbn [columns rename] in Hall.
    rewrite <- Hc, Hl in Hall. apply Hall.
    unfold column. cbn [columns rows rename]. rewrite <- Hc.
    change c0 with (match Some c0 with Some v => v | None => NA end).
    rewrite <- Hl. now apply (in_map (get (columns out) n)). }
  intros c. rewrite !lookup_std_row. unfold std_cell.
  cbn -[amount_cell to_numeric month_cell county_cell].
  repeat split; intros Hl;
    destruct (lookup (columns out) _ r) as [c0|] eqn:E; try discriminate Hl;
    cbn -[amount_cell to_numeric month_cell county_cell] in Hl;
    injection Hl as <-.
  - unfold amount_cell. apply to_numeric_number.
  - apply (Hwhole "report_year"); [cbn; tauto | exact E].
  - apply month_cell_month.
  - apply (Hwhole "schedule"); [cbn; tauto | exact E].
  - apply county_cell_place.
  - apply county_cell_place.
  - apply to_numeric_number.
  - apply to_numeric_number.
Qed.

(** X2.  The columns [standardize] knows hold what the schema says, and it
    touches no other column.  In every row of the result an amount, a
    latitude or a longitude is a number or missing, never a text; a year
    or a schedule is a whole number or missing; a month is one of the
    twelve month names or missing; a county or sub-county is a text other
    than [""], ["nan"] and ["None"], or missing.  Under a label that is
    no schema synonym, each surviving row holds the cell it had. *)
Theorem standardize_cell_types df out :
  standardize float_repr to_numeric_text py_title df = Ok out ->
  empty df = false ->
  Forall (typed_row (columns out)) (rows out)
  /\ Forall2 (fun r r' => forall n, schema_field n = None ->
                 lookup (columns out) n r' = lookup (columns out) n r)
       (filter (survives float_repr (columns out)) (rows df)) (rows out).
Proof.
  intros H He. split; [now apply (standardize_typed_rows df)|].
  rewrite (standardize_rows _ _ _ df out H He).
  apply Forall2_map_r. intros r n Hn. now apply lookup_std_row_other.
Qed.

End StandardizedTables.

(** ** The loaded dataset *)

Lemma column_drop_columns names n df :
  mem_str n names = false -> column n (drop_columns names df) = column n df.
Proof.
  intros Hn. unfold column, drop_columns. cbn [columns rows]. rewrite map_map.
  apply map_ext. intros r. unfold get. now rewrite lookup_drop_at.
Qed.

Lemma count_occ_filter_kept (p : string -> bool) n l :
  p n = true ->
  count_occ string_dec (filter p l) n = count_occ string_dec l n.
Proof.
  intros Hn. induction l as [|c l IH]; [reflexivity|]. cbn [filter].
  destruct (string_dec c n) as [->|Hne].
  - rewrite Hn. cbn. destruct (string_dec n n); [|contradiction]. now rewrite IH.
  - destruct (p c); cbn; destruct (string_dec c n); try contradiction; exact IH.
Qed.

Lemma has_col_filter_kept (p : string -> bool) n l :
  p n = true -> mem_str n (filter p l) = mem_str n l.
Proof.
  intros Hn. unfold mem_str. induction l as [|c l IH]; [reflexivity|].
  cbn [filter existsb]. destruct (String.eqb_spec n c) as [<-|Hne].
  - rewrite Hn. cbn. now rewrite String.eqb_refl.
  - destruct (p c); cbn [existsb orb]; rewrite ?IH;
      destruct (String.eqb_spec n c); try contradiction; reflexivity.
Qed.

Lemma drop_redundant_kept n df :
  mem_str n REDUNDANT = false ->
  has_col n (drop_redundant_columns df) = has_col n df
  /\ repeated n (drop_redundant_columns df) = repeated n df
  /\ column n (drop_redundant_columns df) = column n df.
Proof.
  intros Hn. rewrite drop_redundant_columns_eq. split; [|split].
  - unfold has_col, drop_columns. cbn [columns].
    apply has_col_filter_kept. now rewrite Hn.
  - unfold repeated, drop_columns. cbn [columns].
    rewrite count_occ_filter_kept; [reflexivity | now rewrite Hn].
  - now apply column_drop_columns.
Qed.

Section LoadProperties.

Variable float_repr : Q -> string.
Variable to_numeric_text : string -> option Q.
Variable py_title : string -> string.
Variable py_float : string -> option Q.
Variable np_sum : list Q -> Q.

Local Abbreviation stdz2 := (standardize float_repr to_numeric_text py_title).
Local Abbreviation rmpage := (remove_page_rows float_repr).
Local Abbreviation load := (load_data float_repr to_numeric_text py_title).

(** The vendor name of a row of the loaded dataset. *)
Definition clean_vendor (cols : list string) (r : list cell) : Prop :=
  exists s, lookup cols "vendor_name" r = Some (Str s)
            /\ s <> "" /\ py_strip s = s.

Lemma load_data_steps df out :
  load df = Ok out ->
  exists o1 o2, stdz2 df = Ok o1 /\ rmpage o1 = Ok o2
                /\ out = drop_redundant_columns o2.
Proof.
  unfold load_data. intros H.
  apply bind_ok in H as (o1 & H1 & H). apply bind_ok in H as (o2 & H2 & H).
  injection H as <-. eauto.
Qed.

Lemma remove_page_rows_kept o1 o2 :
  rmpage o1 = Ok o2 ->
  columns o2 = columns o1
  /\ incl (rows o2) (rows o1)
  /\ List.length (rows o2) <= List.length (rows o1)
  /\ (has_col "vendor_name" o1 = true ->
      Forall (fun r => PAGE_ROW_RE
                         (astype_str float_repr (get (columns o1) "vendor_name" r))
                       = false) (rows o2)).
Proof.
  intros H. destruct (has_col "vendor_name" o1) eqn:Hv.
  - destruct (remove_page_rows_rows float_repr o1 o2 Hv H) as [Hc Hr].
    split; [exact Hc|]. rewrite Hr. split; [apply incl_filter|].
    split; [apply filter_length_le|]. intros _. apply Forall_forall.
    intros r Hin. apply filter_In in Hin as [_ Hin]. now apply negb_true_iff.
  - unfold remove_page_rows in H. rewrite Hv in H. cbn in H. injection H as <-.
    repeat split; [apply incl_refl | lia | discriminate].
Qed.

Lemma standardized_vendor_rows df o1 :
  stdz2 df = Ok o1 -> empty df = false -> has_col "vendor_name" o1 = true ->
  Forall (clean_vendor (columns o1)) (rows o1).
Proof.
  intros H He Hv.
  destruct (standardize_vendor_names _ _ _ df o1 H He Hv) as (_ & HF & _).
  eapply Forall2_Forall_r; [exact HF|].
  intros r r' (c & _ & Hl & Hne & Ht). now exists (vendor_text float_repr c).
Qed.

Lemma standardize_length df o1 :
  stdz2 df = Ok o1 -> List.length (rows o1) <= List.length (rows df).
Proof.
  intros H. destruct (empty df) eqn:He.
  - unfold standardize in H. rewrite He in H. injection H as <-. lia.
  - rewrite (standardize_rows _ _ _ df o1 H He), length_map.
    apply filter_length_le.
Qed.

Lemma standardize_empty df o1 :
  stdz2 df = Ok o1 -> empty df = true -> o1 = df.
Proof. unfold standardize. intros H He. rewrite He in H. now injection H. Qed.

Lemma empty_no_cells n df :
  empty df = true -> has_col n df = false \/ rows df = [].
Proof.
  unfold empty, has_col. destruct (columns df), (rows df); try discriminate; auto.
Qed.

Lemma load_data_rows df out :
  load df = Ok out ->
  exists o1 o2,
    stdz2 df = Ok o1 /\ rmpage o1 = Ok o2
    /\ columns out = filter (fun c => negb (mem_str c REDUNDANT)) (columns o1)
    /\ rows out = map (drop_at (columns o1) REDUNDANT) (rows o2)
    /\ columns o2 = columns o1.
Proof.
  intros H. destruct (load_data_steps df out H) as (o1 & o2 & H1 & H2 & ->).
  exists o1, o2. rewrite drop_redundant_columns_eq.
  destruct (remove_page_rows_kept o1 o2 H2) as (Hc & _).
  unfold drop_columns. cbn [columns rows]. rewrite Hc. auto.
Qed.

(** X3.  What [load_data] returns is a clean dataset: it has no [claims]
    or [claims_numeric] column and no more rows than the file; when it has
    a vendor column, every row has a vendor name that is a non-empty,
    trimmed text and does not start with a page marker; and the cells of
    the schema columns have the kinds [standardize] gives them. *)
Theorem load_data_clean df out :
  load_data float_repr to_numeric_text py_title df = Ok out ->
  has_col "claims" out = false
  /\ has_col "claims_numeric" out = false
  /\ List.length (rows out) <= List.length (rows df)
  /\ (has_col "vendor_name" out = true ->
      Forall (fun r => exists s, lookup (columns out) "vendor_name" r = Some (Str s)
                                 /\ s <> "" /\ py_strip s = s
                                 /\ PAGE_ROW_RE s = false)
        (rows out))
  /\ (empty df = false -> Forall (typed_row (columns out)) (rows out)).
Proof.
  intros H.
  destruct (load_data_rows df out H) as (o1 & o2 & H1 & H2 & Hcols & Hrows & Hc).
  destruct (load_data_steps df out H) as (o1' & o2' & H1' & H2' & Hout).
  assert (o1' = o1) by congruence. subst o1'.
  assert (o2' = o2) by congruence. subst o2'.
  assert (Hc1 : has_col "claims" out = false).
  { rewrite Hout, drop_redundant_columns_eq. now apply has_col_drop_columns. }
  assert (Hc2 : has_col "claims_numeric" out = false).
  { rewrite Hout, drop_redundant_columns_eq. now apply has_col_drop_columns. }
  destruct (remove_page_rows_kept o1 o2 H2) as (_ & Hincl & Hlen & Hpage).
  split; [exact Hc1|]. split; [exact Hc2|]. split; [|split].
  - rewrite Hrows, length_map.
    pose proof (standardize_length df o1 H1). lia.
  - intros Hv. unfold has_col in Hv. rewrite Hcols in Hv.
    rewrite has_col_filter_kept in Hv by reflexivity.
    fold (has_col "vendor_name" o1) in Hv.
    rewrite Hrows, Hcols. apply Forall_forall. intros r' Hr'.
    apply in_map_iff in Hr' as (r & <- & Hin).
    rewrite lookup_drop_at by reflexivity.
    destruct (empty df) eqn:He.
    + exfalso. rewrite (standardize_empty df o1 H1 He) in *.
      destruct (empty_no_cells "vendor_name" df He) as [E|E]; [congruence|].
      apply Hincl in Hin. now rewrite E in Hin.
    + pose proof (standardized_vendor_rows df o1 H1 He Hv) as Hclean.
      destruct (proj1 (Forall_forall _ _) Hclean r (Hincl r Hin))
        as (s & Hl & Hne & Ht).
      exists s. repeat split; auto.
      pose proof (proj1 (Forall_forall _ _) (Hpage Hv) r Hin) as Hp.
      unfold get in Hp. now rewrite Hl in Hp.
  - intros He.
    pose proof (standardize_typed_rows _ _ _ df o1 H1 He) as Ht.
    rewrite Hrows, Hcols. apply Forall_forall. intros r' Hr'.
    apply in_map_iff in Hr' as (r & <- & Hin).
    pose proof (proj1 (Forall_forall _ _) Ht r (Hincl r Hin)) as Hrow.
    intros c. specialize (Hrow c).
    rewrite !lookup_drop_at by reflexivity. exact Hrow.
Qed.

Lemma totals_returns df :
  (has_col "amount" df = true ->
   repeated "amount" df = false
   /\ Forall (fun c => is_str c = false) (column "amount" df)) ->
  (has_col "vendor_name" df = true -> repeated "vendor_name" df = false) ->
  exists t,
    totals py_float np_sum df = Ok t
    /\ total_rows t = List.length (rows df)
    /\ (has_col "amount" df = true ->
        total_amount t = np_sum (map amount_or_zero (column "amount" df))).
Proof.
  intros Ha Hv. unfold totals.
  destruct (has_col "amount" df) eqn:Ea.
  - destruct (Ha eq_refl) as [-> Hnum].
    rewrite (sum_skipna_numeric py_float np_sum _ Hnum). cbn [bind].
    destruct (has_col "vendor_name" df) eqn:Ev.
    + rewrite (Hv eq_refl). cbn [bind]. eexists. repeat split; auto.
    + cbn [bind]. eexists. repeat split; auto.
  - cbn [bind]. destruct (has_col "vendor_name" df) eqn:Ev.
    + rewrite (Hv eq_refl). cbn [bind]. eexists. repeat split; discriminate.
    + cbn [bind]. eexists. repeat split; discriminate.
Qed.

Lemma same_labels n a b :
  columns a = columns b ->
  has_col n a = has_col n b /\ repeated n a = repeated n b.
Proof. intros H. unfold has_col, repeated. now rewrite H. Qed.

Lemma column_incl n a b :
  columns a = columns b -> incl (rows a) (rows b) ->
  incl (column n a) (column n b).
Proof.
  intros Hc Hi c Hin. unfold column in *. rewrite Hc in Hin.
  apply in_map_iff in Hin as (r & <- & Hr). apply in_map. now apply Hi.
Qed.

Lemma Forall_incl {A} (P : A -> Prop) l l' :
  incl l l' -> Forall P l' -> Forall P l.
Proof.
  intros Hi H. apply Forall_forall. intros x Hx.
  apply (proj1 (Forall_forall _ _) H). now apply Hi.
Qed.

Lemma NoDup_filter_labels (p : string -> bool) l : NoDup l -> NoDup (filter p l).
Proof.
  induction 1 as [|x l Hx _ IH]; [constructor|]. cbn.
  destruct (p x); [|exact IH]. constructor; [|exact IH].
  intros Hin. apply filter_In in Hin. tauto.
Qed.

(** The vendor and amount columns of a loaded dataset. *)
Lemma loaded_columns df out :
  load df = Ok out -> empty df = false \/ NoDup (columns df) ->
  (has_col "vendor_name" out = true ->
   repeated "vendor_name" out = false
   /\ Forall (fun c => is_str c = true) (column "vendor_name" out))
  /\ (has_col "amount" out = true ->
      repeated "amount" out = false
      /\ Forall (fun c => is_str c = false) (column "amount" out)).
Proof.
  intros H Hwf.
  destruct (load_data_steps df out H) as (o1 & o2 & H1 & H2 & ->).
  destruct (remove_page_rows_kept o1 o2 H2) as (Hc & Hincl & _ & _).
  destruct (drop_redundant_kept "vendor_name" o2 eq_refl) as (Hv1 & Hv2 & Hv3).
  destruct (drop_redundant_kept "amount" o2 eq_refl) as (Ha1 & Ha2 & Ha3).
  rewrite Hv1, Hv2, Hv3, Ha1, Ha2, Ha3.
  destruct (same_labels "vendor_name" o2 o1 Hc) as [-> ->].
  destruct (same_labels "amount" o2 o1 Hc) as [-> ->].
  pose proof (column_incl "vendor_name" o2 o1 Hc Hincl) as Hiv.
  pose proof (column_incl "amount" o2 o1 Hc Hincl) as Hia.
  destruct (empty df) eqn:He.
  - destruct Hwf as [|Hnd]; [discriminate|].
    rewrite (standardize_empty df o1 H1 He) in *.
    split; intros Hh; (split; [now apply NoDup_not_repeated|]).
    + destruct (empty_no_cells "vendor_name" df He) as [E|E]; [congruence|].
      eapply Forall_incl; [exact Hiv|]. unfold column. rewrite E. constructor.
    + destruct (empty_no_cells "amount" df He) as [E|E]; [congruence|].
      eapply Forall_incl; [exact Hia|]. unfold column. rewrite E. constructor.
  - destruct (standardize_ok _ _ _ df o1 H1 He) as [Hcols _].
    edestruct standardize_checks as [Hrep _]; [exact H1 | exact He |]. cbv zeta in *.
    assert (Hren : columns o1 = columns (rename df))
      by (now rewrite Hcols).
    split; intros Hh.
    + destruct (same_labels "vendor_name" o1 _ Hren) as [Eh Er].
      split; [rewrite Er; apply Hrep; [cbn; tauto | now rewrite <- Eh]|].
      eapply Forall_incl; [exact Hiv|].
      pose proof (standardized_vendor_rows df o1 H1 He Hh) as Hclean.
      unfold column. apply Forall_forall. intros c Hin.
      apply in_map_iff in Hin as (r & <- & Hr).
      destruct (proj1 (Forall_forall _ _) Hclean r Hr) as (s & Hl & _).
      unfold get. now rewrite Hl.
    + destruct (same_labels "amount" o1 _ Hren) as [Eh Er].
      split; [rewrite Er; apply Hrep; [cbn; tauto | now rewrite <- Eh]|].
      eapply Forall_incl; [exact Hia|].
      pose proof (standardize_typed_rows _ _ _ df o1 H1 He) as Ht.
      unfold column. apply Forall_forall. intros c Hin.
      apply in_map_iff in Hin as (r & <- & Hr).
      pose proof (proj1 (Forall_forall _ _) Ht r Hr) as Hrow.
      unfold get. destruct (lookup (columns o1) "amount" r) as [c|] eqn:E;
        [|reflexivity].
      now apply (proj1 (Hrow c)).
Qed.

(** X4.  The dashboard's operations are safe on a loaded dataset (loaded
    from a table that has a row and a column, or whose labels are
    distinct): [filter_data] returns for every choice of filters, with the
    same columns and rows of the dataset, and [totals] returns, its row
    count the number of rows and its amount what the additions of the
    column make of the amounts, a missing one counting for zero. *)
Theorem load_data_safe df out :
  load_data float_repr to_numeric_text py_title df = Ok out ->
  empty df = false \/ NoDup (columns df) ->
  (forall vendors months years,
      exists res, filter_data py_title out vendors months years = Ok res
                  /\ columns res = columns out
                  /\ incl (rows res) (rows out))
  /\ exists t,
       totals py_float np_sum out = Ok t
       /\ total_rows t = List.length (rows out)
       /\ (has_col "amount" out = true ->
           total_amount t
           = np_sum (map amount_or_zero (column "amount" out))).
Proof.
  intros H Hwf. destruct (loaded_columns df out H Hwf) as [Hv Ha]. split.
  - intros vendors months years.
    destruct (filter_data_returns py_title out vendors months years Hv)
      as (res & Hres).
    exists res. split; [exact Hres|].
    rewrite (filter_data_ok py_title out vendors months years res Hres).
    split; [reflexivity|]. cbn [rows filter_rows]. apply incl_filter.
  - apply totals_returns; [exact Ha|]. intros Hh. now apply Hv.
Qed.

End LoadProperties.

(** A master table as [read_csv] gives it, with a page marker among the
    vendors, and what [load_data] makes of it. *)
Definition master_table : DataFrame :=
  {| columns := ["Facility"; "KES"; "Claims"; "Month"; "Year"];
     rows := [[Str " Acme  Clinic"; Str "KES 1,250.50"; Str "3"; Str "January";
               Str "2024"];
              [Str "Page 3"; NA; NA; NA; NA];
              [Str "Beta Hospital"; Str "700"; Str "1"; Str "March";
               Str "2025"]] |}.

Definition master_loaded : DataFrame :=
  {| columns := ["vendor_name"; "amount"; "report_month"; "report_year"];
     rows := [[Str "Acme Clinic"; Num (2501 # 2); Str "January"; Num 2024];
              [Str "Beta Hospital"; Num 700; Str "March"; Num 2025]] |}.

Lemma load_data_master :
  load_data (fun _ => "") read_decimal (fun s => s) master_table = Ok master_loaded.
Proof. reflexivity. Qed.

Lemma standardize_cell_types_witness :
  Forall (typed_row (columns notes_table_std)) (rows notes_table_std)
  /\ Forall2 (fun r r' => forall n, schema_field n = None ->
                 lookup (columns notes_table_std) n r'
                 = lookup (columns notes_table_std) n r)
       (filter (survives (fun _ => "") (columns notes_table_std))
          (rows notes_table))
       (rows notes_table_std).
Proof.
  apply (standardize_cell_types (fun _ => "") read_decimal (fun s => s)
           notes_table notes_table_std); reflexivity.
Defined.

Lemma load_data_clean_witness :
  has_col "claims" master_loaded = false
  /\ has_col "claims_numeric" master_loaded = false
  /\ List.length (rows master_loaded) <= List.length (rows master_table)
  /\ (has_col "vendor_name" master_loaded = true ->
      Forall (fun r => exists s,
                lookup (columns master_loaded) "vendor_name" r = Some (Str s)
                /\ s <> "" /\ py_strip s = s /\ PAGE_ROW_RE s = false)
        (rows master_loaded))
  /\ (empty master_table = false ->
      Forall (typed_row (columns master_loaded)) (rows master_loaded)).
Proof.
  apply (load_data_clean (fun _ => "") read_decimal (fun s => s)
           master_table master_loaded load_data_master).
Defined.

Lemma load_data_safe_witness :
  (forall vendors months years,
      exists res,
        filter_data (fun s => s) master_loaded vendors months years = Ok res
        /\ columns res = columns master_loaded
        /\ incl (rows res) (rows master_loaded))
  /\ exists t,
       totals (fun _ => None) exact_sum master_loaded = Ok t
       /\ total_rows t = List.length (rows master_loaded)
       /\ (has_col "amount" master_loaded = true ->
           total_amount t
           = exact_sum (map amount_or_zero (column "amount" master_loaded))).
Proof.
  apply (load_data_safe (fun _ => "") read_decimal (fun s => s) (fun _ => None)
           exact_sum master_table master_loaded load_data_master).
  now left.
Defined.

(* ===================================================================== *)
(** * Further properties: filtering in steps *)
(* ===================================================================== *)

Section FilterComposition.

Variable py_title : string -> string.

Local Abbreviation fdata2 := (filter_data py_title).

(** The test [filter_data] makes on a row. *)
Definition selected (df : DataFrame) (vendors months : option (list string))
    (years : option (list Z)) (r : list cell) : bool :=
  (if applies vendors "vendor_name" df
   then keep_vendor vendors (get (columns df) "vendor_name" r) else true)
  && (if applies months "report_month" df
      then keep_month py_title months (get (columns df) "report_month" r) else true)
  && (if applies years "report_year" df
      then keep_year years (get (columns df) "report_year" r) else true).

(** What [out["vendor_name"].str] needs when the vendor test is applied. *)
Definition vendor_column_ok (df : DataFrame) (vendors : option (list string))
    : bool :=
  if applies vendors "vendor_name" df
  then negb (repeated "vendor_name" df)
       && str_accessor_ok (column "vendor_name" df)
  else true.

Lemma filter_data_cases df vendors months years :
  fdata2 df vendors months years
  = if vendor_column_ok df vendors
    then Ok (filter_rows (selected df vendors months years) df)
    else Raise AttributeError.
Proof.
  destruct (fdata2 df vendors months years) as [out|e] eqn:H.
  - pose proof (filter_data_ok py_title df vendors months years out H) as E.
    fold (selected df vendors months years) in E. subst out.
    unfold filter_data, vendor_column_ok, applies in *.
    destruct (truthy vendors && has_col "vendor_name" df); [|reflexivity].
    destruct (repeated "vendor_name" df); [discriminate H|].
    destruct (str_accessor_ok _); [reflexivity | discriminate H].
  - unfold filter_data, vendor_column_ok, applies in *.
    destruct (truthy vendors && has_col "vendor_name" df); [|discriminate H].
    destruct (repeated "vendor_name" df); [now injection H as <-|].
    destruct (str_accessor_ok _); [discriminate H | now injection H as <-].
Qed.

Lemma selected_same_columns a b vendors months years r :
  columns a = columns b ->
  selected a vendors months years r = selected b vendors months years r.
Proof. intros H. unfold selected, applies, has_col. now rewrite H. Qed.

Lemma keep_vendor_text vendors c :
  truthy vendors = true -> keep_vendor vendors c = true -> is_str c = true.
Proof.
  unfold keep_vendor. intros ->. now destruct c.
Qed.

(** After the vendor test the vendor column holds texts only. *)
Lemma vendor_column_ok_filtered df vendors p :
  vendor_column_ok df vendors = true ->
  (forall r, p r = true ->
             applies vendors "vendor_name" df = true ->
             keep_vendor vendors (get (columns df) "vendor_name" r) = true) ->
  vendor_column_ok (filter_rows p df) vendors = true.
Proof.
  unfold vendor_column_ok, applies, has_col, repeated. cbn [columns filter_rows].
  intros H Hp.
  destruct (truthy vendors && mem_str "vendor_name" (columns df)) eqn:E;
    [|reflexivity].
  apply andb_true_iff in H as [-> _]. cbn [andb].
  apply str_accessor_text. unfold column. cbn [columns rows].
  apply Forall_forall. intros c Hc. apply in_map_iff in Hc as (r & <- & Hr).
  apply filter_In in Hr as [_ Hr].
  pose proof E as Et. apply andb_true_iff in Et as [Et _].
  apply (keep_vendor_text vendors); [exact Et|].
  apply Hp; [exact Hr | reflexivity].
Qed.

(** X5.  Filtering is idempotent: when [filter_data] returns a table,
    filtering that table again with the same arguments returns it
    unchanged (and does return: the vendor column of the result holds
    texts only).  The result has the columns of the input and no more
    rows. *)
Theorem filter_data_idempotent df vendors months years out :
  filter_data py_title df vendors months years = Ok out ->
  filter_data py_title out vendors months years = Ok out
  /\ columns out = columns df
  /\ List.length (rows out) <= List.length (rows df).
Proof.
  intros H. rewrite filter_data_cases in H.
  destruct (vendor_column_ok df vendors) eqn:G; [|discriminate H].
  injection H as <-. split; [|split].
  - rewrite filter_data_cases, vendor_column_ok_filtered; [|exact G|].
    + f_equal. rewrite filter_rows_twice. apply filter_rows_ext. intros r.
      rewrite (selected_same_columns (filter_rows _ df) df) by reflexivity.
      now destruct (selected df vendors months years r).
    + intros r Hr Ha. unfold selected in Hr. rewrite Ha in Hr.
      now apply andb_true_iff in Hr as [Hr%andb_true_iff _].
  - reflexivity.
  - cbn [rows filter_rows]. apply filter_length_le.
Qed.

(** X6.  Narrowing in steps gives what one call gives: when
    [filter_data(df, vendors, months, years)] returns [out], filtering by
    the vendors alone, then the result by the months alone, then that by
    the years alone returns at each step, and ends in [out]. *)
Theorem filter_data_in_steps df vendors months years out :
  filter_data py_title df vendors months years = Ok out ->
  exists a b,
    filter_data py_title df vendors None None = Ok a
    /\ filter_data py_title a None months None = Ok b
    /\ filter_data py_title b None None years = Ok out.
Proof.
  intros H. rewrite filter_data_cases in H.
  destruct (vendor_column_ok df vendors) eqn:G; [|discriminate H].
  injection H as <-.
  eexists. eexists. split; [|split].
  - rewrite filter_data_cases, G. reflexivity.
  - rewrite filter_data_cases. reflexivity.
  - rewrite filter_data_cases. cbn [vendor_column_ok applies truthy andb].
    f_equal. rewrite !filter_rows_twice. apply filter_rows_ext. intros r.
    rewrite !(selected_same_columns (filter_rows _ _) df) by reflexivity.
    unfold selected, applies, keep_vendor, keep_month, keep_year.
    cbn [truthy andb].
    repeat (rewrite ?andb_true_r; cbn [andb]). now rewrite andb_assoc.
Qed.

End FilterComposition.

Lemma filter_data_idempotent_witness :
  let out := {| columns := columns sample_dataset;
                rows := [[Str "Acme Clinic"; Num 100; Str "January"; Num 2024]] |} in
  filter_data (fun s => s) out (Some ["ACME CLINIC "]) (Some ["January"])
    (Some [2024%Z]) = Ok out
  /\ columns out = columns sample_dataset
  /\ List.length (rows out) <= List.length (rows sample_dataset).
Proof.
  apply (filter_data_idempotent (fun s => s) sample_dataset
           (Some ["ACME CLINIC "]) (Some ["January"]) (Some [2024%Z])).
  reflexivity.
Defined.

Lemma filter_data_in_steps_witness :
  exists a b,
    filter_data (fun s => s) sample_dataset (Some ["ACME CLINIC "]) None None = Ok a
    /\ filter_data (fun s => s) a None (Some ["January"]) None = Ok b
    /\ filter_data (fun s => s) b None None (Some [2024%Z])
       = Ok {| columns := columns sample_dataset;
               rows := [[Str "Acme Clinic"; Num 100; Str "January"; Num 2024]] |}.
Proof.
  apply (filter_data_in_steps (fun s => s) sample_dataset
           (Some ["ACME CLINIC "]) (Some ["January"]) (Some [2024%Z])).
  reflexivity.
Defined.

(* ===================================================================== *)
(** * Further properties: the filter options *)
(* ===================================================================== *)

(** ** [sorted] *)

Section SortedProperties.

Context {A : Type} (leb : A -> A -> bool).

Hypothesis leb_total : forall a b, leb a b = true \/ leb b a = true.

Lemma insort_Permutation x l : Permutation (insort leb x l) (x :: l).
Proof.
  induction l as [|y l IH]; [reflexivity|]. cbn [insort].
  destruct (leb x y); [reflexivity|].
  rewrite IH. apply perm_swap.
Qed.

Lemma sorted_Permutation l : Permutation (sorted leb l) l.
Proof.
  induction l as [|x l IH]; [reflexivity|]. cbn [sorted fold_right].
  fold (sorted leb l). rewrite insort_Permutation. now constructor.
Qed.

Lemma insort_HdRel a x l :
  leb a x = true -> HdRel (fun u v => leb u v = true) a l ->
  HdRel (fun u v => leb u v = true) a (insort leb x l).
Proof.
  intros Hax Hal. destruct l as [|y l]; cbn [insort]; [now constructor|].
  destruct (leb x y); constructor; [exact Hax|]. now inversion Hal.
Qed.

Lemma insort_Sorted x l :
  Sorted (fun u v => leb u v = true) l ->
  Sorted (fun u v => leb u v = true) (insort leb x l).
Proof.
  induction 1 as [|y l Hs IH Hy]; cbn [insort]; [repeat constructor|].
  destruct (leb x y) eqn:E.
  - constructor; [now constructor|]. now constructor.
  - constructor; [exact IH|]. apply insort_HdRel; [|exact Hy].
    destruct (leb_total x y) as [H|H]; [congruence | exact H].
Qed.

Lemma sorted_Sorted l : Sorted (fun u v => leb u v = true) (sorted leb l).
Proof.
  induction l as [|x l IH]; [constructor|]. cbn [sorted fold_right].
  now apply insort_Sorted.
Qed.

Lemma sorted_In l x : In x (sorted leb l) <-> In x l.
Proof.
  split; apply Permutation_in;
    [apply sorted_Permutation | symmetry; apply sorted_Permutation].
Qed.

End SortedProperties.

(** ** Distinct values *)

Lemma cell_eqb_refl c : cell_eqb c c = true.
Proof.
  destruct c as [|s|q]; cbn; [reflexivity | apply String.eqb_refl|].
  apply Qeq_bool_iff. reflexivity.
Qed.

Lemma cell_eqb_trans a b c :
  cell_eqb a b = true -> cell_eqb b c = true -> cell_eqb a c = true.
Proof.
  destruct a as [|s|p], b as [|t|q], c as [|u|r]; cbn; try discriminate; auto.
  - intros ->%String.eqb_eq. auto.
  - rewrite !Qeq_bool_iff. apply Qeq_trans.
Qed.

Lemma cell_eqb_text c s : cell_eqb c (Str s) = true -> c = Str s.
Proof. destruct c; cbn; try discriminate. now intros ->%String.eqb_eq. Qed.

Lemma distinct_incl l : incl (distinct l) l.
Proof.
  induction l as [|c l IH]; [easy|]. cbn [distinct]. intros d [<-|Hd].
  - now left.
  - right. apply IH. now apply filter_In in Hd.
Qed.

Lemma distinct_complete l c :
  In c l -> exists d, In d (distinct l) /\ cell_eqb d c = true.
Proof.
  induction l as [|a l IH]; [easy|]. cbn [distinct]. intros [->|Hc].
  - exists c. split; [now left | apply cell_eqb_refl].
  - destruct (IH Hc) as (d & Hd & E).
    destruct (cell_eqb a d) eqn:Ead.
    + exists a. split; [now left|]. now apply (cell_eqb_trans a d c).
    + exists d. split; [|exact E]. right. apply filter_In. now rewrite Ead.
Qed.

Lemma ForallOrdPairs_filter {A} (R : A -> A -> Prop) p l :
  ForallOrdPairs R l -> ForallOrdPairs R (filter p l).
Proof.
  induction 1 as [|a l Ha _ IH]; [constructor|]. cbn [filter].
  destruct (p a); [|exact IH]. constructor; [|exact IH].
  apply Forall_forall. intros b Hb. apply filter_In in Hb as [Hb _].
  now apply (proj1 (Forall_forall _ _) Ha).
Qed.

Lemma distinct_apart l :
  ForallOrdPairs (fun a b => cell_eqb a b = false) (distinct l).
Proof.
  induction l as [|c l IH]; [constructor|]. cbn [distinct]. constructor.
  - apply Forall_forall. intros d Hd. apply filter_In in Hd as [_ Hd].
    now destruct (cell_eqb c d).
  - now apply ForallOrdPairs_filter.
Qed.

Lemma texts_Some l ts : texts l = Some ts -> l = map Str ts.
Proof.
  revert ts. induction l as [|c l IH]; intros ts H.
  - now injection H as <-.
  - destruct c as [|s|q]; try discriminate H. cbn [texts] in H.
    destruct (texts l) as [ts'|]; [|discriminate H]. injection H as <-.
    cbn [map]. now rewrite (IH ts' eq_refl).
Qed.

Lemma texts_of_text l :
  Forall (fun c => is_str c = true) l -> exists ts, texts l = Some ts.
Proof.
  induction 1 as [|c l Hc _ (ts & IH)]; [now exists []|].
  destruct c as [|s|q]; try discriminate Hc. cbn [texts]. rewrite IH.
  now exists (s :: ts).
Qed.

Lemma numbers_Some l qs : numbers l = Some qs -> l = map Num qs.
Proof.
  revert qs. induction l as [|c l IH]; intros qs H.
  - now injection H as <-.
  - destruct c as [|s|q]; try discriminate H. cbn [numbers] in H.
    destruct (numbers l) as [qs'|]; [|discriminate H]. injection H as <-.
    cbn [map]. now rewrite (IH qs' eq_refl).
Qed.

Lemma apart_texts_NoDup ts :
  ForallOrdPairs (fun a b => cell_eqb a b = false) (map Str ts) -> NoDup ts.
Proof.
  induction ts as [|s ts IH]; [constructor|]. cbn [map]. intros H.
  inversion H as [|a l Ha Hl]; subst. constructor; [|now apply IH].
  intros Hin. apply (in_map Str) in Hin.
  pose proof (proj1 (Forall_forall _ _) Ha _ Hin) as E.
  cbn in E. now rewrite String.eqb_refl in E.
Qed.

(** The whole part of a number, toward zero. *)
Definition truncated (q : Q) : Z := Z.quot (Qnum q) (Zpos (Qden q)).

Lemma truncated_Qeq p q : (p == q)%Q -> truncated p = truncated q.
Proof.
  unfold Qeq, truncated. intros H.
  rewrite <- (Z.quot_mul_cancel_r (Qnum p) (Zpos (Qden p)) (Zpos (Qden q)))
    by discriminate.
  rewrite H, (Z.mul_comm (Qnum q)).
  apply Z.quot_mul_cancel_l; discriminate.
Qed.

Lemma truncated_whole z : truncated (inject_Z z) = z.
Proof. unfold truncated. cbn. apply Z.quot_1_r. Qed.

Section ListingProperties.

Variable py_int : string -> option Z.

Local Abbreviation options := (available_filters py_int).

Lemma dropna_unique_In col c :
  In c (dropna_unique col) -> In c col /\ notna c = true.
Proof.
  intros H. apply distinct_incl in H. now apply filter_In in H.
Qed.

Lemma dropna_unique_text col s :
  In (Str s) (dropna_unique col) <-> In (Str s) col.
Proof.
  split; [intros H; now apply dropna_unique_In in H|]. intros H.
  destruct (distinct_complete (filter notna col) (Str s)) as (d & Hd & E).
  { now apply filter_In. }
  now rewrite <- (cell_eqb_text d s E).
Qed.

(** The vendor options of a column of texts and missing values. *)
Lemma sorted_cells_texts col :
  Forall (fun c => match c with Num _ => False | _ => True end) col ->
  exists ts,
    sorted_cells (dropna_unique col) = Ok (map Str ts)
    /\ Sorted (fun a b => String.leb a b = true) ts
    /\ NoDup ts
    /\ forall s, In s ts <-> In (Str s) col.
Proof.
  intros Hcol.
  destruct (texts_of_text (dropna_unique col)) as (ts & Hts).
  { apply Forall_forall. intros c Hc. apply dropna_unique_In in Hc as [Hc Hn].
    pose proof (proj1 (Forall_forall _ _) Hcol c Hc). now destruct c. }
  exists (sorted String.leb ts). unfold sorted_cells. rewrite Hts.
  pose proof (texts_Some _ _ Hts) as E.
  split; [reflexivity|]. split; [|split].
  - apply sorted_Sorted. apply String.leb_total.
  - apply (Permutation_NoDup (l := ts));
      [symmetry; apply sorted_Permutation|].
    apply apart_texts_NoDup. rewrite <- E. apply distinct_apart.
  - intros s. rewrite sorted_In, <- dropna_unique_text, E.
    split; [apply in_map|]. intros H. apply in_map_iff in H as (t & [= ->] & H).
    exact H.
Qed.

Lemma map_result_numbers qs :
  map_result (astype_int py_int) (map Num qs) = Ok (map truncated qs).
Proof.
  induction qs as [|q qs IH]; [reflexivity|]. cbn [map map_result astype_int bind].
  now rewrite IH.
Qed.

Lemma numbers_of_number l :
  Forall (fun c => exists q, c = Num q) l -> exists qs, l = map Num qs.
Proof.
  induction 1 as [|c l (q & ->) _ (qs & ->)]; [now exists []|].
  now exists (q :: qs).
Qed.

(** The year options of a column of numbers and missing values. *)
Lemma year_options col :
  Forall (fun c => is_str c = false) col ->
  exists ys,
    (ys' <- map_result (astype_int py_int) (dropna_unique col) ;;
     Ok (sorted Z.leb ys')) = Ok ys
    /\ Sorted (fun a b => Z.leb a b = true) ys
    /\ forall y, In y ys <-> exists q, In (Num q) col /\ y = truncated q.
Proof.
  intros Hcol.
  destruct (numbers_of_number (dropna_unique col)) as (qs & E).
  { apply Forall_forall. intros c Hc. apply dropna_unique_In in Hc as [Hc Hn].
    pose proof (proj1 (Forall_forall _ _) Hcol c Hc).
    destruct c as [|s|q]; try discriminate. now exists q. }
  exists (sorted Z.leb (map truncated qs)).
  rewrite E, map_result_numbers. cbn [bind]. split; [reflexivity|]. split.
  - apply sorted_Sorted. intros a b. rewrite !Z.leb_le. lia.
  - intros y. rewrite sorted_In, in_map_iff. split.
    + intros (q & <- & Hq). exists q. split; [|reflexivity].
      apply (in_map Num) in Hq. rewrite <- E in Hq.
      now apply dropna_unique_In in Hq.
    + intros (q & Hq & ->).
      destruct (distinct_complete (filter notna col) (Num q)) as (d & Hd & Ed).
      { now apply filter_In. }
      fold (dropna_unique col) in Hd. rewrite E in Hd.
      apply in_map_iff in Hd as (q' & <- & Hq'). exists q'. split; [|exact Hq'].
      apply truncated_Qeq. now apply Qeq_bool_iff.
Qed.

Lemma month_options col m :
  In m (filter (fun m => existsb (cell_eqb (Str m)) col) MONTH_ORDER)
  <-> In m MONTH_ORDER /\ In (Str m) col.
Proof.
  rewrite filter_In, existsb_exists. split; intros [Hm H]; (split; [exact Hm|]).
  - destruct H as (c & Hc & E). destruct c as [|s|q]; try discriminate E.
    cbn in E. now apply String.eqb_eq in E as ->.
  - exists (Str m). split; [exact H | apply cell_eqb_refl].
Qed.

Lemma calendar_order (p : string -> bool) :
  filter (fun m => mem_str m (filter p MONTH_ORDER)) MONTH_ORDER
  = filter p MONTH_ORDER.
Proof.
  apply filter_ext_in. intros m Hm.
  destruct (p m) eqn:E.
  - apply mem_str_In. apply filter_In. now split.
  - destruct (mem_str m (filter p MONTH_ORDER)) eqn:E'; [|reflexivity].
    apply mem_str_In, filter_In in E' as [_ E']. congruence.
Qed.

Lemma absent_column n df : has_col n df = false -> forall c, In c (column n df) -> c = NA.
Proof.
  unfold has_col, column, get. intros H c Hc.
  apply in_map_iff in Hc as (r & <- & _).
  destruct (lookup (columns df) n r) as [v|] eqn:E; [|reflexivity].
  apply lookup_Some_label in E. congruence.
Qed.

Lemma vendor_part df :
  repeated "vendor_name" df = false ->
  Forall (fun c => match c with Num _ => False | _ => True end)
    (column "vendor_name" df) ->
  exists ts,
    (if has_col "vendor_name" df then
       if repeated "vendor_name" df then Raise AttributeError
       else sorted_cells (dropna_unique (column "vendor_name" df))
     else Ok []) = Ok (map Str ts)
    /\ Sorted (fun a b => String.leb a b = true) ts
    /\ NoDup ts
    /\ forall s, In s ts <-> In (Str s) (column "vendor_name" df).
Proof.
  intros -> Hv. destruct (has_col "vendor_name" df) eqn:C.
  - apply (sorted_cells_texts _ Hv).
  - exists []. repeat split; try constructor; try easy.
    intros H. now apply (absent_column _ _ C) in H.
Qed.

Lemma month_part df :
  repeated "report_month" df = false ->
  exists ms,
    (if has_col "report_month" df then
       if repeated "report_month" df then Raise ValueError
       else Ok (filter (fun m => existsb (cell_eqb (Str m))
                                   (column "report_month" df))
                  MONTH_ORDER)
     else Ok []) = Ok ms
    /\ (forall m, In m ms
                  <-> In m MONTH_ORDER /\ In (Str m) (column "report_month" df))
    /\ ms = filter (fun m => mem_str m ms) MONTH_ORDER.
Proof.
  intros ->. destruct (has_col "report_month" df) eqn:C.
  - eexists. split; [reflexivity|]. split; [apply month_options|].
    symmetry. apply calendar_order.
  - exists []. repeat split; try easy.
    intros [_ H]. now apply (absent_column _ _ C) in H.
Qed.

Lemma year_part df :
  repeated "report_year" df = false ->
  Forall (fun c => is_str c = false) (column "report_year" df) ->
  exists ys,
    (if has_col "report_year" df then
       if repeated "report_year" df then Raise AttributeError
       else ys' <- map_result (astype_int py_int)
                     (dropna_unique (column "report_year" df)) ;;
            Ok (sorted Z.leb ys')
     else Ok []) = Ok ys
    /\ Sorted (fun a b => Z.leb a b = true) ys
    /\ forall y, In y ys <-> exists q, In (Num q) (column "report_year" df)
                                       /\ y = truncated q.
Proof.
  intros -> Hy. destruct (has_col "report_year" df) eqn:C.
  - apply (year_options _ Hy).
  - exists []. repeat split; try constructor; try easy.
    intros (q & H & _). now apply (absent_column _ _ C) in H.
Qed.

(** X7.  On a dataset whose three filter labels are not repeated, whose
    vendor cells are texts or missing and whose year cells are numbers or
    missing, [available_filters] returns.  The vendors offered are the
    distinct vendor texts of the dataset, in ascending order; the months
    offered are the months of [MONTH_ORDER] that some row has, in calendar
    order; the years offered are the whole parts of the years of the
    dataset, in ascending order. *)
Theorem available_filters_listing df :
  repeated "vendor_name" df = false ->
  repeated "report_month" df = false ->
  repeated "report_year" df = false ->
  Forall (fun c => match c with Num _ => False | _ => True end)
    (column "vendor_name" df) ->
  Forall (fun c => is_str c = false) (column "report_year" df) ->
  exists f ts,
    available_filters py_int df = Ok f
    /\ vendors f = map Str ts
    /\ Sorted (fun a b => String.leb a b = true) ts
    /\ NoDup ts
    /\ (forall s, In s ts <-> In (Str s) (column "vendor_name" df))
    /\ (forall m, In m (months f)
                  <-> In m MONTH_ORDER /\ In (Str m) (column "report_month" df))
    /\ months f = filter (fun m => mem_str m (months f)) MONTH_ORDER
    /\ Sorted (fun a b => Z.leb a b = true) (years f)
    /\ (forall y, In y (years f)
                  <-> exists q, In (Num q) (column "report_year" df)
                                /\ y = truncated q).
Proof.
  intros Rv Rm Ry Hv Hy. unfold available_filters.
  destruct (vendor_part df Rv Hv) as (ts & -> & Sv & Nv & Iv).
  destruct (month_part df Rm) as (ms & -> & Im & Om).
  destruct (year_part df Ry Hy) as (ys & -> & Sy & Iy).
  cbn [bind]. eexists. exists ts. split; [reflexivity|].
  cbn [vendors months years]. auto 10.
Qed.

End ListingProperties.

Lemma available_filters_listing_witness :
  exists f ts,
    available_filters (fun _ => None) sample_dataset = Ok f
    /\ vendors f = map Str ts
    /\ Sorted (fun a b => String.leb a b = true) ts
    /\ NoDup ts
    /\ (forall s, In s ts <-> In (Str s) (column "vendor_name" sample_dataset))
    /\ (forall m, In m (months f)
                  <-> In m MONTH_ORDER
                      /\ In (Str m) (column "report_month" sample_dataset))
    /\ months f = filter (fun m => mem_str m (months f)) MONTH_ORDER
    /\ Sorted (fun a b => Z.leb a b = true) (years f)
    /\ (forall y, In y (years f)
                  <-> exists q, In (Num q) (column "report_year" sample_dataset)
                                /\ y = truncated q).
Proof.
  apply (available_filters_listing (fun _ => None) sample_dataset);
    try reflexivity; repeat constructor.
Defined.

(** ** The options offered select something *)

(** A dataset as the cleaning leaves it, for the filters: the three
    labels are not repeated, the vendor names are trimmed texts and the
    years whole numbers or missing. *)
Definition tidy (df : DataFrame) : Prop :=
  repeated "vendor_name" df = false
  /\ repeated "report_month" df = false
  /\ repeated "report_year" df = false
  /\ (has_col "vendor_name" df = true ->
      Forall trimmed_text (column "vendor_name" df))
  /\ Forall whole_cell (column "report_year" df).

Lemma column_In n df c :
  In c (column n df) -> exists r, In r (rows df) /\ get (columns df) n r = c.
Proof.
  unfold column. intros H. apply in_map_iff in H as (r & E & Hr). eauto.
Qed.

Lemma text_column_has_col n df s : In (Str s) (column n df) -> has_col n df = true.
Proof.
  intros H. destruct (has_col n df) eqn:C; [reflexivity|].
  now apply (absent_column _ _ C) in H.
Qed.

Lemma number_column_has_col n df q : In (Num q) (column n df) -> has_col n df = true.
Proof.
  intros H. destruct (has_col n df) eqn:C; [reflexivity|].
  now apply (absent_column _ _ C) in H.
Qed.

Lemma filter_rows_In p df r :
  In r (rows df) -> p r = true -> rows (filter_rows p df) <> [].
Proof.
  intros Hr Hp E. cbn [rows filter_rows] in E.
  assert (H : In r (filter p (rows df))) by (apply filter_In; now split).
  now rewrite E in H.
Qed.

Lemma filter_rows_all p df :
  (forall r, In r (rows df) -> p r = true) -> filter_rows p df = df.
Proof.
  intros H. destruct df as [cols rs]. unfold filter_rows. cbn [columns rows] in *.
  f_equal. apply filter_all_true. now apply Forall_forall.
Qed.

Lemma trimmed_lower s : py_strip s = s -> py_strip (py_lower s) = py_lower s.
Proof. intros H. now rewrite py_strip_lower, H. Qed.

Section OptionsProperties.

Variable py_int : string -> option Z.
Variable py_title : string -> string.

(** [str.title] leaves the month names as they are. *)
Hypothesis py_title_month : forall m, In m MONTH_ORDER -> py_title m = m.

Local Abbreviation options2 := (available_filters py_int).
Local Abbreviation fdata3 := (filter_data py_title).

Lemma tidy_vendor_column_ok df vs :
  tidy df -> vendor_column_ok df vs = true.
Proof.
  intros (Rv & _ & _ & Tv & _). unfold vendor_column_ok, applies.
  destruct (truthy vs); [|reflexivity]. cbn [andb].
  destruct (has_col "vendor_name" df) eqn:C; [|reflexivity].
  rewrite Rv. cbn [negb andb]. apply str_accessor_text.
  eapply Forall_impl; [|exact (Tv eq_refl)]. now intros c (s & -> & _).
Qed.

Lemma tidy_listing df :
  tidy df ->
  exists f ts,
    options2 df = Ok f
    /\ vendors f = map Str ts
    /\ (forall s, In s ts <-> In (Str s) (column "vendor_name" df))
    /\ (forall m, In m (months f)
                  <-> In m MONTH_ORDER /\ In (Str m) (column "report_month" df))
    /\ (forall y, In y (years f)
                  <-> exists q, In (Num q) (column "report_year" df)
                                /\ y = truncated q).
Proof.
  intros (Rv & Rm & Ry & Tv & Ty). unfold available_filters.
  destruct (vendor_part df Rv) as (ts & -> & _ & _ & Iv).
  { destruct (has_col "vendor_name" df) eqn:C.
    - eapply Forall_impl; [|exact (Tv eq_refl)]. now intros c (s & -> & _).
    - apply Forall_forall. intros c Hc. now rewrite (absent_column _ _ C c Hc). }
  destruct (month_part df Rm) as (ms & -> & Im & _).
  destruct (year_part py_int df Ry) as (ys & -> & _ & Iy).
  { eapply Forall_impl; [|exact Ty]. now intros c [->|(q & z & -> & _)]. }
  cbn [bind]. eexists. exists ts. split; [reflexivity|].
  cbn [vendors months years]. auto.
Qed.

(** On a tidy dataset every option offered selects at least one row, and
    the vendors offered, taken together, select every row. *)
Lemma options_live df f :
  tidy df -> options2 df = Ok f ->
  (forall c, In c (vendors f) ->
     exists s out, c = Str s
                   /\ fdata3 df (Some [s]) None None = Ok out /\ rows out <> [])
  /\ (forall m, In m (months f) ->
        exists out, fdata3 df None (Some [m]) None = Ok out /\ rows out <> [])
  /\ (forall y, In y (years f) ->
        exists out, fdata3 df None None (Some [y]) = Ok out /\ rows out <> [])
  /\ fdata3 df (Some (map text_of (vendors f))) None None = Ok df.
Proof.
  intros Ht Hf.
  destruct (tidy_listing df Ht) as (f' & ts & Hf' & Ev & Iv & Im & Iy).
  assert (f' = f) by congruence. subst f'.
  pose proof Ht as (Rv & Rm & Ry & Tv & Ty).
  split; [|split; [|split]].
  - intros c Hc. rewrite Ev in Hc. apply in_map_iff in Hc as (s & <- & Hs).
    apply Iv in Hs. pose proof (text_column_has_col _ _ _ Hs) as C.
    destruct (column_In _ _ _ Hs) as (r & Hr & E).
    exists s. eexists. split; [reflexivity|].
    rewrite filter_data_cases, (tidy_vendor_column_ok df _ Ht).
    split; [reflexivity|]. apply (filter_rows_In _ _ r Hr).
    unfold selected, applies, keep_vendor. rewrite C, E.
    cbn [truthy andb items map vendor_keep mem_str existsb].
    assert (Hs' : py_strip s = s).
    { pose proof (proj1 (Forall_forall _ _) (Tv C) _ Hs) as (s' & [= <-] & H).
      exact H. }
    now rewrite (trimmed_lower s Hs'), String.eqb_refl.
  - intros m Hm. apply Im in Hm as [Hm Hs].
    pose proof (text_column_has_col _ _ _ Hs) as C.
    destruct (column_In _ _ _ Hs) as (r & Hr & E).
    eexists. rewrite filter_data_cases, (tidy_vendor_column_ok df _ Ht).
    split; [reflexivity|]. apply (filter_rows_In _ _ r Hr).
    unfold selected, applies, keep_month. rewrite C, E.
    cbn [truthy andb items map month_keep mem_str existsb].
    now rewrite (py_title_month m Hm), String.eqb_refl.
  - intros y Hy. apply Iy in Hy as (q & Hq & ->).
    pose proof (number_column_has_col _ _ _ Hq) as C.
    destruct (column_In _ _ _ Hq) as (r & Hr & E).
    eexists. rewrite filter_data_cases, (tidy_vendor_column_ok df _ Ht).
    split; [reflexivity|]. apply (filter_rows_In _ _ r Hr).
    unfold selected, applies, keep_year. rewrite C, E.
    cbn [truthy andb items year_keep existsb].
    pose proof (proj1 (Forall_forall _ _) Ty _ Hq) as [H|(q' & z & [= <-] & H)];
      [discriminate H|].
    rewrite (truncated_Qeq _ _ H), truncated_whole, orb_false_r.
    now apply Qeq_bool_iff.
  - rewrite filter_data_cases, (tidy_vendor_column_ok df _ Ht). f_equal.
    apply filter_rows_all. intros r Hr.
    unfold selected, applies, keep_vendor.
    remember (Some (map text_of (vendors f))) as vs eqn:Evs.
    cbn [truthy andb]. rewrite !andb_true_r.
    destruct (truthy vs); [|reflexivity]. subst vs.
    cbn [andb]. destruct (has_col "vendor_name" df) eqn:C; [|reflexivity].
    assert (Hc : In (get (columns df) "vendor_name" r) (column "vendor_name" df))
      by (unfold column; now apply in_map).
    pose proof (proj1 (Forall_forall _ _) (Tv eq_refl) _ Hc) as (s & E & Hs).
    rewrite E in *. cbn [vendor_keep items]. apply mem_str_In.
    apply in_map_iff. exists s. split; [now apply trimmed_lower|].
    rewrite Ev, map_map. cbn [text_of]. rewrite map_id. now apply Iv.
Qed.

End OptionsProperties.

(** ** The options of the loaded dataset *)

Lemma absent_not_repeated n df : has_col n df = false -> repeated n df = false.
Proof.
  unfold has_col, repeated. intros H.
  assert (E : count_occ string_dec (columns df) n = 0).
  { apply count_occ_not_In. intros Hin. apply mem_str_In in Hin. congruence. }
  now rewrite E.
Qed.

Section DashboardOptions.

Variable float_repr : Q -> string.
Variable to_numeric_text : string -> option Q.
Variable py_title : string -> string.
Variable py_int : string -> option Z.

Hypothesis py_title_month : forall m, In m MONTH_ORDER -> py_title m = m.

Local Abbreviation load2 := (load_data float_repr to_numeric_text py_title).

(** What [load_data] returns is tidy. *)
Lemma loaded_tidy df out :
  load2 df = Ok out -> empty df = false \/ NoDup (columns df) -> tidy out.
Proof.
  intros H Hwf.
  destruct (load_data_steps _ _ _ df out H) as (o1 & o2 & H1 & H2 & ->).
  destruct (remove_page_rows_kept _ o1 o2 H2) as (Hc & Hincl & _ & _).
  assert (K : forall n, mem_str n REDUNDANT = false ->
            has_col n (drop_redundant_columns o2) = has_col n o1
            /\ repeated n (drop_redundant_columns o2) = repeated n o1
            /\ incl (column n (drop_redundant_columns o2)) (column n o1)).
  { intros n Hn. destruct (drop_redundant_kept n o2 Hn) as (-> & -> & ->).
    destruct (same_labels n o2 o1 Hc) as [-> ->].
    repeat split. now apply column_incl. }
  destruct (K "vendor_name" eq_refl) as (Hv & Rv & Iv).
  destruct (K "report_month" eq_refl) as (_ & Rm & _).
  destruct (K "report_year" eq_refl) as (_ & Ry & Iy).
  unfold tidy. rewrite Hv, Rv, Rm, Ry. clear K.
  destruct (empty df) eqn:He.
  - destruct Hwf as [|Hnd]; [discriminate|].
    rewrite (standardize_empty _ _ _ df o1 H1 He) in *.
    repeat split; try (now apply NoDup_not_repeated).
    + intros C. destruct (empty_no_cells "vendor_name" df He) as [E|E];
        [congruence|].
      eapply Forall_incl; [exact Iv|]. unfold column. rewrite E. constructor.
    + eapply Forall_incl; [exact Iy|].
      destruct (empty_no_cells "report_year" df He) as [E|E].
      * apply Forall_forall. intros c Hc'. left.
        now apply (absent_column _ _ E).
      * unfold column. rewrite E. constructor.
  - destruct (standardize_ok _ _ _ df o1 H1 He) as [Hcols _].
    edestruct standardize_checks as [Hrep _]; [exact H1 | exact He |].
    cbv zeta in *.
    assert (Hren : columns o1 = columns (rename df)) by (now rewrite Hcols).
    assert (R : forall n,
              In n ["vendor_name"; "amount"; "report_year"; "report_month";
                    "schedule"; "county"; "sub_county"; "latitude"; "longitude"] ->
              repeated n o1 = false).
    { intros n Hn. destruct (has_col n o1) eqn:C.
      - destruct (same_labels n o1 _ Hren) as [Eh Er].
        rewrite Er. apply Hrep; [exact Hn | now rewrite <- Eh].
      - now apply absent_not_repeated. }
    repeat split; try (apply R; cbn; tauto).
    + intros C. eapply Forall_incl; [exact Iv|].
      pose proof (standardized_vendor_rows _ _ _ df o1 H1 He C) as Hclean.
      unfold column. apply Forall_forall. intros c Hin.
      apply in_map_iff in Hin as (r & <- & Hr).
      destruct (proj1 (Forall_forall _ _) Hclean r Hr) as (s & Hl & _ & Hs).
      unfold get. rewrite Hl. now exists s.
    + eapply Forall_incl; [exact Iy|].
      pose proof (standardize_typed_rows _ _ _ df o1 H1 He) as Ht.
      unfold column. apply Forall_forall. intros c Hin.
      apply in_map_iff in Hin as (r & <- & Hr).
      pose proof (proj1 (Forall_forall _ _) Ht r Hr) as Hrow.
      unfold get. destruct (lookup (columns o1) "report_year" r) as [c|] eqn:E;
        [|now left].
      now apply (proj1 (proj2 (Hrow c))).
Qed.

(** X8.  The dashboard offers no dead option.  On the dataset [load_data]
    returns (from a table that has a row and a column, or whose labels are
    distinct) [available_filters] returns, and every vendor, month and
    year it offers, passed alone to [filter_data], selects at least one
    row; the vendors offered, passed together, select the whole dataset.
    [str.title] is taken to leave the twelve month names as they are. *)
Theorem loaded_options_live df out :
  load_data float_repr to_numeric_text py_title df = Ok out ->
  empty df = false \/ NoDup (columns df) ->
  exists f,
    available_filters py_int out = Ok f
    /\ (forall c, In c (vendors f) ->
          exists s res, c = Str s
                        /\ filter_data py_title out (Some [s]) None None = Ok res
                        /\ rows res <> [])
    /\ (forall m, In m (months f) ->
          exists res, filter_data py_title out None (Some [m]) None = Ok res
                      /\ rows res <> [])
    /\ (forall y, In y (years f) ->
          exists res, filter_data py_title out None None (Some [y]) = Ok res
                      /\ rows res <> [])
    /\ filter_data py_title out (Some (map text_of (vendors f))) None None
       = Ok out.
Proof.
  intros H Hwf. pose proof (loaded_tidy df out H Hwf) as Ht.
  destruct (tidy_listing py_int out Ht) as (f & _ & Hf & _).
  exists f. split; [exact Hf|].
  now apply (options_live py_int py_title py_title_month out f).
Qed.

End DashboardOptions.

Lemma loaded_options_live_witness :
  exists f,
    available_filters (fun _ => None) master_loaded = Ok f
    /\ (forall c, In c (vendors f) ->
          exists s res, c = Str s
                        /\ filter_data (fun s => s) master_loaded (Some [s]) None None
                           = Ok res
                        /\ rows res <> [])
    /\ (forall m, In m (months f) ->
          exists res, filter_data (fun s => s) master_loaded None (Some [m]) None
                      = Ok res
                      /\ rows res <> [])
    /\ (forall y, In y (years f) ->
          exists res, filter_data (fun s => s) master_loaded None None (Some [y])
                      = Ok res
                      /\ rows res <> [])
    /\ filter_data (fun s => s) master_loaded
         (Some (map text_of (vendors f))) None None
       = Ok master_loaded.
Proof.
  apply (loaded_options_live (fun _ => "") read_decimal (fun s => s)
           (fun _ => None) (fun m _ => eq_refl) master_table master_loaded
           load_data_master).
  now left.
Defined.

(* ===================================================================== *)
(** * Further properties: the registry *)
(* ===================================================================== *)

(** A table whose rows hold one cell per label. *)
Definition rectangular (df : DataFrame) : Prop :=
  Forall (fun r => List.length r = List.length (columns df)) (rows df).

Lemma lookup_app cols n m : forall row v,
  List.length row = List.length cols ->
  lookup (cols ++ [m]) n (row ++ [v])
  = match lookup cols n row with
    | Some c => Some c
    | None => if String.eqb m n then Some v else None
    end.
Proof.
  induction cols as [|c cols IH]; intros [|x row] v H; try discriminate H.
  - reflexivity.
  - cbn [app lookup]. destruct (String.eqb c n); [reflexivity|].
    apply IH. now injection H.
Qed.

Lemma lookup_present cols n : forall row,
  List.length row = List.length cols -> mem_str n cols = true ->
  exists c, lookup cols n row = Some c.
Proof.
  induction cols as [|c cols IH]; intros [|x row] H Hn; try discriminate.
  cbn [lookup]. cbn in Hn. rewrite (String.eqb_sym n c) in Hn.
  destruct (String.eqb c n); [eauto|]. apply IH; [now injection H | exact Hn].
Qed.

Lemma lookup_absent cols n row : mem_str n cols = false -> lookup cols n row = None.
Proof.
  intros H. destruct (lookup cols n row) as [c|] eqn:E; [|reflexivity].
  apply lookup_Some_label in E. congruence.
Qed.

Section RegistryProperties.

Variable nfkd_ascii : string -> string.
Variable float_repr : Q -> string.

Hypothesis nfkd_ascii_id :
  forall s, Forall (fun c => (code c <? 128)%N = true) (chars_of s) ->
            nfkd_ascii s = s.

Local Abbreviation clean := (_clean_name nfkd_ascii).
Local Abbreviation loadreg := (load_registry nfkd_ascii float_repr).
Local Abbreviation regkey := (registry_key nfkd_ascii float_repr).

(** The text [load_registry] cleans for a row: the official name, or the
    name when there is no official name. *)
Definition registry_name (cols : list string) (r : list cell) : cell :=
  fillna (get cols "official_name" r) (get cols "name" r).

Lemma get_added cols m f r n :
  List.length r = List.length cols ->
  get (cols ++ [m]) n (r ++ [f r])
  = if mem_str n cols then get cols n r
    else if String.eqb m n then f r else NA.
Proof.
  intros H. unfold get. rewrite (lookup_app cols n m r (f r) H).
  destruct (mem_str n cols) eqn:C.
  - destruct (lookup_present cols n r H C) as (c & ->). reflexivity.
  - rewrite (lookup_absent cols n r C). now destruct (String.eqb m n).
Qed.

(** X9.  [load_registry]: without a file the registry has the eight
    registry columns and no row; a registry that has a
    [facility_name_clean] column is returned as read; otherwise both name
    columns are needed ([KeyError] without them), and the result is the
    table read with one more column, [facility_name_clean], in which each
    row holds the cleaned official name, or the cleaned name when the
    official name is missing.  That key is a text that [_clean_name]
    leaves unchanged; the other cells of the row are as read. *)
Theorem load_registry_keys :
  load_registry nfkd_ascii float_repr None
  = Ok {| columns := REGISTRY_COLUMNS; rows := [] |}
  /\ (forall reg, has_col "facility_name_clean" reg = true ->
                  load_registry nfkd_ascii float_repr (Some reg) = Ok reg)
  /\ (forall reg, has_col "facility_name_clean" reg = false ->
                  has_col "official_name" reg = false \/ has_col "name" reg = false ->
                  load_registry nfkd_ascii float_repr (Some reg) = Raise KeyError)
  /\ (forall reg,
        has_col "facility_name_clean" reg = false ->
        has_col "official_name" reg = true -> has_col "name" reg = true ->
        rectangular reg ->
        exists out,
          load_registry nfkd_ascii float_repr (Some reg) = Ok out
          /\ columns out = columns reg ++ ["facility_name_clean"]
          /\ Forall2
               (fun r r' =>
                  (forall n, has_col n reg = true ->
                             get (columns out) n r' = get (columns reg) n r)
                  /\ exists k,
                       get (columns out) "facility_name_clean" r' = Str k
                       /\ k = _clean_name nfkd_ascii
                                (Some (astype_str float_repr
                                         (registry_name (columns reg) r)))
                       /\ _clean_name nfkd_ascii (Some k) = k)
               (rows reg) (rows out)).
Proof.
  split; [reflexivity|]. split; [|split].
  - intros reg H. cbn [load_registry]. now rewrite H.
  - intros reg H Hn. cbn [load_registry]. rewrite H.
    destruct Hn as [-> | ->]; [reflexivity | now rewrite andb_false_r].
  - intros reg Hk Ho Hn Hrect. cbn [load_registry]. rewrite Hk, Ho, Hn.
    cbn [andb]. eexists. split; [reflexivity|]. split; [reflexivity|].
    cbn [add_column columns rows].
    assert (HF : Forall (fun r => (fun r r' =>
                (forall n, has_col n reg = true ->
                   get (columns reg ++ ["facility_name_clean"]) n r'
                   = get (columns reg) n r)
                /\ exists k,
                     get (columns reg ++ ["facility_name_clean"])
                       "facility_name_clean" r' = Str k
                     /\ k = clean (Some (astype_str float_repr
                                           (registry_name (columns reg) r)))
                     /\ clean (Some k) = k)
               r (r ++ [regkey (columns reg) r])) (rows reg)).
    { eapply Forall_impl; [|exact Hrect]. intros r Hr. split.
      - intros n Hc. rewrite (get_added _ _ (regkey (columns reg)) r n Hr).
        unfold has_col in Hc. now rewrite Hc.
      - eexists. rewrite (get_added _ _ (regkey (columns reg)) r _ Hr).
        unfold has_col in Hk. rewrite Hk, String.eqb_refl.
        split; [reflexivity|]. split; [reflexivity|].
        apply (clean_name_fixed nfkd_ascii nfkd_ascii_id).
        apply clean_name_canonical. }
    clear Hrect. induction (rows reg) as [|r rs IH]; cbn [map]; [constructor|].
    inversion HF; subst. constructor; auto.
Qed.

End RegistryProperties.

(** A small registry without keys. *)
Definition small_registry : DataFrame :=
  {| columns := ["facility_id"; "official_name"; "name"; "county"; "sub_county";
                 "facility_type"; "keph_level"];
     rows := [[Num 11; Str "St. Mary's Hospital"; Str "St Marys"; Str "Nairobi";
               NA; Str "Hospital"; Num 4];
              [Num 12; NA; Str "ACME Clinic"; Str "Kiambu"; Str "Thika";
               Str "Clinic"; Num 2]] |}.

Lemma load_registry_keys_witness :
  exists out,
    load_registry ascii_only (fun _ => "") (Some small_registry) = Ok out
    /\ columns out = columns small_registry ++ ["facility_name_clean"]
    /\ Forall2
         (fun r r' =>
            (forall n, has_col n small_registry = true ->
                       get (columns out) n r' = get (columns small_registry) n r)
            /\ exists k,
                 get (columns out) "facility_name_clean" r' = Str k
                 /\ k = _clean_name ascii_only
                          (Some (astype_str (fun _ => "")
                                   (registry_name (columns small_registry) r)))
                 /\ _clean_name ascii_only (Some k) = k)
         (rows small_registry) (rows out).
Proof.
  apply (proj2 (proj2 (proj2
           (load_registry_keys ascii_only (fun _ => "") ascii_only_id)))
           small_registry); try reflexivity.
  repeat constructor.
Defined.

(** ** Registry and enrichment together *)

Definition KEY_COLS : list string :=
  ["facility_id"; "official_name"; "name"; "county"; "sub_county";
   "facility_type"; "keph_level"].

Section RegistryEnrichment.

Variable nfkd_ascii : string -> string.
Variable float_repr : Q -> string.
Variable token_sort_ratio : string -> string -> Q.
Variable HAVE_RAPIDFUZZ : bool.

Local Abbreviation loadreg2 := (load_registry nfkd_ascii float_repr).
Local Abbreviation enrich2 :=
  (enrich_with_registry nfkd_ascii float_repr token_sort_ratio HAVE_RAPIDFUZZ).

Lemma In_exact_rows reg cols r e :
  In e reg -> key_is (vendor_clean nfkd_ascii float_repr cols r) e = true ->
  In {| source := r; registry := attrs e; match_score := NA |}
    (exact_rows nfkd_ascii float_repr reg cols r).
Proof.
  intros He Hk. unfold exact_rows.
  assert (Hin : In e (filter (key_is (vendor_clean nfkd_ascii float_repr cols r)) reg))
    by (apply filter_In; now split).
  destruct (filter _ reg) as [|e0 es]; [destruct Hin|].
  apply (in_map (fun e => {| source := r; registry := attrs e;
                             match_score := NA |})) in Hin. exact Hin.
Qed.

Lemma fuzzy_row_resolved reg cols cutoff x :
  unresolved x = false ->
  fuzzy_row nfkd_ascii float_repr token_sort_ratio reg cols cutoff x = x.
Proof. unfold fuzzy_row. now intros ->. Qed.

(** X10.  The registry key and the vendor key are computed alike: a
    disbursement row whose vendor name is the official name of a registry
    facility is resolved by the exact pass.  For a registry read without
    keys, with its seven attribute columns, enrichment with the loaded
    registry returns in exact mode, and whenever it returns (in exact
    mode, or in fuzzy mode for a facility that has an identifier) its
    result has that row with the attributes of that facility. *)
Theorem official_name_resolves reg df r g s :
  has_col "facility_name_clean" reg = false ->
  Forall (fun n => has_col n reg = true) KEY_COLS ->
  rectangular reg ->
  has_col "vendor_name" df = true -> repeated "vendor_name" df = false ->
  In r (rows df) -> In g (rows reg) ->
  get (columns df) "vendor_name" r = Str s ->
  get (columns reg) "official_name" g = Str s ->
  exists out,
    load_registry nfkd_ascii float_repr (Some reg) = Ok out
    /\ (forall cutoff,
          is_ok (enrich_with_registry nfkd_ascii float_repr token_sort_ratio
                   HAVE_RAPIDFUZZ df (entities out) false cutoff) = true)
    /\ forall fuzzy cutoff res,
         fuzzy = false \/ notna (get (columns reg) "facility_id" g) = true ->
         enrich_with_registry nfkd_ascii float_repr token_sort_ratio
           HAVE_RAPIDFUZZ df (entities out) fuzzy cutoff = Ok res ->
         exists rows',
           res = Enriched (columns df) rows'
           /\ In {| source := r;
                    registry := attrs (entity (columns reg) g);
                    match_score := NA |} rows'.
Proof.
  intros Hk Hcols Hrect Hv Rv Hr Hg Evendor Eofficial.
  assert (Ho : has_col "official_name" reg = true)
    by (apply (proj1 (Forall_forall _ _) Hcols); cbn; tauto).
  assert (Hn : has_col "name" reg = true)
    by (apply (proj1 (Forall_forall _ _) Hcols); cbn; tauto).
  eexists. split; [cbn [load_registry]; rewrite Hk, Ho, Hn; reflexivity|].
  set (out := add_column "facility_name_clean"
                (registry_key nfkd_ascii float_repr (columns reg)) reg).
  set (g' := g ++ [registry_key nfkd_ascii float_repr (columns reg) g]).
  set (e := entity (columns out) g').
  assert (Hlen : List.length g = List.length (columns reg))
    by (apply (proj1 (Forall_forall _ _) Hrect g Hg)).
  assert (Hget : forall n, has_col n reg = true ->
            get (columns out) n g' = get (columns reg) n g).
  { intros n Hc. unfold out, g'. cbn [add_column columns].
    rewrite (get_added _ _ (registry_key nfkd_ascii float_repr (columns reg)) g n Hlen).
    unfold has_col in Hc. now rewrite Hc. }
  assert (He : In e (entities out)).
  { unfold entities, e. apply in_map. unfold out. cbn [add_column rows].
    apply (in_map (fun r => r ++ [registry_key nfkd_ascii float_repr (columns reg) r])).
    exact Hg. }
  assert (Hattrs : attrs e = attrs (entity (columns reg) g)).
  { unfold e, entity. cbn [attrs].
    rewrite !Hget by (apply (proj1 (Forall_forall _ _) Hcols); cbn; tauto).
    reflexivity. }
  assert (Hkey : key_is (vendor_clean nfkd_ascii float_repr (columns df) r) e = true).
  { unfold key_is, vendor_clean, e, entity. cbn [facility_name_clean].
    unfold out, g'. cbn [add_column columns].
    rewrite (get_added _ _ (registry_key nfkd_ascii float_repr (columns reg)) g _ Hlen).
    unfold has_col in Hk. rewrite Hk, String.eqb_refl.
    unfold registry_key. rewrite Evendor, Eofficial. cbn [fillna text_of].
    apply String.eqb_refl. }
  assert (Hjoin : In {| source := r; registry := attrs (entity (columns reg) g);
                        match_score := NA |}
                    (exact_join nfkd_ascii float_repr (entities out) df)).
  { unfold exact_join. apply in_flat_map. exists r. split; [exact Hr|].
    rewrite <- Hattrs. now apply In_exact_rows. }
  assert (Hguard : empty df || is_nil (entities out)
                   || negb (has_col "vendor_name" df) = false).
  { rewrite Hv. unfold empty. unfold has_col in Hv.
    destruct (columns df); [discriminate Hv|].
    destruct (rows df); [destruct Hr|].
    destruct (entities out); [destruct He | reflexivity]. }
  split.
  - intros cutoff. unfold enrich_with_registry. now rewrite Hguard, Rv.
  - intros fuzzy cutoff res Hmode Hres. unfold enrich_with_registry in Hres.
    rewrite Hguard, Rv in Hres.
    destruct (negb fuzzy || negb HAVE_RAPIDFUZZ) eqn:Emode.
    + injection Hres as <-. eexists. split; [reflexivity | exact Hjoin].
    + destruct (existsb unresolved _) eqn:Eu.
      * destruct (unique _); [|discriminate Hres]. injection Hres as <-.
        eexists. split; [reflexivity|].
        destruct Hmode as [-> | Hid]; [discriminate Emode|].
        apply in_map_iff. eexists. split; [|exact Hjoin].
        apply fuzzy_row_resolved. unfold unresolved. cbn [registry].
        unfold entity. cbn [attrs facility_id]. now rewrite Hid.
      * injection Hres as <-. eexists. split; [reflexivity | exact Hjoin].
Qed.

End RegistryEnrichment.

Lemma official_name_resolves_witness :
  exists out,
    load_registry ascii_only (fun _ => "") (Some small_registry) = Ok out
    /\ (forall cutoff,
          is_ok (enrich_with_registry ascii_only (fun _ => "") (fun _ _ => 0%Q) true
                   {| columns := ["vendor_name"; "amount"];
                      rows := [[Str "St. Mary's Hospital"; Num 10]] |}
                   (entities out) false cutoff) = true)
    /\ forall fuzzy cutoff res,
         fuzzy = false
         \/ notna (get (columns small_registry) "facility_id"
                     [Num 11; Str "St. Mary's Hospital"; Str "St Marys";
                      Str "Nairobi"; NA; Str "Hospital"; Num 4]) = true ->
         enrich_with_registry ascii_only (fun _ => "") (fun _ _ => 0%Q) true
           {| columns := ["vendor_name"; "amount"];
              rows := [[Str "St. Mary's Hospital"; Num 10]] |}
           (entities out) fuzzy cutoff = Ok res ->
         exists rows',
           res = Enriched ["vendor_name"; "amount"] rows'
           /\ In {| source := [Str "St. Mary's Hospital"; Num 10];
                    registry :=
                      attrs (entity (columns small_registry)
                               [Num 11; Str "St. Mary's Hospital"; Str "St Marys";
                                Str "Nairobi"; NA; Str "Hospital"; Num 4]);
                    match_score := NA |} rows'.
Proof.
  apply (official_name_resolves ascii_only (fun _ => "") (fun _ _ => 0%Q) true
           small_registry
           {| columns := ["vendor_name"; "amount"];
              rows := [[Str "St. Mary's Hospital"; Num 10]] |}
           [Str "St. Mary's Hospital"; Num 10]
           [Num 11; Str "St. Mary's Hospital"; Str "St Marys"; Str "Nairobi"; NA;
            Str "Hospital"; Num 4]
           "St. Mary's Hospital");
    try reflexivity.
  - repeat constructor.
  - repeat constructor.
  - now left.
  - now left.
Defined.

(** ** The fuzzy pass *)

Section FuzzyPass.

Variable nfkd_ascii : string -> string.
Variable float_repr : Q -> string.
Variable token_sort_ratio : string -> string -> Q.
Variable HAVE_RAPIDFUZZ : bool.

Local Abbreviation enrich3 :=
  (enrich_with_registry nfkd_ascii float_repr token_sort_ratio HAVE_RAPIDFUZZ).
Local Abbreviation xjoin3 := (exact_join nfkd_ascii float_repr).

Lemma Forall2_same {A} (P : A -> A -> Prop) l :
  (forall x, P x x) -> Forall2 P l l.
Proof. intros H. induction l; constructor; auto. Qed.

(** X11.  The fuzzy pass never touches a row the exact pass resolved.
    Whenever enrichment with the fuzzy pass returns an enriched table,
    enrichment without it returns the exact join, and the two have the
    same rows in the same order except that rows without a facility
    identifier may have been completed; when the exact join leaves no row
    unresolved the two results are equal. *)
Theorem fuzzy_pass_keeps_exact df reg cutoff cols out :
  enrich_with_registry nfkd_ascii float_repr token_sort_ratio HAVE_RAPIDFUZZ
    df reg true cutoff = Ok (Enriched cols out) ->
  enrich_with_registry nfkd_ascii float_repr token_sort_ratio HAVE_RAPIDFUZZ
    df reg false cutoff
  = Ok (Enriched cols (exact_join nfkd_ascii float_repr reg df))
  /\ Forall2 (fun e o => source o = source e /\ (unresolved e = false -> o = e))
       (exact_join nfkd_ascii float_repr reg df) out
  /\ (existsb unresolved (exact_join nfkd_ascii float_repr reg df) = false ->
      out = exact_join nfkd_ascii float_repr reg df).
Proof.
  unfold enrich_with_registry.
  destruct (empty df || is_nil reg || negb (has_col "vendor_name" df));
    [discriminate|].
  destruct (repeated "vendor_name" df); [discriminate|].
  cbn [negb orb]. destruct HAVE_RAPIDFUZZ; cbn [negb].
  - destruct (existsb unresolved _) eqn:Eu.
    + destruct (unique _); [|discriminate]. intros [= <- <-].
      split; [reflexivity|]. split; [|discriminate].
      apply Forall2_map_r. intros e. split.
      * unfold fuzzy_row. destruct (unresolved e); [|reflexivity].
        now destruct (best_match _ _ _ _) as [[k|] s].
      * unfold fuzzy_row. now intros ->.
    + intros [= <- <-]. split; [reflexivity|]. split; [|reflexivity].
      now apply Forall2_same.
  - intros [= <- <-]. split; [reflexivity|]. split; [|reflexivity].
    now apply Forall2_same.
Qed.

End FuzzyPass.

(* ===================================================================== *)
(** * Further properties: the top vendors *)
(* ===================================================================== *)

(** ** The groups *)

Lemma cell_eqb_sym a b : cell_eqb a b = cell_eqb b a.
Proof.
  destruct a as [|s|p], b as [|t|q]; cbn; try reflexivity.
  - apply String.eqb_sym.
  - destruct (Qeq_bool p q) eqn:E, (Qeq_bool q p) eqn:E'; try reflexivity.
    + apply Qeq_bool_iff in E. symmetry in E. apply Qeq_bool_iff in E. congruence.
    + apply Qeq_bool_iff in E'. symmetry in E'. apply Qeq_bool_iff in E'. congruence.
Qed.

(** Pairwise different values. *)
Definition apart (l : list cell) : Prop :=
  ForallOrdPairs (fun a b => cell_eqb a b = false) l.

Lemma apart_Permutation l l' : Permutation l l' -> apart l -> apart l'.
Proof.
  unfold apart. induction 1 as [|x l l' Hp IH|x y l|l l' l'' _ IH1 _ IH2];
    intros H; auto.
  - inversion H; subst. constructor; [|auto].
    now apply (Permutation_Forall Hp).
  - inversion H as [|a l0 Ha Hl]; subst. inversion Hl as [|b l1 Hb Hl']; subst.
    inversion Ha; subst. constructor; [|now constructor].
    constructor; [|assumption]. now rewrite cell_eqb_sym.
Qed.

Lemma parts_Permutation u :
  Permutation
    (map Num (numbers_in u) ++ map Str (texts_in u)
     ++ filter (fun c => negb (notna c)) u) u.
Proof.
  induction u as [|c u IH]; [reflexivity|].
  destruct c as [|s|q]; cbn [numbers_in texts_in flat_map filter notna negb app map].
  - rewrite <- Permutation_middle.
    rewrite <- (Permutation_middle (map Num (numbers_in u))).
    now constructor.
  - rewrite <- (Permutation_middle (map Num (numbers_in u))). now constructor.
  - now constructor.
Qed.

Lemma group_keys_Permutation col : Permutation (group_keys col) (distinct col).
Proof.
  unfold group_keys. cbv zeta.
  rewrite <- (parts_Permutation (distinct col)) at 4.
  apply Permutation_app; [|apply Permutation_app_tail];
    apply Permutation_map, sorted_Permutation.
Qed.

Lemma group_keys_apart col : apart (group_keys col).
Proof.
  apply (apart_Permutation (distinct col));
    [symmetry; apply group_keys_Permutation | apply distinct_apart].
Qed.

Lemma group_keys_In col key : In key (group_keys col) -> In key col.
Proof.
  intros H. apply (Permutation_in _ (group_keys_Permutation col)) in H.
  now apply distinct_incl.
Qed.

Lemma group_keys_complete col c :
  In c col -> exists key, In key (group_keys col) /\ cell_eqb key c = true.
Proof.
  intros H. destruct (distinct_complete col c H) as (d & Hd & E).
  exists d. split; [|exact E].
  apply (Permutation_in _ (Permutation_sym (group_keys_Permutation col))), Hd.
Qed.

(** The total of a vendor: what the additions make of the amounts of its
    rows that are not missing. *)
Definition vendor_total (groupby_sum : list Q -> Q) (df : DataFrame) (v : cell) : Q :=
  groupby_sum (numbers_in (group_amounts df v)).


Lemma group_amounts_numeric df key :
  Forall (fun c => is_str c = false) (column "amount" df) ->
  Forall (fun c => is_str c = false) (group_amounts df key).
Proof.
  intros H. apply Forall_forall. intros c Hc. unfold group_amounts in Hc.
  apply in_map_iff in Hc as (r & <- & Hr). apply filter_In in Hr as [Hr _].
  apply (proj1 (Forall_forall _ _) H). unfold column. now apply in_map.
Qed.

(** Among pairwise different values, equal ones are the same. *)
Lemma apart_unique l a b :
  apart l -> In a l -> In b l -> cell_eqb a b = true -> a = b.
Proof.
  unfold apart. induction 1 as [|c l Hc _ IH]; [easy|].
  intros [<-|Ha] [<-|Hb] E; auto.
  - pose proof (proj1 (Forall_forall _ _) Hc b Hb) as N. cbv beta in N. congruence.
  - pose proof (proj1 (Forall_forall _ _) Hc a Ha) as N. cbv beta in N.
    rewrite cell_eqb_sym in N. congruence.
Qed.

(** ** [head] *)

Lemma head_prefix {A} k (l : list A) : exists rest, l = head k l ++ rest.
Proof.
  unfold head. destruct (0 <=? k)%Z; eexists; symmetry; apply firstn_skipn.
Qed.




Lemma head_all {A} k (l : list A) :
  (Z.of_nat (List.length l) <= k)%Z -> head k l = l.
Proof.
  intros H. unfold head.
  assert (E : (0 <=? k)%Z = true) by (apply Z.leb_le; lia).
  rewrite E. apply firstn_all2. lia.
Qed.

Lemma head_map {A B} (f : A -> B) k l : head k (map f l) = map f (head k l).
Proof.
  unfold head. rewrite length_map. destruct (0 <=? k)%Z; apply firstn_map.
Qed.

(** ** The ranking *)

Lemma apart_app_l l l' : apart (l ++ l') -> apart l.
Proof.
  unfold apart. induction l as [|c l IH]; intros H; [constructor|].
  cbn [app] in H. inversion H; subst. constructor; [|auto].
  apply Forall_forall. intros d Hd.
  apply (proj1 (Forall_forall _ _) H2). apply in_or_app. now left.
Qed.




(** A pair of a vendor and its sum, the sum as a number. *)
Definition ranked (p : cell * cell) : cell * Q := (fst p, amount_or_zero (snd p)).

(** The vendor column of a table of vendors and amounts. *)
Lemma vendor_column_of_table (l : list (cell * Q)) :
  column "vendor_name"
    {| columns := ["vendor_name"; "amount"];
       rows := map (fun p => [fst p; Num (snd p)]) l |}
  = map fst l.
Proof.
  unfold column. cbn [columns rows]. rewrite map_map. now apply map_ext.
Qed.

Section TopVendorsProperties.

Variable sort_values_desc : list (cell * cell) -> list (cell * cell).
Variable groupby_sum : list Q -> Q.

(** What is known of [sort_values]: it permutes the rows. *)
Hypothesis sort_Permutation : forall l, Permutation (sort_values_desc l) l.

Lemma group_sum_numeric vals :
  Forall (fun c => is_str c = false) vals ->
  group_sum groupby_sum vals = Ok (Num (groupby_sum (numbers_in vals))).
Proof.
  intros H. unfold group_sum.
  assert (E : existsb is_str vals = false).
  { induction H as [|c l Hc _ IH]; [reflexivity|]. cbn. now rewrite Hc, IH. }
  now rewrite E.
Qed.

(** The pairs of a vendor and its total, for numeric amounts. *)
Definition totalled (df : DataFrame) (p : cell * cell) : Prop :=
  snd p = Num (vendor_total groupby_sum df (fst p)).

Lemma grp_numeric df keys :
  Forall (fun c => is_str c = false) (column "amount" df) ->
  exists grp,
    map_result (fun key => s <- group_sum groupby_sum (group_amounts df key) ;;
                           Ok (key, s)) keys
    = Ok grp
    /\ map fst grp = keys
    /\ Forall (totalled df) grp.
Proof.
  intros H. induction keys as [|key keys (grp & E & Hk & Ht)].
  - exists []. repeat split; constructor.
  - exists ((key, Num (vendor_total groupby_sum df key)) :: grp).
    cbn [map_result].
    rewrite (group_sum_numeric _ (group_amounts_numeric df key H)). cbn [bind].
    rewrite E. cbn [bind map fst]. rewrite Hk. repeat split.
    constructor; [reflexivity | exact Ht].
Qed.

Lemma totalled_not_mixed df grp :
  Forall (totalled df) grp -> existsb is_str (map snd grp) = false.
Proof.
  induction 1 as [|p l E _ IH]; [reflexivity|].
  unfold totalled in E. cbn [map existsb]. now rewrite E, IH.
Qed.

Lemma top_vendors_numeric df k :
  empty df || negb (has_col "vendor_name" df) || negb (has_col "amount" df) = false ->
  repeated "vendor_name" df = false ->
  Forall (fun c => is_str c = false) (column "amount" df) ->
  exists grp,
    map fst grp = group_keys (column "vendor_name" df)
    /\ Forall (totalled df) grp
    /\ top_vendors sort_values_desc groupby_sum df k
       = Ok {| columns := ["vendor_name"; "amount"];
               rows := map (fun p => [fst p; Num (snd p)])
                         (head k (map ranked (sort_values_desc grp))) |}.
Proof.
  intros G R H. unfold top_vendors. rewrite G, R.
  destruct (grp_numeric df (group_keys (column "vendor_name" df)) H)
    as (grp & -> & Hk & Ht).
  exists grp. split; [exact Hk|]. split; [exact Ht|]. cbn [bind].
  rewrite (totalled_not_mixed df grp Ht). cbn [andb]. do 2 f_equal.
  rewrite head_map, map_map. apply map_ext_in. intros p Hp.
  destruct (head_prefix k (sort_values_desc grp)) as (rest & E).
  assert (Hin : In p grp).
  { apply (Permutation_in _ (sort_Permutation grp)). rewrite E.
    apply in_or_app. now left. }
  pose proof (proj1 (Forall_forall _ _) Ht p Hin) as Eq. unfold totalled in Eq.
  unfold ranked. cbn [fst snd]. now rewrite Eq.
Qed.

(** Without a row the table is empty. *)
Lemma top_vendors_no_row df k :
  has_col "vendor_name" df = true ->
  empty df || negb (has_col "vendor_name" df) || negb (has_col "amount" df) = true ->
  has_col "amount" df = true ->
  top_vendors sort_values_desc groupby_sum df k
  = Ok {| columns := ["vendor_name"; "amount"]; rows := [] |}
  /\ rows df = [].
Proof.
  intros Hv G Ha. unfold top_vendors. rewrite G. split; [reflexivity|].
  rewrite Hv, Ha in G. cbn [negb orb] in G. rewrite !orb_false_r in G.
  destruct (empty_no_cells "vendor_name" df G) as [E|E]; [congruence | exact E].
Qed.

Lemma ranking_keys df grp :
  map fst grp = group_keys (column "vendor_name" df) ->
  Forall (totalled df) grp ->
  let T := map ranked (sort_values_desc grp) in
  Permutation (map fst T) (distinct (column "vendor_name" df))
  /\ Forall (fun p => snd p = vendor_total groupby_sum df (fst p)) T
  /\ apart (map fst T)
  /\ forall v, In v (column "vendor_name" df) ->
       exists p, In p T /\ cell_eqb (fst p) v = true.
Proof.
  intros Hk Ht T.
  assert (HP : Permutation (map fst T) (group_keys (column "vendor_name" df))).
  { unfold T. rewrite map_map. cbn [ranked fst]. rewrite <- Hk.
    apply Permutation_map, sort_Permutation. }
  assert (HtS : Forall (totalled df) (sort_values_desc grp))
    by (apply (Permutation_Forall (Permutation_sym (sort_Permutation grp))), Ht).
  split; [|split; [|split]].
  - apply (Permutation_trans HP), group_keys_Permutation.
  - apply Forall_forall. intros p Hp. unfold T in Hp.
    apply in_map_iff in Hp as (p0 & <- & Hp0). cbn [ranked fst snd].
    pose proof (proj1 (Forall_forall _ _) HtS p0 Hp0) as Eq.
    unfold totalled in Eq. now rewrite Eq.
  - apply (apart_Permutation _ _ (Permutation_sym HP)), group_keys_apart.
  - intros v Hv. destruct (group_keys_complete _ v Hv) as (key & Hkey & E).
    apply (Permutation_in _ (Permutation_sym HP)) in Hkey.
    apply in_map_iff in Hkey as (p & <- & Hp). now exists p.
Qed.

(** X13.  With room for every vendor nothing is left out.  On a dataset
    with a vendor and an amount column, the vendor label not repeated and
    the amounts numbers or missing, when [k] is at least the number of
    distinct vendor values the table [top_vendors] returns lists every
    distinct vendor value once and no other, each with the total of its
    rows, and every row of the dataset is counted under one vendor of the
    table and one only.  [sort_values] is taken to permute the rows. *)
Theorem top_vendors_complete df k out :
  has_col "vendor_name" df = true ->
  has_col "amount" df = true ->
  repeated "vendor_name" df = false ->
  Forall (fun c => is_str c = false) (column "amount" df) ->
  (Z.of_nat (List.length (distinct (column "vendor_name" df))) <= k)%Z ->
  top_vendors sort_values_desc groupby_sum df k = Ok out ->
  columns out = ["vendor_name"; "amount"]
  /\ Permutation (column "vendor_name" out) (distinct (column "vendor_name" df))
  /\ Forall (fun row => exists key,
               row = [key; Num (vendor_total groupby_sum df key)])
       (rows out)
  /\ forall r, In r (rows df) ->
       exists key,
         In key (column "vendor_name" out)
         /\ cell_eqb key (get (columns df) "vendor_name" r) = true
         /\ forall key', In key' (column "vendor_name" out) ->
              cell_eqb key' (get (columns df) "vendor_name" r) = true ->
              key' = key.
Proof.
  intros Hv Ha R H Hk Hout.
  destruct (empty df || negb (has_col "vendor_name" df)
            || negb (has_col "amount" df)) eqn:G.
  - destruct (top_vendors_no_row df k Hv G Ha) as [E Hrows].
    rewrite E in Hout. injection Hout as <-. cbn [columns rows].
    split; [reflexivity|]. unfold column. rewrite Hrows. cbn [rows map distinct].
    split; [constructor|]. split; [constructor | intros r []].
  - destruct (top_vendors_numeric df k G R H) as (grp & Hkeys & Ht & E).
    destruct (ranking_keys df grp Hkeys Ht) as (F0 & F1 & F2 & F4).
    cbv zeta in *. set (T := map ranked (sort_values_desc grp)) in *.
    rewrite E in Hout. injection Hout as <-.
    rewrite head_all
      by (rewrite <- (length_map fst), (Permutation_length F0); exact Hk).
    rewrite vendor_column_of_table. cbn [columns rows].
    split; [reflexivity|]. split; [exact F0|]. split.
    + apply Forall_forall. intros row Hrow.
      apply in_map_iff in Hrow as (p & <- & Hp). exists (fst p).
      now rewrite (proj1 (Forall_forall _ _) F1 p Hp).
    + intros r Hr.
      destruct (F4 (get (columns df) "vendor_name" r)) as (p & Hp & Ep).
      { unfold column. now apply in_map. }
      exists (fst p). split; [now apply in_map|]. split; [exact Ep|].
      intros key' Hkey' E'.
      apply (apart_unique (map fst T)); [exact F2 | exact Hkey' | now apply in_map|].
      apply (cell_eqb_trans _ _ _ E'). now rewrite cell_eqb_sym.
Qed.

(** [sort_values] orders the rows with numeric amounts by descending
    amount. *)
Hypothesis sort_descending :
  forall l, Forall (fun p => is_str (snd p) = false) l ->
            Sorted (fun a b => (amount_or_zero (snd b) <= amount_or_zero (snd a))%Q)
              (sort_values_desc l).



End TopVendorsProperties.

(** A stable descending sort, one of the orders [sort_values] may give. *)
Definition by_amount_desc (a b : cell * cell) : bool :=
  Qle_bool (amount_or_zero (snd b)) (amount_or_zero (snd a)).

Definition stable_desc (l : list (cell * cell)) : list (cell * cell) :=
  sorted by_amount_desc l.


Lemma stable_desc_Permutation l : Permutation (stable_desc l) l.
Proof. apply sorted_Permutation. Qed.




(** The two best paid vendors of the sample. *)
Example top_vendors_sample :
  top_vendors stable_desc exact_sum sample_dataset 2
  = Ok {| columns := ["vendor_name"; "amount"];
          rows := [[Str "Acme Clinic"; Num (100 + 0)];
                   [Str "Beta Hospital"; Num ((5 # 2) + 0)]] |}.
Proof. reflexivity. Qed.

Lemma top_vendors_complete_witness :
  columns {| columns := ["vendor_name"; "amount"];
             rows := [[Str "Acme Clinic"; Num (100 + 0)];
                      [Str "Beta Hospital"; Num ((5 # 2) + 0)];
                      [Str "acme clinic"; Num 0]] |}
  = ["vendor_name"; "amount"]
  /\ Permutation
       (column "vendor_name"
          {| columns := ["vendor_name"; "amount"];
             rows := [[Str "Acme Clinic"; Num (100 + 0)];
                      [Str "Beta Hospital"; Num ((5 # 2) + 0)];
                      [Str "acme clinic"; Num 0]] |})
       (distinct (column "vendor_name" sample_dataset))
  /\ Forall (fun row => exists key,
               row = [key; Num (vendor_total exact_sum sample_dataset key)])
       [[Str "Acme Clinic"; Num (100 + 0)];
        [Str "Beta Hospital"; Num ((5 # 2) + 0)];
        [Str "acme clinic"; Num 0]]
  /\ forall r, In r (rows sample_dataset) ->
       exists key,
         In key (column "vendor_name"
                   {| columns := ["vendor_name"; "amount"];
                      rows := [[Str "Acme Clinic"; Num (100 + 0)];
                               [Str "Beta Hospital"; Num ((5 # 2) + 0)];
                               [Str "acme clinic"; Num 0]] |})
         /\ cell_eqb key (get (columns sample_dataset) "vendor_name" r) = true
         /\ forall key',
              In key' (column "vendor_name"
                         {| columns := ["vendor_name"; "amount"];
                            rows := [[Str "Acme Clinic"; Num (100 + 0)];
                                     [Str "Beta Hospital"; Num ((5 # 2) + 0)];
                                     [Str "acme clinic"; Num 0]] |}) ->
              cell_eqb key' (get (columns sample_dataset) "vendor_name" r) = true ->
              key' = key.
Proof.
  apply (top_vendors_complete stable_desc exact_sum stable_desc_Permutation
           sample_dataset 20
           {| columns := ["vendor_name"; "amount"];
              rows := [[Str "Acme Clinic"; Num (100 + 0)];
                       [Str "Beta Hospital"; Num ((5 # 2) + 0)];
                       [Str "acme clinic"; Num 0]] |}).
  - reflexivity.
  - reflexivity.
  - reflexivity.
  - repeat constructor.
  - vm_compute. discriminate.
  - reflexivity.
Defined.

Lemma fuzzy_pass_keeps_exact_witness :
  enrich_with_registry ascii_only (fun _ => "") always_95 true payments [acme]
    false 92
  = Ok (Enriched (columns payments)
          (exact_join ascii_only (fun _ => "") [acme] payments))
  /\ Forall2 (fun e o => source o = source e /\ (unresolved e = false -> o = e))
       (exact_join ascii_only (fun _ => "") [acme] payments)
       [ {| source := [Str "ACME  Clinic!!"; Num 10]; registry := attrs acme;
            match_score := NA |};
         {| source := [Str "Acme Klinik"; Num 20]; registry := Dicts (attrs acme);
            match_score := Num 95 |} ]
  /\ (existsb unresolved (exact_join ascii_only (fun _ => "") [acme] payments)
      = false ->
      [ {| source := [Str "ACME  Clinic!!"; Num 10]; registry := attrs acme;
           match_score := NA |};
        {| source := [Str "Acme Klinik"; Num 20]; registry := Dicts (attrs acme);
           match_score := Num 95 |} ]
      = exact_join ascii_only (fun _ => "") [acme] payments).
Proof.
  apply (fuzzy_pass_keeps_exact ascii_only (fun _ => "") always_95 true payments
           [acme] 92 (columns payments)).
  reflexivity.
Defined.

(* ===================================================================== *)
(** * Further properties: the file names of the reports *)
(* ===================================================================== *)

Lemma alt_at_In ws s w : alt_at ws s = Some w -> In w ws.
Proof.
  induction ws as [|v ws IH]; cbn [alt_at]; [discriminate|].
  destruct (strip_prefix v s); [intros [= ->]; now left|].
  intros H. right. now apply IH.
Qed.

Lemma search_alt_In ws s w : search_alt ws s = Some w -> In w ws.
Proof.
  induction s as [|c s IH]; cbn [search_alt];
    destruct (alt_at ws _) eqn:E; try discriminate;
    try (intros [= <-]; now apply alt_at_In in E).
  exact IH.
Qed.

Lemma month_titles w :
  In w MONTH_WORDS -> In (str_of (title_word w)) MONTH_ORDER.
Proof.
  intros H. apply mem_str_In. revert w H. apply Forall_forall.
  repeat constructor.
Qed.

Lemma take_digits_spec n : forall s d,
  take_digits n s = Some d ->
  List.length d = n /\ Forall (fun c => is_digit c = true) d.
Proof.
  induction n as [|n IH]; intros s d; cbn [take_digits].
  - intros [= <-]. split; [reflexivity | constructor].
  - destruct s as [|c r]; [discriminate|].
    destruct (is_digit c) eqn:Ec; [|discriminate].
    destruct (take_digits n r) as [d'|] eqn:E; [|discriminate].
    intros [= <-]. destruct (IH r d' E) as [Hl Hd]. split.
    + cbn. now rewrite Hl.
    + now constructor.
Qed.

Lemma search_year_spec s d :
  search_year s = Some d ->
  List.length d = 4 /\ Forall (fun c => is_digit c = true) d.
Proof.
  induction s as [|c s IH]; cbn [search_year].
  - destruct (take_digits 4 []) eqn:E; [|discriminate].
    intros [= <-]. now apply (take_digits_spec 4 []).
  - destruct (take_digits 4 (c :: s)) eqn:E.
    + intros [= <-]. now apply (take_digits_spec 4 (c :: s)).
    + exact IH.
Qed.

Lemma digit_val_bounds c : is_digit c = true -> (0 <= digit_val c <= 9)%Z.
Proof.
  unfold is_digit, between, digit_val. intros H.
  apply andb_true_iff in H as [H1 H2].
  apply N.leb_le in H1, H2. lia.
Qed.

Lemma fold_digits_bounds d : forall acc,
  Forall (fun c => is_digit c = true) d -> (0 <= acc)%Z ->
  (0 <= fold_left (fun acc c => 10 * acc + digit_val c) d acc
   < (acc + 1) * 10 ^ Z.of_nat (List.length d))%Z.
Proof.
  induction d as [|c d IH]; intros acc H Hacc.
  - cbn. lia.
  - inversion H as [|c' d' Hc Hd]; subst. cbn [fold_left List.length].
    pose proof (digit_val_bounds c Hc) as Hv.
    destruct (IH (10 * acc + digit_val c)%Z Hd ltac:(lia)) as [H0 H1].
    split; [exact H0|].
    rewrite Nat2Z.inj_succ, Z.pow_succ_r by lia.
    assert (0 < 10 ^ Z.of_nat (List.length d))%Z by (apply Z.pow_pos_nonneg; lia).
    nia.
Qed.

Lemma int_of_digits_bounds d :
  Forall (fun c => is_digit c = true) d ->
  (0 <= int_of_digits d < 10 ^ Z.of_nat (List.length d))%Z.
Proof.
  intros H. pose proof (fold_digits_bounds d 0%Z H ltac:(lia)) as B.
  unfold int_of_digits. lia.
Qed.

Lemma digit_runs_digits s : forall run,
  Forall (fun c => is_digit c = true) run ->
  Forall (Forall (fun c => is_digit c = true)) (digit_runs run s).
Proof.
  induction s as [|c s IH]; intros run Hrun; cbn [digit_runs].
  - destruct run; [constructor|]. constructor; [|constructor].
    now apply Forall_rev.
  - destruct (is_digit c) eqn:Ec.
    + apply IH. now constructor.
    + destruct run; [now apply IH|]. constructor; [now apply Forall_rev|].
      now apply IH.
Qed.

Lemma small_numbers_bounds s n :
  In n (small_numbers s) -> (0 <= n <= 99)%Z.
Proof.
  unfold small_numbers. intros H. apply in_map_iff in H as (d & <- & Hd).
  apply filter_In in Hd as [Hd Hlen]. apply Nat.leb_le in Hlen.
  pose proof (proj1 (Forall_forall _ _) (digit_runs_digits s [] (Forall_nil _)) d Hd)
    as Hdig.
  pose proof (int_of_digits_bounds d Hdig) as [H0 H1].
  assert (10 ^ Z.of_nat (List.length d) <= 10 ^ 2)%Z
    by (apply Z.pow_le_mono_r; lia).
  lia.
Qed.

Lemma last_item_In l x : last_item l = Some x -> In x l.
Proof.
  induction l as [|a l IH]; [discriminate|]. cbn [last_item].
  destruct l as [|b l]; [intros [= ->]; now left|].
  intros H. right. now apply IH.
Qed.

Lemma last_item_None l : last_item l = None -> l = [].
Proof.
  induction l as [|a l IH]; [reflexivity|]. cbn [last_item].
  destruct l as [|b l]; [discriminate|]. intros H. now apply IH in H.
Qed.

Lemma kept_numbers_incl year nums : incl (kept_numbers year nums) nums.
Proof.
  unfold kept_numbers. destruct year as [y|]; [|easy].
  destruct (Z.eqb y 0); [easy|]. apply incl_filter.
Qed.

Section FilenameProperties.

Variable py_upper : string -> string.

(** X14.  [parse_filename_meta] on the stem of a report.  The numbers it
    considers for the schedule are the isolated one- and two-digit numbers
    of the upper-cased stem, without those equal to the year or to its last
    two digits when there is a year other than 0.  When it returns, the
    month is one of the twelve names of [MONTH_ORDER] or missing, the year
    is the first four digits in a row (at most 9999) or missing, and the
    schedule is 1 when the stem has no isolated number, and otherwise one
    of the numbers kept, between 1 and 24 as soon as one of them is.  It
    raises [IndexError] exactly when the stem has isolated numbers and none
    is kept, that is when each of them is the year or its last two
    digits. *)
Theorem parse_filename_meta_cases stem :
  let s := chars_of (py_upper stem) in
  let year := option_map int_of_digits (search_year s) in
  let nums := small_numbers s in
  (forall m y sch,
      parse_filename_meta py_upper stem = Meta m y sch ->
      y = year
      /\ (forall name, m = Some name -> In name MONTH_ORDER)
      /\ (forall v, y = Some v -> (0 <= v <= 9999)%Z)
      /\ (nums = [] -> sch = 1%Z)
      /\ (nums <> [] -> In sch (kept_numbers year nums) /\ (0 <= sch <= 99)%Z)
      /\ ((exists n, In n (kept_numbers year nums) /\ (1 <= n <= 24)%Z) ->
          (1 <= sch <= 24)%Z))
  /\ (parse_filename_meta py_upper stem = IndexError
      <-> nums <> [] /\ kept_numbers year nums = [])
  /\ (nums <> [] -> kept_numbers year nums = [] ->
      exists v, year = Some v /\ v <> 0%Z
                /\ forall n, In n nums -> n = v \/ n = (v mod 100)%Z).
Proof.
  cbv zeta. unfold parse_filename_meta.
  set (s := chars_of (py_upper stem)).
  set (year := option_map int_of_digits (search_year s)).
  set (month := option_map (fun w => str_of (title_word w))
                  (search_alt MONTH_WORDS s)).
  assert (Hmonth : forall name, month = Some name -> In name MONTH_ORDER).
  { unfold month. intros name H.
    destruct (search_alt MONTH_WORDS s) as [w|] eqn:E; [|discriminate H].
    injection H as <-. apply month_titles. now apply search_alt_In in E. }
  assert (Hyear : forall v, year = Some v -> (0 <= v <= 9999)%Z).
  { unfold year. intros v H.
    destruct (search_year s) as [d|] eqn:E; [|discriminate H].
    injection H as <-. destruct (search_year_spec s d E) as [Hl Hd].
    pose proof (int_of_digits_bounds d Hd) as B. rewrite Hl in B.
    change (10 ^ Z.of_nat 4)%Z with 10000%Z in B. lia. }
  pose proof (small_numbers_bounds s) as Hsmall.
  destruct (small_numbers s) as [|n ns] eqn:En; cbv iota.
  - split; [|split].
    + intros m y sch [= <- <- <-].
      split; [reflexivity|]. split; [exact Hmonth|]. split; [exact Hyear|].
      split; [reflexivity|]. split; [easy|].
      intros (x & Hx & _). apply kept_numbers_incl in Hx. destruct Hx.
    + split; [discriminate | now intros [H _]].
    + now intros H.
  - set (nums := n :: ns) in *.
    set (kept := kept_numbers year nums).
    set (small := filter (fun n => (1 <=? n)%Z && (n <=? 24)%Z) kept).
    assert (Hsm : forall x, In x small <-> In x kept /\ (1 <= x <= 24)%Z).
    { intros x. unfold small. rewrite filter_In, andb_true_iff, !Z.leb_le. tauto. }
    assert (Hkept : forall x, In x kept -> (0 <= x <= 99)%Z).
    { intros x Hx. apply Hsmall. now apply kept_numbers_incl in Hx. }
    split; [|split].
    + intros m y sch H.
      assert (Hres : m = month /\ y = year
                     /\ ((last_item small = Some sch)
                         \/ (last_item small = None /\ last_item kept = Some sch))).
      { destruct (last_item small) as [x|] eqn:E1.
        - injection H as <- <- <-. auto.
        - destruct (last_item kept) as [x|] eqn:E2; [|discriminate H].
          injection H as <- <- <-. auto. }
      destruct Hres as (-> & -> & Hsch).
      split; [reflexivity|]. split; [exact Hmonth|]. split; [exact Hyear|].
      split; [discriminate|]. split.
      * intros _. destruct Hsch as [H1 | [_ H2]].
        -- apply last_item_In, Hsm in H1 as [H1 _]. auto.
        -- apply last_item_In in H2. auto.
      * intros (x & Hx & Hr). destruct Hsch as [H1 | [H1 _]].
        -- now apply last_item_In, Hsm in H1 as [_ H1].
        -- apply last_item_None in H1.
           assert (Hin : In x small) by (apply Hsm; now split).
           rewrite H1 in Hin. destruct Hin.
    + split.
      * intros H. split; [discriminate|].
        destruct (last_item small); [discriminate H|].
        destruct (last_item kept) eqn:E2; [discriminate H|].
        now apply last_item_None in E2.
      * intros [_ H]. unfold small. fold kept. rewrite H. reflexivity.
    + intros _ H. unfold kept, kept_numbers in H.
      destruct year as [v|]; [|discriminate H].
      destruct (Z.eqb_spec v 0) as [->|Hv]; [discriminate H|].
      exists v. split; [reflexivity|]. split; [exact Hv|].
      intros x Hx.
      destruct (Z.eqb_spec x v) as [->|Hxv]; [now left|]. right.
      destruct (Z.eqb_spec x (v mod 100)) as [->|Hxm]; [reflexivity|].
      exfalso.
      assert (Hin : In x (filter (fun n0 => negb (n0 =? v)%Z
                                            && negb (n0 =? v mod 100)%Z) nums)).
      { apply filter_In. split; [exact Hx|].
        apply Z.eqb_neq in Hxv, Hxm. now rewrite Hxv, Hxm. }
      rewrite H in Hin. destruct Hin.
Qed.

End FilenameProperties.

(** A report named after a day that is also the short year: the parser
    finds no schedule and raises. *)
Lemma parse_filename_meta_cases_witness :
  parse_filename_meta (fun s => s) "SHA_25_JANUARY_2025" = IndexError
  /\ parse_filename_meta (fun s => s) "SHA_MARCH_2025_SCHEDULE_3"
     = Meta (Some "March") (Some 2025%Z) 3%Z
  /\ In "March" MONTH_ORDER.
Proof.
  split; [reflexivity|]. split; [reflexivity|].
  destruct (parse_filename_meta_cases (fun s => s) "SHA_MARCH_2025_SCHEDULE_3")
    as [H _].
  destruct (H (Some "March") (Some 2025%Z) 3%Z eq_refl) as (_ & Hm & _).
  now apply Hm.
Defined.

(* ===================================================================== *)
(** * Further properties: the shape of a canonical key *)
(* ===================================================================== *)

Section KeyShape.

Variable nfkd_ascii : string -> string.

(** X15.  What a canonical key looks like, whatever the folding does: the
    result of [_clean_name] is a sequence of tokens joined by single
    spaces, each token a non-empty run of [[a-z0-9]] that is none of the
    stop words; hence it has no space at either end, no capital and no
    character outside ASCII. *)
Theorem clean_name_shape (s : option string) :
  let key := _clean_name nfkd_ascii s in
  (exists K, Forall tokP K
             /\ Forall (fun t => ~ In t STOPWORDS) K
             /\ chars_of key = join K)
  /\ py_strip key = key
  /\ py_lower key = key
  /\ Forall (fun c => (code c <? 128)%N = true) (chars_of key).
Proof.
  cbv zeta. pose proof (clean_name_canonical nfkd_ascii s) as Hc.
  split; [|split; [|split]].
  - destruct Hc as (K & HK & Hstop & E). exists K. split; [exact HK|].
    split; [|exact E]. eapply Forall_impl; [|exact Hstop].
    intros t Ht Hin. unfold in_words in Ht.
    destruct (in_dec chars_dec t STOPWORDS); [discriminate | contradiction].
  - destruct s as [s|]; [|reflexivity]. cbn [_clean_name].
    unfold py_strip, clean_chars. rewrite chars_of_str_of.
    now rewrite strip_idempotent.
  - unfold py_lower. rewrite (canonical_lower _ Hc).
    apply string_of_list_ascii_of_string.
  - now apply canonical_ascii.
Qed.

End KeyShape.

(* ===================================================================== *)
(** * Further properties: counts under filtering *)
(* ===================================================================== *)

(** A cell with its number in lowest terms: equal cells have the same. *)
Definition norm (c : cell) : cell :=
  match c with
  | Num q => Num (Qred q)
  | _ => c
  end.

Lemma cell_eqb_norm a b : cell_eqb a b = true <-> norm a = norm b.
Proof.
  destruct a as [|s|p], b as [|t|q]; cbn; try (split; [discriminate|discriminate]);
    try tauto.
  - rewrite String.eqb_eq. split; [now intros -> | now intros [= ->]].
  - rewrite Qeq_bool_iff. split.
    + intros H. f_equal. now apply Qred_complete.
    + intros [= H]. rewrite <- (Qred_correct p), <- (Qred_correct q).
      now rewrite H.
Qed.

Lemma distinct_norm_NoDup l : NoDup (map norm (distinct l)).
Proof.
  pose proof (distinct_apart l) as H. induction H as [|c u Hc _ IH];
    cbn [map]; constructor; [|exact IH].
  intros Hin. apply in_map_iff in Hin as (d & E & Hd).
  pose proof (proj1 (Forall_forall _ _) Hc d Hd) as Hcd. cbv beta in Hcd.
  symmetry in E. apply cell_eqb_norm in E. congruence.
Qed.

Lemma distinct_length_incl l l' :
  incl l' l -> List.length (distinct l') <= List.length (distinct l).
Proof.
  intros H. rewrite <- (length_map norm (distinct l')), <- (length_map norm (distinct l)).
  apply NoDup_incl_length; [apply distinct_norm_NoDup|].
  intros x Hx. apply in_map_iff in Hx as (d & <- & Hd).
  apply distinct_incl, H in Hd.
  destruct (distinct_complete l d Hd) as (e & He & E).
  apply cell_eqb_norm in E. rewrite <- E. now apply in_map.
Qed.

Lemma distinct_length l : List.length (distinct l) <= List.length l.
Proof.
  induction l as [|c l IH]; [reflexivity|]. cbn [distinct List.length].
  pose proof (filter_length_le (fun d => negb (cell_eqb c d)) (distinct l)). lia.
Qed.

Lemma nunique_length col : nunique col <= List.length col.
Proof.
  unfold nunique. pose proof (distinct_length (filter notna col)).
  pose proof (filter_length_le notna col). lia.
Qed.

Lemma nunique_incl col col' : incl col' col -> nunique col' <= nunique col.
Proof.
  intros H. unfold nunique. apply distinct_length_incl.
  intros c Hc. apply filter_In in Hc as [Hc Hn]. apply filter_In. split; auto.
Qed.

Section CountsUnderFiltering.

Variable py_title : string -> string.
Variable py_float : string -> option Q.
Variable np_sum : list Q -> Q.

Lemma totals_cases df t :
  totals py_float np_sum df = Ok t ->
  (has_col "vendor_name" df = true -> repeated "vendor_name" df = false)
  /\ total_rows t = List.length (rows df)
  /\ total_claims t = 0
  /\ total_facilities t
     = (if has_col "vendor_name" df then nunique (column "vendor_name" df) else 0).
Proof.
  unfold totals. intros H. apply bind_ok in H as (a & _ & H).
  apply bind_ok in H as (n & Hn & H). injection H as <-.
  cbn [total_rows total_claims total_facilities].
  destruct (has_col "vendor_name" df).
  - destruct (repeated "vendor_name" df); [discriminate Hn|].
    injection Hn as <-. auto.
  - injection Hn as <-. repeat split. discriminate.
Qed.

(** X16.  Filtering can only lower the counts.  For a dataset whose
    amounts are numbers or missing and on which [totals] returns, [totals]
    also returns on whatever [filter_data] selects from it, with no more
    rows and no more facilities than for the whole dataset; the number of
    facilities never exceeds the number of rows, and [total_claims] is
    always 0. *)
Theorem totals_after_filter df vendors months years sel t :
  Forall (fun c => is_str c = false) (column "amount" df) ->
  totals py_float np_sum df = Ok t ->
  filter_data py_title df vendors months years = Ok sel ->
  exists t',
    totals py_float np_sum sel = Ok t'
    /\ total_rows t' <= total_rows t
    /\ total_facilities t' <= total_facilities t
    /\ total_facilities t' <= total_rows t'
    /\ total_claims t' = 0.
Proof.
  intros Hnum Ht Hsel.
  destruct (totals_cases df t Ht) as (Rv & Hrows & _ & Hfac).
  assert (Ra : has_col "amount" df = true -> repeated "amount" df = false).
  { intros Ha. unfold totals in Ht. rewrite Ha in Ht.
    destruct (repeated "amount" df); [discriminate Ht | reflexivity]. }
  pose proof (filter_data_ok py_title df vendors months years sel Hsel) as E.
  set (p := fun r : list cell => _) in E.
  assert (Hc : columns sel = columns df) by (now rewrite E).
  assert (Hi : incl (rows sel) (rows df))
    by (rewrite E; cbn [rows filter_rows]; apply incl_filter).
  destruct (same_labels "vendor_name" sel df Hc) as [Hv1 Hv2].
  destruct (same_labels "amount" sel df Hc) as [Ha1 Ha2].
  destruct (totals_returns py_float np_sum sel) as (t' & Et' & Hrows' & _).
  { rewrite Ha1, Ha2. intros Ha. split; [now apply Ra|].
    eapply Forall_incl; [apply (column_incl "amount" sel df Hc Hi) | exact Hnum]. }
  { rewrite Hv1, Hv2. exact Rv. }
  destruct (totals_cases sel t' Et') as (_ & _ & Hcl' & Hfac').
  exists t'. split; [exact Et'|]. split; [|split; [|split; [|exact Hcl']]].
  - rewrite Hrows', Hrows, E. cbn [rows filter_rows]. apply filter_length_le.
  - rewrite Hfac', Hfac, Hv1. destruct (has_col "vendor_name" df); [|lia].
    apply nunique_incl. now apply column_incl.
  - rewrite Hfac', Hrows'. destruct (has_col "vendor_name" sel); [|lia].
    pose proof (nunique_length (column "vendor_name" sel)) as Hn.
    unfold column in Hn at 2. now rewrite length_map in Hn.
Qed.

End CountsUnderFiltering.

Lemma totals_after_filter_witness :
  exists t',
    totals (fun _ => None) exact_sum
      {| columns := columns sample_dataset;
         rows := [[Str "Acme Clinic"; Num 100; Str "January"; Num 2024]] |}
    = Ok t'
    /\ total_rows t' <= 3
    /\ total_facilities t' <= 3
    /\ total_facilities t' <= total_rows t'
    /\ total_claims t' = 0.
Proof.
  apply (totals_after_filter (fun s => s) (fun _ => None) exact_sum sample_dataset
           (Some ["ACME CLINIC "]) (Some ["January"]) (Some [2024%Z])
           {| columns := columns sample_dataset;
              rows := [[Str "Acme Clinic"; Num 100; Str "January"; Num 2024]] |}
           {| total_amount := Qplus 100 (Qplus 0 (Qplus (5 # 2) 0));
              total_facilities := 3; total_claims := 0; total_rows := 3 |}).
  - repeat constructor.
  - reflexivity.
  - reflexivity.
Defined.

(* ===================================================================== *)
(** * Further properties: the scores of the fuzzy pass *)
(* ===================================================================== *)

Section FuzzyScores.

Variable nfkd_ascii : string -> string.
Variable float_repr : Q -> string.
Variable token_sort_ratio : string -> string -> Q.
Variable HAVE_RAPIDFUZZ : bool.

(** X17.  What the fuzzy pass does to the rows of the merge, when it runs
    ([rapidfuzz] imported, some row unresolved, enrichment returning).  A
    row the exact pass resolved has no score.  An unresolved row gets a
    number as score: either nothing was accepted for it, it is left as the
    merge made it and its score is 0, or its canonical name is not empty
    and its registry columns hold the dictionary of the attributes of a
    registry entity.  So a vendor whose name cleans to nothing is never
    matched by the fuzzy pass, whatever the scorer says. *)
Theorem fuzzy_pass_scores df reg cutoff cols out :
  HAVE_RAPIDFUZZ = true ->
  enrich_with_registry nfkd_ascii float_repr token_sort_ratio HAVE_RAPIDFUZZ
    df reg true cutoff = Ok (Enriched cols out) ->
  existsb unresolved (exact_join nfkd_ascii float_repr reg df) = true ->
  Forall2
    (fun e o =>
       (unresolved e = false -> match_score o = NA)
       /\ (unresolved e = true ->
           (registry o = registry e /\ match_score o = Num 0)
           \/ (vendor_clean nfkd_ascii float_repr cols (source e) <> ""
               /\ exists ent s, In ent reg
                                /\ registry o = Dicts (attrs ent)
                                /\ match_score o = Num s)))
    (exact_join nfkd_ascii float_repr reg df) out.
Proof.
  intros Hhave H Hu.
  apply enrich_enriched in H as (-> & [(Hu' & _) | (_ & _ & _ & ->)]).
  { rewrite Hhave, Hu in Hu'. discriminate Hu'. }
  assert (Hscore : Forall (fun e => match_score e = NA)
                     (exact_join nfkd_ascii float_repr reg df)).
  { apply Forall_forall. intros e He. unfold exact_join in He.
    apply in_flat_map in He as (row & _ & He). unfold exact_rows in He.
    destruct (filter _ reg) as [|x xs].
    - destruct He as [<-|[]]. reflexivity.
    - apply in_map_iff in He as (y & <- & _). reflexivity. }
  clear Hu. induction Hscore as [|e l He _ IH]; cbn [map]; [constructor|].
  constructor; [|exact IH]. unfold fuzzy_row. split.
  - intros ->. exact He.
  - intros ->. unfold best_match.
    destruct (String.eqb_spec
                (vendor_clean nfkd_ascii float_repr (columns df) (source e)) "")
      as [Eq|Hq].
    + left. now split.
    + destruct (extractOne _ _ _ _ _) as [[k s]|] eqn:Ex; [|left; now split].
      cbn [registry match_score].
      assert (Hk : exists ent, In ent reg /\ facility_name_clean ent = k).
      { apply (extractOne_sound token_sort_ratio
                 (vendor_clean nfkd_ascii float_repr (columns df) (source e)) cutoff
                 (fun k _ => exists ent, In ent reg /\ facility_name_clean ent = k)
                 (map facility_name_clean reg) None) with (s := s);
          [| |exact Ex].
        - intros c Hc _. apply in_map_iff in Hc as (ent & <- & Hent).
          now exists ent.
        - discriminate. }
      destruct Hk as (ent & Hent & Hke).
      destruct (reg_take reg k) as [a|] eqn:Et.
      * apply reg_take_some in Et as (e' & He' & _ & <-).
        right. split; [exact Hq|]. now exists e', s.
      * exfalso. unfold reg_take in Et.
        destruct (find (key_is k) reg) as [x|] eqn:Ef; [discriminate Et|].
        pose proof (find_none _ _ Ef ent Hent) as Hn. unfold key_is in Hn.
        rewrite Hke, String.eqb_refl in Hn. discriminate Hn.
Qed.

End FuzzyScores.

(** A vendor whose name is made of stop words only. *)
Definition stopword_payment : DataFrame :=
  {| columns := ["vendor_name"; "amount"];
     rows := [[Str "Health Centre"; Num 5]; [Str "Acme Klinik"; Num 20]] |}.

Lemma fuzzy_pass_scores_witness :
  Forall2
    (fun e o =>
       (unresolved e = false -> match_score o = NA)
       /\ (unresolved e = true ->
           (registry o = registry e /\ match_score o = Num 0)
           \/ (vendor_clean ascii_only (fun _ => "") (columns stopword_payment)
                 (source e) <> ""
               /\ exists ent s, In ent [acme]
                                /\ registry o = Dicts (attrs ent)
                                /\ match_score o = Num s)))
    (exact_join ascii_only (fun _ => "") [acme] stopword_payment)
    [ {| source := [Str "Health Centre"; Num 5]; registry := null_attrs;
         match_score := Num 0 |};
      {| source := [Str "Acme Klinik"; Num 20]; registry := Dicts (attrs acme);
         match_score := Num 95 |} ].
Proof.
  apply (fuzzy_pass_scores ascii_only (fun _ => "") always_95 true
           stopword_payment [acme] 92 (columns stopword_payment)); reflexivity.
Defined.
